(** * The audio transcoding pipeline of [tmp30.c]

    A shallow embedding of the decode / convert / buffer / encode pipeline
    of [src/tmp30.c] and the properties its specification states.

    The program is a client of libavformat, libavcodec, libswresample and
    libavutil.  None of these is part of the program: every call into them
    is answered by an _environment_ (the records of section "Environment"),
    which fixes the [int] each call returns.  The program's own control flow
    -- the tests on these return codes, the [goto cleanup] paths, the
    updates of the global [pts] and of the FIFO -- is transcribed function
    by function, under the names of the source. *)

From Stdlib Require Import ZArith List Bool Lia String.
Import ListNotations.
Local Open Scope Z_scope.

(* ===================================================================== *)
(** ** C integers *)
(* ===================================================================== *)

(** [int] arithmetic: the 32-bit two's complement value of [z]. *)
Definition int32 (z : Z) : Z := (z + 2 ^ 31) mod 2 ^ 32 - 2 ^ 31.

(** [int64_t] arithmetic: the 64-bit two's complement value of [z]. *)
Definition int64 (z : Z) : Z := (z + 2 ^ 63) mod 2 ^ 64 - 2 ^ 63.

(** [unsigned] arithmetic. *)
Definition uint32 (z : Z) : Z := z mod 2 ^ 32.

Definition INT64_MAX : Z := 2 ^ 63 - 1.
Definition INT_MAX : Z := 2 ^ 31 - 1.

(** [FFMIN(a,b)] is [((a) > (b) ? (b) : (a))]. *)
Definition FFMIN (a b : Z) : Z := if a >? b then b else a.

(** A C condition [if (e)] on an [int]: true when [e] is not 0. *)
Definition nonzero (e : Z) : bool := negb (e =? 0).

(* ===================================================================== *)
(** ** Error codes *)
(* ===================================================================== *)

(** [AVERROR(e)] is [(-(e))]. *)
Definition AVERROR (e : Z) : Z := - e.

(** The [errno] values and the two tagged libavutil codes the program
    tests.  [<errno.h>] and [<libavutil/error.h>] are not part of the
    sources, so the values are parameters; what the program relies on is
    that the [errno] values are positive, that the tagged codes are
    negative, and that "end of file" and "try again" are different codes. *)
Class av_error_codes : Type := {
  EAGAIN : Z;
  ENOMEM : Z;
  EINVAL : Z;
  AVERROR_EOF : Z;
  AVERROR_EXIT : Z;
  EAGAIN_pos : 0 < EAGAIN;
  ENOMEM_pos : 0 < ENOMEM;
  EINVAL_pos : 0 < EINVAL;
  AVERROR_EOF_neg : AVERROR_EOF < 0;
  AVERROR_EXIT_neg : AVERROR_EXIT < 0;
  AVERROR_EOF_not_EAGAIN : AVERROR_EOF <> AVERROR EAGAIN
}.

(** [MKTAG(a,b,c,d)] and [FFERRTAG(a,b,c,d)] of libavutil. *)
Definition MKTAG (a b c d : Z) : Z :=
  Z.lor a (Z.lor (Z.shiftl b 8) (Z.lor (Z.shiftl c 16) (Z.shiftl d 24))).
Definition FFERRTAG (a b c d : Z) : Z := - MKTAG a b c d.

(** The codes of a Linux build of FFmpeg: [EAGAIN = 11], [ENOMEM = 12],
    [EINVAL = 22], [AVERROR_EOF = FFERRTAG('E','O','F',' ')] and
    [AVERROR_EXIT = FFERRTAG('E','X','I','T')]. *)
Definition linux_error_codes : av_error_codes.
Proof.
  refine {| EAGAIN := 11; ENOMEM := 12; EINVAL := 22;
            AVERROR_EOF := FFERRTAG 69 79 70 32;
            AVERROR_EXIT := FFERRTAG 69 88 73 84 |};
    vm_compute; congruence.
Defined.

(* ===================================================================== *)
(** ** Data *)
(* ===================================================================== *)

(** The fields of [AVCodecContext] the program reads or writes. *)
Record AVCodecContext := {
  sample_rate : Z;
  sample_fmt : Z;
  nb_channels : Z;
  frame_size : Z
}.

(** An audio frame: its sample count and its presentation time stamp. *)
Record AVFrame := {
  nb_samples : Z;
  frame_pts : Z
}.

(** [enum AVMediaType], as far as streams of a media file go. *)
Inductive AVMediaType :=
| AVMEDIA_TYPE_VIDEO
| AVMEDIA_TYPE_AUDIO
| AVMEDIA_TYPE_DATA
| AVMEDIA_TYPE_SUBTITLE
| AVMEDIA_TYPE_ATTACHMENT.

(** A stream of the input file: the kind of its codec and the sample rate
    of its codec parameters. *)
Record AVStream := {
  codec_type : AVMediaType;
  codecpar_sample_rate : Z;
  codecpar_sample_fmt : Z;
  codecpar_nb_channels : Z
}.

(** Modelled from the spec: the Elastic Sample Buffer (section 4.2), which
    the program takes from libavutil ([AVAudioFifo], not in the sources).
    The buffer is known by its level, the count of valid unconsumed
    samples, and by its capacity. *)
Record AVAudioFifo := {
  fifo_nb_samples : Z;
  fifo_allocated_samples : Z
}.

(** What a function with an [av_assert0] does: it returns, or the process
    dies in the assertion. *)
Inductive asserted (A : Type) :=
| Passed (a : A)
| AssertionFailed.
Arguments Passed {A} a.
Arguments AssertionFailed {A}.

(** What a run leaves behind, in order: the frames the decoder handed
    out, the frames (or the null frame) handed to the encoder, the packets
    given to the muxer, the trailer, and the lines printed on [stderr]. *)
Inductive event :=
| Decoded (n : Z)
| SendFrame (frame : option AVFrame)
| WritePacket
| WriteTrailer
| Stderr (msg : string)
| Stdout (msg : string) (arg : Z).

(** The state the pipeline functions share: the FIFO, the global [pts] and
    the history of the run so far. *)
Record state := {
  fifo : AVAudioFifo;
  pts : Z;
  history : list event
}.

Definition with_fifo (f : AVAudioFifo) (st : state) : state :=
  {| fifo := f; pts := pts st; history := history st |}.

Definition with_pts (p : Z) (st : state) : state :=
  {| fifo := fifo st; pts := p; history := history st |}.

Definition log (e : event) (st : state) : state :=
  {| fifo := fifo st; pts := pts st; history := history st ++ [e] |}.

(** [fprintf(stderr, msg, ...)]: the line is put on record by its format
    string, without the final newline. *)
Definition fprintf_stderr (msg : string) (st : state) : state :=
  log (Stderr msg) st.

(* ===================================================================== *)
(** ** Environment *)
(* ===================================================================== *)

(** The answers of the libraries to one call of [open_input_file]. *)
Record input_answers := {
  avformat_open_input_ret : Z;
  avformat_find_stream_info_ret : Z;
  streams : list AVStream;
  decoder_found : bool;
  decoder_context_alloc_ok : bool;
  avcodec_parameters_to_context_ret : Z;
  decoder_open2_ret : Z
}.

(** The answers of the libraries to one call of [open_output_file]. *)
Record output_answers := {
  avio_open_ret : Z;
  avformat_alloc_context_ok : bool;
  av_guess_format_ok : bool;
  av_strdup_ok : bool;
  encoder_found : bool;
  avformat_new_stream_ok : bool;
  encoder_context_alloc_ok : bool;
  output_codec_sample_fmt : Z;
  encoder_open2_ret : Z;
  encoder_frame_size : Z;
  avcodec_parameters_from_context_ret : Z
}.

(** The answers of the libraries to one call of
    [read_decode_convert_and_store]. *)
Record pump_answers := {
  input_frame_alloc_ok : bool;
  input_packet_alloc_ok : bool;
  av_read_frame_ret : Z;
  avcodec_send_packet_ret : Z;
  avcodec_receive_frame_ret : Z;
  input_frame_nb_samples : Z;
  av_samples_alloc_ret : Z;
  swr_convert_ret : Z;
  av_audio_fifo_realloc_ret : Z
}.

(** The answers of the libraries to one call of [init_output_frame]. *)
Record frame_answers := {
  output_frame_alloc_ok : bool;
  av_frame_get_buffer_ret : Z
}.

(** The answers of the libraries to one call of [encode_audio_frame]. *)
Record encode_answers := {
  output_packet_alloc_ok : bool;
  avcodec_send_frame_ret : Z;
  avcodec_receive_packet_ret : Z;
  av_write_frame_ret : Z
}.

(** The environment of a whole run.  The calls of the main loop are
    answered in order: the [i]-th call of [read_decode_convert_and_store]
    by [pump_env i], and likewise for the other two. *)
Record environment := {
  input_env : input_answers;
  output_env : output_answers;
  swr_alloc_set_opts2_ret : Z;
  swr_init_ret : Z;
  av_audio_fifo_alloc_ok : bool;
  avformat_write_header_ret : Z;
  pump_env : nat -> pump_answers;
  frame_env : nat -> frame_answers;
  encode_env : nat -> encode_answers;
  av_write_trailer_ret : Z
}.

Section Program.

Context {codes : av_error_codes}.

(* ===================================================================== *)
(** ** The sample FIFO *)
(* ===================================================================== *)

(** Modelled from the spec: [av_audio_fifo_alloc] (libavutil, not in the
    sources) gives an empty buffer with room for [nb_samples] samples. *)
Definition av_audio_fifo_alloc (nb_samples : Z) : AVAudioFifo :=
  {| fifo_nb_samples := 0; fifo_allocated_samples := nb_samples |}.

(** Modelled from the spec: [av_audio_fifo_size] (libavutil, not in the
    sources) is the operation [level()], a non-destructive read of the
    count of valid unconsumed samples. *)
Definition av_audio_fifo_size (af : AVAudioFifo) : Z := fifo_nb_samples af.

(** Modelled from the spec: [av_audio_fifo_space] (libavutil, not in the
    sources), the room left in the backing storage. *)
Definition av_audio_fifo_space (af : AVAudioFifo) : Z :=
  fifo_allocated_samples af - fifo_nb_samples af.

(** Modelled from the spec: [av_audio_fifo_realloc] (libavutil, not in the
    sources) grows the backing storage, if needed, to hold [nb_samples]
    samples; it fails only when the allocation fails, which the environment
    decides ([alloc_ret] negative), and then leaves the buffer as it was. *)
Definition av_audio_fifo_realloc (alloc_ret : Z) (af : AVAudioFifo)
    (nb_samples : Z) : Z * AVAudioFifo :=
  if alloc_ret <? 0 then (alloc_ret, af)
  else (0, {| fifo_nb_samples := fifo_nb_samples af;
              fifo_allocated_samples :=
                Z.max (fifo_allocated_samples af) nb_samples |}).

(** Modelled from the spec: [av_audio_fifo_write] (libavutil, not in the
    sources) appends at the tail and returns the count of samples stored:
    all [nb_samples] of them when the storage has room for them, fewer (a
    short write) when it has not.  A negative count is rejected. *)
Definition av_audio_fifo_write (af : AVAudioFifo) (nb_samples : Z)
    : Z * AVAudioFifo :=
  if nb_samples <? 0 then (AVERROR EINVAL, af)
  else
    let stored := Z.min nb_samples (av_audio_fifo_space af) in
    (stored, {| fifo_nb_samples := fifo_nb_samples af + stored;
                fifo_allocated_samples := fifo_allocated_samples af |}).

(** Modelled from the spec: [av_audio_fifo_read] (libavutil, not in the
    sources) is [consume(count)]: it removes samples at the head and returns
    how many it removed, exactly [nb_samples] when [nb_samples <= level],
    fewer (a short read) otherwise.  A negative count is rejected. *)
Definition av_audio_fifo_read (af : AVAudioFifo) (nb_samples : Z)
    : Z * AVAudioFifo :=
  if nb_samples <? 0 then (AVERROR EINVAL, af)
  else
    let removed := Z.min nb_samples (fifo_nb_samples af) in
    (removed, {| fifo_nb_samples := fifo_nb_samples af - removed;
                 fifo_allocated_samples := fifo_allocated_samples af |}).

(* ===================================================================== *)
(** ** Opening the endpoints (lines 62-339) *)
(* ===================================================================== *)

(** [open_input_file] (lines 62-135).  The result is the error code, the
    decoder context stored through [inpccx] when there is one, and the
    lines printed. *)
Definition open_input_file (a : input_answers)
    : Z * option AVCodecContext * list string :=
  let error := avformat_open_input_ret a in
  if error <? 0 then
    (error, None, ["Could not open input file '%s' (error '%s')"%string])
  else
  let error := avformat_find_stream_info_ret a in
  if error <? 0 then
    (error, None, ["Could not open find stream info (error '%s')"%string])
  else
  (* Make sure that there is only one stream in the input file. *)
  if negb (Nat.eqb (List.length (streams a)) 1) then
    (AVERROR_EXIT, None,
     ["Expected one audio input stream, but found %d"%string])
  else
  match streams a with
  | [] => (AVERROR_EXIT, None, [])
  | stream :: _ =>
    if negb (decoder_found a) then
      (AVERROR_EXIT, None, ["Could not find input codec"%string])
    else
    if negb (decoder_context_alloc_ok a) then
      (AVERROR ENOMEM, None, ["Could not allocate a decoding context"%string])
    else
    let avctx := {| sample_rate := codecpar_sample_rate stream;
                    sample_fmt := codecpar_sample_fmt stream;
                    nb_channels := codecpar_nb_channels stream;
                    frame_size := 0 |} in
    let error := avcodec_parameters_to_context_ret a in
    if error <? 0 then (error, None, [])
    else
    let error := decoder_open2_ret a in
    if error <? 0 then
      (error, None, ["Could not open input codec (error '%s')"%string])
    else (0, Some avctx, [])
  end.

(** [OUTPUT_CHANNELS] (line 50). *)
Definition OUTPUT_CHANNELS : Z := 2.

(** [open_output_file] (lines 147-241).  The label [cleanup] returns
    [error < 0 ? error : AVERROR_EXIT]. *)
Definition open_output_cleanup (error : Z) : Z :=
  if error <? 0 then error else AVERROR_EXIT.

Definition open_output_file (a : output_answers) (inpccx : AVCodecContext)
    : Z * option AVCodecContext * list string :=
  let error := avio_open_ret a in
  if error <? 0 then
    (error, None, ["Could not open output file '%s' (error '%s')"%string])
  else
  if negb (avformat_alloc_context_ok a) then
    (AVERROR ENOMEM, None, ["Could not allocate output format context"%string])
  else
  if negb (av_guess_format_ok a) then
    (open_output_cleanup error, None,
     ["Could not find output file format"%string])
  else
  if negb (av_strdup_ok a) then
    (open_output_cleanup (AVERROR ENOMEM), None,
     ["Could not allocate url."%string])
  else
  if negb (encoder_found a) then
    (open_output_cleanup error, None, ["Could not find an MP3 encoder."%string])
  else
  if negb (avformat_new_stream_ok a) then
    (open_output_cleanup (AVERROR ENOMEM), None,
     ["Could not create new stream"%string])
  else
  if negb (encoder_context_alloc_ok a) then
    (open_output_cleanup (AVERROR ENOMEM), None,
     ["Could not allocate an encoding context"%string])
  else
  (* The input file's sample rate is used to avoid a sample rate
     conversion.  Opening the encoder ([avcodec_open2]) fixes its frame
     size and leaves alone the fields the program has set. *)
  let avctx := {| sample_rate := sample_rate inpccx;
                  sample_fmt := output_codec_sample_fmt a;
                  nb_channels := OUTPUT_CHANNELS;
                  frame_size := encoder_frame_size a |} in
  let error := encoder_open2_ret a in
  if error <? 0 then
    (open_output_cleanup error, None,
     ["Could not open output codec (error '%s')"%string])
  else
  let error := avcodec_parameters_from_context_ret a in
  if error <? 0 then
    (open_output_cleanup error, None,
     ["Could not initialize stream parameters"%string])
  else (0, Some avctx, []).

(** [init_resampler] (lines 280-308). *)
Definition init_resampler (alloc_ret init_ret : Z)
    (inpccx outccx : AVCodecContext) : asserted (Z * list string) :=
  let error := alloc_ret in
  if error <? 0 then
    Passed (error, ["Could not allocate resample context"%string])
  else
  if negb (sample_rate outccx =? sample_rate inpccx) then AssertionFailed
  else
  let error := init_ret in
  if error <? 0 then
    Passed (error, ["Could not open resample context"%string])
  else Passed (0, []).

(** [init_fifo] (lines 316-324); the FIFO is created with room for one
    sample. *)
Definition init_fifo (alloc_ok : bool)
    : Z * option AVAudioFifo * list string :=
  if negb alloc_ok then
    (AVERROR ENOMEM, None, ["Could not allocate FIFO"%string])
  else (0, Some (av_audio_fifo_alloc 1), []).

(** [write_output_file_header] (lines 331-339). *)
Definition write_output_file_header (ret : Z) : Z * list string :=
  let error := ret in
  if error <? 0 then
    (error, ["Could not write output file header (error '%s')"%string])
  else (0, []).

(* ===================================================================== *)
(** ** The pipeline functions (lines 248-703) *)
(* ===================================================================== *)

(** [init_packet] (lines 248-255). *)
Definition init_packet (alloc_ok : bool) (st : state) : Z * state :=
  if negb alloc_ok then
    (AVERROR ENOMEM, fprintf_stderr "Could not allocate packet" st)
  else (0, st).

(** [init_input_frame] (lines 262-269). *)
Definition init_input_frame (alloc_ok : bool) (st : state) : Z * state :=
  if negb alloc_ok then
    (AVERROR ENOMEM, fprintf_stderr "Could not allocate input frame" st)
  else (0, st).

(** [decode_audio_frame] (lines 354-408).  [data_present] and [finished]
    are the values behind the two out-pointers on entry; the result holds
    the error code and the values behind them on return. *)
Definition decode_audio_frame (a : pump_answers)
    (data_present finished : bool) (st : state) : Z * bool * bool * state :=
  let '(error, st) := init_packet (input_packet_alloc_ok a) st in
  if error <? 0 then (error, data_present, finished, st)
  else
  let data_present := false in
  let finished := false in
  (* Read one audio frame from the input file into a temporary packet. *)
  let error := av_read_frame_ret a in
  if (error <? 0) && negb (error =? AVERROR_EOF) then
    (error, data_present, finished,
     fprintf_stderr "Could not read frame (error '%s')" st)
  else
  (* If we are at the end of the file, flush the decoder below. *)
  let finished := if error <? 0 then true else finished in
  let error := avcodec_send_packet_ret a in
  if error <? 0 then
    (error, data_present, finished,
     fprintf_stderr "Could not send packet for decoding (error '%s')" st)
  else
  (* Receive one frame from the decoder. *)
  let error := avcodec_receive_frame_ret a in
  if error =? AVERROR EAGAIN then (0, data_present, finished, st)
  else if error =? AVERROR_EOF then (0, data_present, true, st)
  else if error <? 0 then
    (error, data_present, finished,
     fprintf_stderr "Could not decode frame (error '%s')" st)
  else
    (* Default case: Return decoded data. *)
    (error, true, finished, log (Decoded (input_frame_nb_samples a)) st).

(** [init_converted_samples] (lines 422-436). *)
Definition init_converted_samples (alloc_ret : Z) (st : state) : Z * state :=
  let error := alloc_ret in
  if error <? 0 then
    (error,
     fprintf_stderr "Could not allocate converted input samples (error '%s')"
       st)
  else (0, st).

(** [convert_samples] (lines 450-461). *)
Definition convert_samples (convert_ret : Z) (st : state) : Z * state :=
  let error := convert_ret in
  if error <? 0 then
    (error, fprintf_stderr "Could not convert input samples (error '%s')" st)
  else (0, st).

(** [add_samples_to_fifo] (lines 471-488). *)
Definition add_samples_to_fifo (realloc_ret : Z) (frame_size : Z)
    (st : state) : Z * state :=
  (* Make the FIFO as large as it needs to be to hold both,
     the old and the new samples. *)
  let '(error, af) :=
    av_audio_fifo_realloc realloc_ret (fifo st)
      (int32 (av_audio_fifo_size (fifo st) + frame_size)) in
  if error <? 0 then
    (error, fprintf_stderr "Could not reallocate FIFO" (with_fifo af st))
  else
  (* Store the new samples in the FIFO buffer. *)
  let '(written, af) := av_audio_fifo_write af frame_size in
  if written <? frame_size then
    (AVERROR_EXIT,
     fprintf_stderr "Could not write data to FIFO" (with_fifo af st))
  else (0, with_fifo af st).

(** [read_decode_convert_and_store] (lines 506-556).  [finished] is the
    value behind the out-pointer on entry; the result holds the return
    value and the value behind the pointer on return. *)
Definition read_decode_convert_and_store (a : pump_answers)
    (finished : bool) (st : state) : Z * bool * state :=
  let ret := AVERROR_EXIT in
  let '(r, st) := init_input_frame (input_frame_alloc_ok a) st in
  if nonzero r then (ret, finished, st)
  else
  (* Decode one frame worth of audio samples. *)
  let '(r, data_present, finished, st) :=
    decode_audio_frame a false finished st in
  if nonzero r then (ret, finished, st)
  else
  (* If we are at the end of the file and there are no more samples
     in the decoder which are delayed, we are actually finished.
     This must not be treated as an error. *)
  if finished then (0, finished, st)
  else
  (* If there is decoded data, convert and store it. *)
  if data_present then
    let '(r, st) := init_converted_samples (av_samples_alloc_ret a) st in
    if nonzero r then (ret, finished, st)
    else
    let '(r, st) := convert_samples (swr_convert_ret a) st in
    if nonzero r then (ret, finished, st)
    else
    let '(r, st) :=
      add_samples_to_fifo (av_audio_fifo_realloc_ret a)
        (input_frame_nb_samples a) st in
    if nonzero r then (ret, finished, st)
    else (0, finished, st)
  else (0, finished, st).

(** [init_output_frame] (lines 566-595).  The frame is exactly
    [frame_size] samples large. *)
Definition init_output_frame (a : frame_answers) (frame_size : Z)
    (st : state) : Z * option AVFrame * state :=
  if negb (output_frame_alloc_ok a) then
    (AVERROR_EXIT, None, fprintf_stderr "Could not allocate output frame" st)
  else
  let frame := {| nb_samples := frame_size; frame_pts := 0 |} in
  let error := av_frame_get_buffer_ret a in
  if error <? 0 then
    (error, None,
     fprintf_stderr "Could not allocate output frame samples (error '%s')" st)
  else (0, Some frame, st).

(** [encode_audio_frame] (lines 606-662).  [frame] is [None] for the null
    frame; [data_present] is the value behind the out-pointer on entry. *)
Definition encode_audio_frame (a : encode_answers) (frame : option AVFrame)
    (data_present : bool) (st : state) : Z * bool * state :=
  let '(error, st) := init_packet (output_packet_alloc_ok a) st in
  if error <? 0 then (error, data_present, st)
  else
  (* Set a timestamp based on the sample rate for the container. *)
  let '(frame, st) :=
    match frame with
    | Some f =>
        (Some {| nb_samples := nb_samples f; frame_pts := pts st |},
         with_pts (int64 (pts st + nb_samples f)) st)
    | None => (None, st)
    end in
  let data_present := false in
  (* Send the audio frame to the encoder. *)
  let st := log (SendFrame frame) st in
  let error := avcodec_send_frame_ret a in
  if (error <? 0) && negb (error =? AVERROR_EOF) then
    (error, data_present,
     fprintf_stderr "Could not send packet for encoding (error '%s')" st)
  else
  (* Receive one encoded frame from the encoder. *)
  let error := avcodec_receive_packet_ret a in
  if error =? AVERROR EAGAIN then (0, data_present, st)
  else if error =? AVERROR_EOF then (0, data_present, st)
  else if error <? 0 then
    (error, data_present,
     fprintf_stderr "Could not encode frame (error '%s')" st)
  else
    (* Default case: Return encoded data, and write it to the output. *)
    let data_present := true in
    let st := log WritePacket st in
    let error := av_write_frame_ret a in
    if error <? 0 then
      (error, data_present,
       fprintf_stderr "Could not write frame (error '%s')" st)
    else (error, data_present, st).

(** [load_encode_and_write] (lines 672-703). *)
Definition load_encode_and_write (fa : frame_answers) (ea : encode_answers)
    (outccx : AVCodecContext) (st : state) : Z * state :=
  (* Use the maximum number of possible samples per frame.
     If there is less than the maximum possible frame size in the FIFO
     buffer use this number. *)
  let frame_size :=
    FFMIN (av_audio_fifo_size (fifo st)) (frame_size outccx) in
  let '(r, output_frame, st) := init_output_frame fa frame_size st in
  if nonzero r then (AVERROR_EXIT, st)
  else
  (* Read as many samples from the FIFO buffer as required to fill the
     frame. *)
  let '(read, af) := av_audio_fifo_read (fifo st) frame_size in
  let st := with_fifo af st in
  if read <? frame_size then
    (AVERROR_EXIT, fprintf_stderr "Could not read data from FIFO" st)
  else
  (* Encode one frame worth of audio samples. *)
  let '(r, _, st) := encode_audio_frame ea output_frame false st in
  if nonzero r then (AVERROR_EXIT, st)
  else (0, st).

(** Whether a call of [load_encode_and_write] comes to its call of
    [encode_audio_frame] (line 696): it does not when [init_output_frame]
    fails (line 684) or the FIFO hands out fewer samples than asked for
    (line 689). *)
Definition reaches_encode_audio_frame (fa : frame_answers)
    (outccx : AVCodecContext) (st : state) : bool :=
  let frame_size :=
    FFMIN (av_audio_fifo_size (fifo st)) (frame_size outccx) in
  output_frame_alloc_ok fa
  && negb (av_frame_get_buffer_ret fa <? 0)
  && negb (fst (av_audio_fifo_read (fifo st) frame_size) <? frame_size).

(** [write_output_file_trailer] (lines 710-719). *)
Definition write_output_file_trailer (ret : Z) (st : state) : Z * state :=
  let st := log WriteTrailer st in
  let error := ret in
  if error <? 0 then
    (error,
     fprintf_stderr "Could not write output file trailer (error '%s')" st)
  else (0, st).

(* ===================================================================== *)
(** ** The main loop (lines 757-805) *)
(* ===================================================================== *)

(** Where the control of [main] stands between two steps of its loop:
    - [FILLING]: at the test of the inner loop of line 767;
    - [DRAINING]: at the test of the inner loop of line 782;
    - [FLUSHING]: at the top of the body of the [do] loop of line 798;
    - [DONE]: past the [break] of line 802;
    - [FAILED]: at a [goto cleanup] taken inside the loop. *)
Inductive phase := FILLING | DRAINING | FLUSHING | DONE | FAILED.

(** The variables of [main] that live across the steps of the loop, and
    how many calls of [read_decode_convert_and_store], of
    [load_encode_and_write] and of [encode_audio_frame] have been made:
    the environment answers each call by its number. *)
Record main_state := {
  world : state;
  at_phase : phase;
  finished : bool;
  outlooptimes : Z;
  pump_calls : nat;
  drain_calls : nat;
  encode_calls : nat
}.

Definition goto (p : phase) (s : main_state) : main_state :=
  {| world := world s; at_phase := p; finished := finished s;
     outlooptimes := outlooptimes s; pump_calls := pump_calls s;
     drain_calls := drain_calls s; encode_calls := encode_calls s |}.

(** The test of the loop of line 767. *)
Definition fill_condition (outccx : AVCodecContext) (s : main_state) : bool :=
  av_audio_fifo_size (fifo (world s)) <? frame_size outccx.

(** The test of the loop of line 782. *)
Definition drain_condition (outccx : AVCodecContext) (s : main_state)
    : bool :=
  (av_audio_fifo_size (fifo (world s)) >=? frame_size outccx)
  || (finished s && (av_audio_fifo_size (fifo (world s)) >? 0)).

(** One call of [read_decode_convert_and_store] from line 770. *)
Definition call_pump (env : environment) (s : main_state)
    : Z * main_state :=
  let '(r, fin, w) :=
    read_decode_convert_and_store (pump_env env (pump_calls s))
      (finished s) (world s) in
  (r, {| world := w; at_phase := at_phase s; finished := fin;
         outlooptimes := outlooptimes s; pump_calls := S (pump_calls s);
         drain_calls := drain_calls s; encode_calls := encode_calls s |}).

(** One call of [load_encode_and_write] from line 789, which calls
    [encode_audio_frame] once if it comes that far. *)
Definition call_drain (env : environment) (outccx : AVCodecContext)
    (s : main_state) : Z * main_state :=
  let '(r, w) :=
    load_encode_and_write (frame_env env (drain_calls s))
      (encode_env env (encode_calls s)) outccx (world s) in
  (r, {| world := w; at_phase := at_phase s; finished := finished s;
         outlooptimes := outlooptimes s; pump_calls := pump_calls s;
         drain_calls := S (drain_calls s);
         encode_calls :=
           if reaches_encode_audio_frame (frame_env env (drain_calls s))
                outccx (world s)
           then S (encode_calls s)
           else encode_calls s |}).

(** One call of [encode_audio_frame] with the null frame from line 799. *)
Definition call_flush (env : environment) (s : main_state)
    : Z * bool * main_state :=
  let '(r, data_written, w) :=
    encode_audio_frame (encode_env env (encode_calls s)) None false
      (world s) in
  (r, data_written,
   {| world := w; at_phase := at_phase s; finished := finished s;
      outlooptimes := outlooptimes s; pump_calls := pump_calls s;
      drain_calls := drain_calls s; encode_calls := S (encode_calls s) |}).

(** The end of one round of the outer loop that goes on (lines 804, 760):
    [outlooptimes++], and [finished] is 0 again. *)
Definition next_round (s : main_state) : main_state :=
  {| world := world s; at_phase := FILLING; finished := false;
     outlooptimes := uint32 (outlooptimes s + 1);
     pump_calls := pump_calls s; drain_calls := drain_calls s;
     encode_calls := encode_calls s |}.

(** One step of the loop of [main]: one test of a loop condition and, when
    it holds, one run of that loop's body. *)
Definition main_step (env : environment) (outccx : AVCodecContext)
    (s : main_state) : main_state :=
  match at_phase s with
  | FILLING =>
      if fill_condition outccx s then
        let '(r, s) := call_pump env s in
        if nonzero r then goto FAILED s
        else if finished s then goto DRAINING s
        else s
      else goto DRAINING s
  | DRAINING =>
      if drain_condition outccx s then
        let '(r, s) := call_drain env outccx s in
        if nonzero r then goto FAILED s else s
      else if finished s then goto FLUSHING s
      else next_round s
  | FLUSHING =>
      let '(r, data_written, s) := call_flush env s in
      if nonzero r then goto FAILED s
      else if data_written then s
      else goto DONE s
  | DONE => s
  | FAILED => s
  end.

(** [n] steps of the loop. *)
Fixpoint main_loop (env : environment) (outccx : AVCodecContext) (n : nat)
    (s : main_state) : main_state :=
  match n with
  | O => s
  | S n => main_loop env outccx n (main_step env outccx s)
  end.

(** The state in which [main] enters its loop: an empty FIFO with room for
    one sample, [pts] at 0, nothing printed. *)
Definition main_start (af : AVAudioFifo) : main_state :=
  {| world := {| fifo := af; pts := 0; history := [] |};
     at_phase := FILLING; finished := false; outlooptimes := 0;
     pump_calls := O; drain_calls := O; encode_calls := O |}.

(** How a run of [main] ends: in [exit(1)], in the [abort] of a failed
    assertion, or with a return value; [Unfinished] is a run whose loop
    takes more steps than it was given. *)
Inductive outcome :=
| Exit (status : Z) (h : list event)
| Abort
| Return (ret : Z) (h : list event)
| Unfinished (s : main_state).

(** The rest of [main] once its loop is over (lines 806-828). *)
Definition main_end (env : environment) (s : main_state) : outcome :=
  let ret := AVERROR_EXIT in
  match at_phase s with
  | DONE =>
      let w :=
        log (Stdout "outer loop, how many times? %u" (outlooptimes s))
          (world s) in
      let '(r, w) := write_output_file_trailer (av_write_trailer_ret env) w in
      if nonzero r then Return ret (history w)
      else Return 0 (history w)
  | FAILED => Return ret (history (world s))
  | _ => Unfinished s
  end.

(** [main] (lines 721-829), its loop running for at most [fuel] steps. *)
Definition main (env : environment) (fuel : nat) (argc : Z) : outcome :=
  let ret := AVERROR_EXIT in
  if negb (argc =? 3) then
    Exit 1 [Stderr "Usage: %s <input file> <output file>"]
  else
  match open_input_file (input_env env) with
  | (_, None, h) => Return ret (map Stderr h)
  | (r, Some inpccx, h) =>
  if nonzero r then Return ret (map Stderr h)
  else
  match open_output_file (output_env env) inpccx with
  | (_, None, h) => Return ret (map Stderr h)
  | (r, Some outccx, h) =>
  if nonzero r then Return ret (map Stderr h)
  else
  match init_resampler (swr_alloc_set_opts2_ret env) (swr_init_ret env)
          inpccx outccx with
  | AssertionFailed => Abort
  | Passed (r, h) =>
  if nonzero r then Return ret (map Stderr h)
  else
  match init_fifo (av_audio_fifo_alloc_ok env) with
  | (_, None, h) => Return ret (map Stderr h)
  | (r, Some af, h) =>
  if nonzero r then Return ret (map Stderr h)
  else
  let '(r, h) := write_output_file_header (avformat_write_header_ret env) in
  if nonzero r then Return ret (map Stderr h)
  else main_end env (main_loop env outccx fuel (main_start af))
  end end end end.

End Program.

(* ===================================================================== *)
(** ** Memory (the [cleanup] code) *)
(* ===================================================================== *)

(** What the program takes from the libraries and has to give back, each
    with the call that hands it out and the call that takes it back.  The
    stream and the copy of the file name that [open_output_file] makes
    belong to the format context and go with it. *)
Inductive resource :=
| InputFormatContext   (* avformat_open_input, avformat_close_input *)
| DecoderContext       (* avcodec_alloc_context3, avcodec_free_context *)
| OutputIOContext      (* avio_open, avio_closep *)
| OutputFormatContext  (* avformat_alloc_context, avformat_free_context *)
| EncoderContext       (* avcodec_alloc_context3, avcodec_free_context *)
| ResampleContext      (* swr_alloc_set_opts2, swr_free *)
| SampleFifo           (* av_audio_fifo_alloc, av_audio_fifo_free *)
| InputFrame           (* av_frame_alloc, av_frame_free *)
| InputPacket          (* av_packet_alloc, av_packet_free *)
| ConvertedSamples     (* av_samples_alloc_array_and_samples, av_freep *)
| OutputFrame          (* av_frame_alloc, av_frame_free *)
| OutputPacket.        (* av_packet_alloc, av_packet_free *)

(** What a pointer variable holds when it is handed to a call that frees:
    the null pointer, a live allocation, or -- for a local variable whose
    declaration, with its initialiser, the control has jumped over --
    nothing the program has put there. *)
Inductive pointer := Null | Live | Unset.

(** The calls that take and give back memory: an allocating call that has
    succeeded, and a freeing call with what the variable it is given
    holds. *)
Inductive mem_event :=
| Alloc (r : resource)
| Free (r : resource) (p : pointer).

Definition resource_eq_dec (r1 r2 : resource) : {r1 = r2} + {r1 <> r2}.
Proof. decide equality. Defined.

Section Memory.

Context {codes : av_error_codes}.

(** [decode_audio_frame] (lines 354-408): once the packet is allocated,
    every path ends in the label [cleanup] (line 405), which frees it. *)
Definition decode_audio_frame_memory (a : pump_answers) : list mem_event :=
  if negb (input_packet_alloc_ok a) then []
  else [Alloc InputPacket; Free InputPacket Live].

(** [read_decode_convert_and_store] (lines 506-556).  The label [cleanup]
    (line 549) tests and frees [conv_isamps] and frees [input_frame].
    [input_frame] is declared with the initialiser [NULL] at the top;
    [conv_isamps] is declared, with the initialiser [NULL], at line 530
    only, and the [goto cleanup] of lines 514, 519 and 526 jump over
    it. *)
Definition read_decode_convert_and_store_memory (a : pump_answers)
    (finished : bool) (st : state) : list mem_event :=
  let cleanup (conv_isamps input_frame : pointer) :=
    [Free ConvertedSamples conv_isamps; Free InputFrame input_frame] in
  let '(r, st) := init_input_frame (input_frame_alloc_ok a) st in
  if nonzero r then cleanup Unset Null
  else
  Alloc InputFrame ::
  decode_audio_frame_memory a ++
  let '(r, data_present, finished, st) :=
    decode_audio_frame a false finished st in
  if nonzero r then cleanup Unset Live
  else
  if finished then cleanup Unset Live
  else
  (* uint8_t **conv_isamps = NULL; *)
  if data_present then
    let '(r, st) := init_converted_samples (av_samples_alloc_ret a) st in
    if nonzero r then cleanup Null Live
    else
    (* whether or not the conversion and the FIFO take the samples *)
    Alloc ConvertedSamples :: cleanup Live Live
  else cleanup Null Live.

(** [encode_audio_frame] (lines 606-662): once the packet is allocated,
    every path ends in the label [cleanup] (line 659), which frees it. *)
Definition encode_audio_frame_memory (a : encode_answers) : list mem_event :=
  if negb (output_packet_alloc_ok a) then []
  else [Alloc OutputPacket; Free OutputPacket Live].

(** [load_encode_and_write] (lines 672-703), with the frame that
    [init_output_frame] (lines 566-595) allocates and, when it cannot
    allocate the samples, frees again. *)
Definition load_encode_and_write_memory (fa : frame_answers)
    (ea : encode_answers) (outccx : AVCodecContext) (st : state)
    : list mem_event :=
  let frame_size :=
    FFMIN (av_audio_fifo_size (fifo st)) (frame_size outccx) in
  if negb (output_frame_alloc_ok fa) then []
  else
  Alloc OutputFrame ::
  if av_frame_get_buffer_ret fa <? 0 then [Free OutputFrame Live]
  else
  let '(read, _) := av_audio_fifo_read (fifo st) frame_size in
  if read <? frame_size then [Free OutputFrame Live]
  else
  (* whether or not the encoder takes the frame *)
  encode_audio_frame_memory ea ++ [Free OutputFrame Live].

(** [open_input_file] (lines 62-135): every path that fails closes the
    input and frees the decoder context, as far as they are there. *)
Definition open_input_file_memory (a : input_answers) : list mem_event :=
  if avformat_open_input_ret a <? 0 then []
  else
  Alloc InputFormatContext ::
  if avformat_find_stream_info_ret a <? 0 then
    [Free InputFormatContext Live]
  else
  if negb (Nat.eqb (List.length (streams a)) 1) then
    [Free InputFormatContext Live]
  else
  if negb (decoder_found a) then [Free InputFormatContext Live]
  else
  if negb (decoder_context_alloc_ok a) then [Free InputFormatContext Live]
  else
  Alloc DecoderContext ::
  if avcodec_parameters_to_context_ret a <? 0 then
    [Free InputFormatContext Live; Free DecoderContext Live]
  else
  if decoder_open2_ret a <? 0 then
    [Free DecoderContext Live; Free InputFormatContext Live]
  else [].

(** [open_output_file] (lines 147-241).  The label [cleanup] (line 235)
    frees the encoder context, closes the output file and frees the format
    context; the [return] of line 164 does not go through it. *)
Definition open_output_file_memory (a : output_answers) : list mem_event :=
  let cleanup (avctx : pointer) :=
    [Free EncoderContext avctx; Free OutputIOContext Live;
     Free OutputFormatContext Live] in
  if avio_open_ret a <? 0 then []
  else
  Alloc OutputIOContext ::
  if negb (avformat_alloc_context_ok a) then []
  else
  Alloc OutputFormatContext ::
  if negb (av_guess_format_ok a) then cleanup Null
  else
  if negb (av_strdup_ok a) then cleanup Null
  else
  if negb (encoder_found a) then cleanup Null
  else
  if negb (avformat_new_stream_ok a) then cleanup Null
  else
  if negb (encoder_context_alloc_ok a) then cleanup Null
  else
  Alloc EncoderContext ::
  if encoder_open2_ret a <? 0 then cleanup Live
  else
  if avcodec_parameters_from_context_ret a <? 0 then cleanup Live
  else [].

(** [init_resampler] (lines 280-308); after the failed assertion the
    process is gone. *)
Definition init_resampler_memory (alloc_ret init_ret : Z)
    (inpccx outccx : AVCodecContext) : list mem_event :=
  if alloc_ret <? 0 then []
  else
  Alloc ResampleContext ::
  if negb (sample_rate outccx =? sample_rate inpccx) then []
  else
  if init_ret <? 0 then [Free ResampleContext Live]
  else [].

(** [init_fifo] (lines 316-324). *)
Definition init_fifo_memory (alloc_ok : bool) : list mem_event :=
  if negb alloc_ok then [] else [Alloc SampleFifo].

(** A call that frees, made only when the variable is not null. *)
Definition guarded (r : resource) (p : pointer) : list mem_event :=
  match p with
  | Null => []
  | _ => [Free r p]
  end.

(** The label [cleanup] of [main] (lines 813-828), with what the six
    variables of [main] hold; [avio_closep] is given the [pb] of the
    format context. *)
Definition main_cleanup (fifo_var resccx outccx outfcx inpccx inpfcx : pointer)
    : list mem_event :=
  guarded SampleFifo fifo_var
  ++ [Free ResampleContext resccx]
  ++ guarded EncoderContext outccx
  ++ match outfcx with
     | Null => []
     | _ => [Free OutputIOContext outfcx; Free OutputFormatContext outfcx]
     end
  ++ guarded DecoderContext inpccx
  ++ guarded InputFormatContext inpfcx.

(** What [main] has allocated when it enters its loop, the latest
    first. *)
Definition set_up_resources : list resource :=
  [SampleFifo; ResampleContext; EncoderContext; OutputFormatContext;
   OutputIOContext; DecoderContext; InputFormatContext].

(** One step of the loop of [main], and [n] steps. *)
Definition main_step_memory (env : environment) (outccx : AVCodecContext)
    (s : main_state) : list mem_event :=
  match at_phase s with
  | FILLING =>
      if fill_condition outccx s then
        read_decode_convert_and_store_memory (pump_env env (pump_calls s))
          (finished s) (world s)
      else []
  | DRAINING =>
      if drain_condition outccx s then
        load_encode_and_write_memory (frame_env env (drain_calls s))
          (encode_env env (encode_calls s)) outccx (world s)
      else []
  | FLUSHING => encode_audio_frame_memory (encode_env env (encode_calls s))
  | DONE => []
  | FAILED => []
  end.

Fixpoint main_loop_memory (env : environment) (outccx : AVCodecContext)
    (n : nat) (s : main_state) : list mem_event :=
  match n with
  | O => []
  | S n =>
      main_step_memory env outccx s
      ++ main_loop_memory env outccx n (main_step env outccx s)
  end.

(** [main] (lines 721-829).  Its six pointer variables start as null
    pointers; a function that fails leaves the variable it was given null
    ([avformat_close_input] and [swr_free] set it to null, and
    [open_output_file] does so itself at line 239), and a function that
    succeeds leaves it live.  [exit] and [abort] do not come to the
    label [cleanup], nor does a run whose loop is not over. *)
Definition main_memory (env : environment) (fuel : nat) (argc : Z)
    : list mem_event :=
  if negb (argc =? 3) then []
  else
  let t := open_input_file_memory (input_env env) in
  match open_input_file (input_env env) with
  | (_, None, _) => t ++ main_cleanup Null Null Null Null Null Null
  | (r, Some inpccx, _) =>
  if nonzero r then t ++ main_cleanup Null Null Null Null Live Live
  else
  let t := t ++ open_output_file_memory (output_env env) in
  match open_output_file (output_env env) inpccx with
  | (_, None, _) => t ++ main_cleanup Null Null Null Null Live Live
  | (r, Some outccx, _) =>
  if nonzero r then t ++ main_cleanup Null Null Live Live Live Live
  else
  let t :=
    t ++ init_resampler_memory (swr_alloc_set_opts2_ret env)
           (swr_init_ret env) inpccx outccx in
  match init_resampler (swr_alloc_set_opts2_ret env) (swr_init_ret env)
          inpccx outccx with
  | AssertionFailed => t
  | Passed (r, _) =>
  if nonzero r then t ++ main_cleanup Null Null Live Live Live Live
  else
  let t := t ++ init_fifo_memory (av_audio_fifo_alloc_ok env) in
  match init_fifo (av_audio_fifo_alloc_ok env) with
  | (_, None, _) => t ++ main_cleanup Null Live Live Live Live Live
  | (r, Some af, _) =>
  if nonzero r then t ++ main_cleanup Live Live Live Live Live Live
  else
  let '(r, _) := write_output_file_header (avformat_write_header_ret env) in
  if nonzero r then t ++ main_cleanup Live Live Live Live Live Live
  else
  let t := t ++ main_loop_memory env outccx fuel (main_start af) in
  match at_phase (main_loop env outccx fuel (main_start af)) with
  | DONE | FAILED => t ++ main_cleanup Live Live Live Live Live Live
  | _ => t
  end
  end end end end.

End Memory.

(** One allocation taken out of those that are live. *)
Fixpoint take_out (r : resource) (live : list resource) : list resource :=
  match live with
  | [] => []
  | r' :: live =>
      if resource_eq_dec r r' then live else r' :: take_out r live
  end.

(** The allocations that are live after a sequence of calls that starts
    with [live]; [None] when a call frees what is not live: an allocation
    that is not there, or a variable that was never set.  Freeing the null
    pointer does nothing. *)
Fixpoint live_after (tr : list mem_event) (live : list resource)
    : option (list resource) :=
  match tr with
  | [] => Some live
  | Alloc r :: tr => live_after tr (r :: live)
  | Free r Live :: tr =>
      if in_dec resource_eq_dec r live then live_after tr (take_out r live)
      else None
  | Free _ Null :: tr => live_after tr live
  | Free _ Unset :: _ => None
  end.

(** Whether a freeing call is given a variable that was never set. *)
Definition frees_unset (tr : list mem_event) : bool :=
  existsb (fun e => match e with Free _ Unset => true | _ => false end) tr.

(** A sequence of calls with the frees of variables that were never set
    left out. *)
Definition without_unset_frees (tr : list mem_event) : list mem_event :=
  filter (fun e => match e with Free _ Unset => false | _ => true end) tr.

(* ===================================================================== *)
(** ** Reading a history *)
(* ===================================================================== *)

(** The sample counts of the frames the decoder handed out. *)
Fixpoint decoded_frames (h : list event) : list Z :=
  match h with
  | [] => []
  | Decoded n :: h => n :: decoded_frames h
  | _ :: h => decoded_frames h
  end.

(** The frames handed to the encoder, the null frame left out. *)
Fixpoint sent_frames (h : list event) : list AVFrame :=
  match h with
  | [] => []
  | SendFrame (Some f) :: h => f :: sent_frames h
  | _ :: h => sent_frames h
  end.

(** How often the null frame was handed to the encoder. *)
Fixpoint null_sends (h : list event) : nat :=
  match h with
  | [] => O
  | SendFrame None :: h => S (null_sends h)
  | _ :: h => null_sends h
  end.

(** The lines printed on [stderr]. *)
Fixpoint stderr_lines (h : list event) : list string :=
  match h with
  | [] => []
  | Stderr msg :: h => msg :: stderr_lines h
  | _ :: h => stderr_lines h
  end.

(** The calls of [avcodec_send_frame] in their order, each with what it
    was given: a frame or the null frame. *)
Fixpoint sends (h : list event) : list (option AVFrame) :=
  match h with
  | [] => []
  | SendFrame f :: h => f :: sends h
  | _ :: h => sends h
  end.

(** How many packets were given to the muxer. *)
Fixpoint packets_written (h : list event) : nat :=
  match h with
  | [] => O
  | WritePacket :: h => S (packets_written h)
  | _ :: h => packets_written h
  end.

(** How often the trailer was written. *)
Fixpoint trailers_written (h : list event) : nat :=
  match h with
  | [] => O
  | WriteTrailer :: h => S (trailers_written h)
  | _ :: h => trailers_written h
  end.

(** How many calls of [avcodec_send_frame] were made, with a frame or with
    the null frame. *)
Definition frames_pushed (h : list event) : nat :=
  (List.length (sent_frames h) + null_sends h)%nat.

(** What a decode step may leave behind: decoded frames and lines on
    [stderr]. *)
Definition decode_event (e : event) : bool :=
  match e with
  | Decoded _ | Stderr _ => true
  | _ => false
  end.

(** What a call of the encoder may leave behind: frames handed over,
    packets written and lines on [stderr]. *)
Definition encode_event (e : event) : bool :=
  match e with
  | SendFrame _ | WritePacket | Stderr _ => true
  | _ => false
  end.

(** How many of the streams of an input are audio streams. *)
Definition is_audio (s : AVStream) : bool :=
  match codec_type s with
  | AVMEDIA_TYPE_AUDIO => true
  | _ => false
  end.

Definition audio_streams (a : input_answers) : nat :=
  List.length (filter is_audio (streams a)).

(** The line [load_encode_and_write] prints on a short read (line 690). *)
Definition short_read_line : string := "Could not read data from FIFO".

Definition sum (l : list Z) : Z := fold_right Z.add 0 l.

(** The samples the decoder produced and the samples the encoder was
    given, over a history. *)
Definition decoded_samples (h : list event) : Z := sum (decoded_frames h).
Definition sent_samples (h : list event) : Z :=
  sum (map nb_samples (sent_frames h)).

(** The time stamps a counter that starts at [start] gives to frames of
    the sample counts [sizes]: each frame gets the counter as it stands,
    and the counter then moves on by the frame's sample count. *)
Fixpoint running_pts (start : Z) (sizes : list Z) : list Z :=
  match sizes with
  | [] => []
  | n :: sizes => start :: running_pts (start + n) sizes
  end.

(** A list of integers that never goes down. *)
Fixpoint non_decreasing (l : list Z) : Prop :=
  match l with
  | [] => True
  | x :: l' =>
      match l' with
      | [] => True
      | y :: _ => x <= y /\ non_decreasing l'
      end
  end.

(** The buffer holds a level that is not negative and not above its
    capacity. *)
Definition fifo_ok (af : AVAudioFifo) : Prop :=
  0 <= fifo_nb_samples af <= fifo_allocated_samples af.

(** The operations on the sample buffer, as the program performs them:
    an append is a call of [add_samples_to_fifo] (with the answer of the
    allocator), a consume is the [av_audio_fifo_read] of
    [load_encode_and_write]. *)
Inductive fifo_op :=
| Append (count : Z) (realloc_ret : Z)
| Consume (count : Z).

Section Observing.

Context {codes : av_error_codes}.

(** One operation on the buffer of [st]: the state after it, or [None]
    when the program takes the fatal branch of that operation. *)
Definition fifo_step (op : fifo_op) (st : state) : option state :=
  match op with
  | Append count realloc_ret =>
      let '(r, st') := add_samples_to_fifo realloc_ret count st in
      if nonzero r then None else Some st'
  | Consume count =>
      let '(read, af) := av_audio_fifo_read (fifo st) count in
      if read <? count then None else Some (with_fifo af st)
  end.

(** The levels the buffer goes through under a sequence of operations,
    up to the first fatal branch. *)
Fixpoint fifo_levels (ops : list fifo_op) (st : state) : list Z :=
  match ops with
  | [] => []
  | op :: ops =>
      match fifo_step op st with
      | None => []
      | Some st' => av_audio_fifo_size (fifo st') :: fifo_levels ops st'
      end
  end.

(** The levels the specification gives: an append adds its count to the
    level before, a consume takes its count away. *)
Fixpoint expected_levels (ops : list fifo_op) (level : Z) : list Z :=
  match ops with
  | [] => []
  | Append count _ :: ops =>
      (level + count) :: expected_levels ops (level + count)
  | Consume count :: ops =>
      (level - count) :: expected_levels ops (level - count)
  end.

(** A sequence of operations respects the buffer from a level when its
    counts are sample counts (not negative) and every consume asks for no
    more than the level it finds. *)
Fixpoint respects (ops : list fifo_op) (level : Z) : Prop :=
  match ops with
  | [] => True
  | Append count _ :: ops => 0 <= count /\ respects ops (level + count)
  | Consume count :: ops =>
      0 <= count <= level /\ respects ops (level - count)
  end.

(** Every append of a sequence of operations gets its storage: the
    allocator succeeds and the level asked for is in the range of [int]. *)
Fixpoint allocations_succeed (ops : list fifo_op) (level : Z) : Prop :=
  match ops with
  | [] => True
  | Append count realloc_ret :: ops =>
      0 <= realloc_ret /\ level + count <= INT_MAX
      /\ allocations_succeed ops (level + count)
  | Consume count :: ops => allocations_succeed ops (level - count)
  end.

(** A sequence of calls of [encode_audio_frame], each with the answers of
    the libraries and the frame it is given; the return codes are not
    looked at. *)
Fixpoint encode_all (calls : list (encode_answers * option AVFrame))
    (st : state) : state :=
  match calls with
  | [] => st
  | (a, frame) :: calls =>
      let '(_, _, st') := encode_audio_frame a frame false st in
      encode_all calls st'
  end.

(** The sample counts of the frames of a sequence of calls, the null frame
    counting for nothing. *)
Definition call_samples (call : encode_answers * option AVFrame) : Z :=
  match snd call with
  | Some f => nb_samples f
  | None => 0
  end.

(** The sample counts of the frames a sequence of calls hands to the
    encoder, in the order of the calls: [encode_audio_frame] stamps the
    frame it is given and hands it on (lines 617 to 625) once its packet
    is allocated (line 612); the null frame is no frame. *)
Definition pushed_samples (calls : list (encode_answers * option AVFrame))
    : list Z :=
  flat_map
    (fun call =>
       match snd call with
       | Some f => if output_packet_alloc_ok (fst call)
                   then [nb_samples f] else []
       | None => []
       end)
    calls.

(** A call of [encode_audio_frame] yields no packet and no error: the
    packet is allocated, the encoder takes the frame (or says it is at its
    end) and then has nothing to hand out. *)
Definition yields_no_packet (a : encode_answers) : Prop :=
  output_packet_alloc_ok a = true
  /\ (0 <= avcodec_send_frame_ret a \/ avcodec_send_frame_ret a = AVERROR_EOF)
  /\ (avcodec_receive_packet_ret a = AVERROR EAGAIN
      \/ avcodec_receive_packet_ret a = AVERROR_EOF).

(** A call of [encode_audio_frame] yields a packet that is written. *)
Definition yields_packet (a : encode_answers) : Prop :=
  output_packet_alloc_ok a = true
  /\ (0 <= avcodec_send_frame_ret a \/ avcodec_send_frame_ret a = AVERROR_EOF)
  /\ avcodec_receive_packet_ret a = 0
  /\ av_write_frame_ret a = 0.

(** A library call of one decode step reports a failure: an allocation
    fails, the demuxer fails other than by the end of the file, the decoder
    rejects the packet or fails to decode, the converter fails, or the FIFO
    cannot be grown or does not take all the samples. *)
Definition pump_failure (a : pump_answers) (st : state) : Prop :=
  input_frame_alloc_ok a = false
  \/ input_packet_alloc_ok a = false
  \/ (av_read_frame_ret a < 0 /\ av_read_frame_ret a <> AVERROR_EOF)
  \/ avcodec_send_packet_ret a < 0
  \/ (avcodec_receive_frame_ret a <> 0
      /\ avcodec_receive_frame_ret a <> AVERROR EAGAIN
      /\ avcodec_receive_frame_ret a <> AVERROR_EOF)
  \/ av_samples_alloc_ret a < 0
  \/ swr_convert_ret a < 0
  \/ av_audio_fifo_realloc_ret a < 0
  \/ fst (av_audio_fifo_write
            (snd (av_audio_fifo_realloc (av_audio_fifo_realloc_ret a)
                    (fifo st)
                    (int32 (av_audio_fifo_size (fifo st)
                            + input_frame_nb_samples a))))
            (input_frame_nb_samples a))
     < input_frame_nb_samples a.

(** A decode step in which no library call fails: the allocations
    succeed, the demuxer has a packet or is at the end of the file, the
    decoder takes the packet and then hands out a frame, asks for more
    input or reports the end of the stream, and the allocation of the
    converted samples, the converter and the growing of the FIFO
    succeed. *)
Definition pump_succeeds (a : pump_answers) : Prop :=
  input_frame_alloc_ok a = true
  /\ input_packet_alloc_ok a = true
  /\ (0 <= av_read_frame_ret a \/ av_read_frame_ret a = AVERROR_EOF)
  /\ 0 <= avcodec_send_packet_ret a
  /\ (avcodec_receive_frame_ret a = 0
      \/ avcodec_receive_frame_ret a = AVERROR EAGAIN
      \/ avcodec_receive_frame_ret a = AVERROR_EOF)
  /\ 0 <= av_samples_alloc_ret a
  /\ 0 <= swr_convert_ret a
  /\ 0 <= av_audio_fifo_realloc_ret a.

(** The output frame and its buffer are allocated. *)
Definition frame_succeeds (a : frame_answers) : Prop :=
  output_frame_alloc_ok a = true /\ 0 <= av_frame_get_buffer_ret a.

(** A call of [encode_audio_frame] in which no library call fails. *)
Definition encode_succeeds (a : encode_answers) : Prop :=
  yields_packet a \/ yields_no_packet a.

(** Every library call of [open_input_file] succeeds, and the input holds
    one stream. *)
Definition input_opens (a : input_answers) : Prop :=
  0 <= avformat_open_input_ret a
  /\ 0 <= avformat_find_stream_info_ret a
  /\ List.length (streams a) = 1%nat
  /\ decoder_found a = true
  /\ decoder_context_alloc_ok a = true
  /\ 0 <= avcodec_parameters_to_context_ret a
  /\ 0 <= decoder_open2_ret a.

(** Every library call of [open_output_file] succeeds. *)
Definition output_opens (a : output_answers) : Prop :=
  0 <= avio_open_ret a
  /\ avformat_alloc_context_ok a = true
  /\ av_guess_format_ok a = true
  /\ av_strdup_ok a = true
  /\ encoder_found a = true
  /\ avformat_new_stream_ok a = true
  /\ encoder_context_alloc_ok a = true
  /\ 0 <= encoder_open2_ret a
  /\ 0 <= avcodec_parameters_from_context_ret a.

(** No library call of a whole run fails, and the decoder's frames have
    between 0 and [M] samples. *)
Definition nothing_fails (env : environment) (M : Z) : Prop :=
  input_opens (input_env env)
  /\ output_opens (output_env env)
  /\ 0 <= swr_alloc_set_opts2_ret env
  /\ 0 <= swr_init_ret env
  /\ av_audio_fifo_alloc_ok env = true
  /\ 0 <= avformat_write_header_ret env
  /\ (forall i, pump_succeeds (pump_env env i)
                /\ 0 <= input_frame_nb_samples (pump_env env i) <= M)
  /\ (forall k, frame_succeeds (frame_env env k))
  /\ (forall k, encode_succeeds (encode_env env k))
  /\ 0 <= av_write_trailer_ret env.

(** The loop is over after some number of steps. *)
Definition ends (env : environment) (outccx : AVCodecContext)
    (s : main_state) : Prop :=
  exists m,
    at_phase (main_loop env outccx m s) = DONE
    \/ at_phase (main_loop env outccx m s) = FAILED.

(** The decoder hands out no frame in a decode step in which the demuxer
    reports the end of the file. *)
Definition no_delayed_frame (a : pump_answers) : Prop :=
  av_read_frame_ret a = AVERROR_EOF -> avcodec_receive_frame_ret a <> 0.

(** The states the loop of [main] goes through. *)
Definition reachable (env : environment) (outccx : AVCodecContext)
    (s : main_state) : Prop :=
  exists n, s = main_loop env outccx n (main_start (av_audio_fifo_alloc 1)).

(** The level of the buffer in a state of the loop. *)
Definition level (s : main_state) : Z := av_audio_fifo_size (fifo (world s)).

(** What holds of every state the loop goes through: the buffer is well
    formed; it holds samples only if the encoder's frame size is positive;
    once [finished] is set the loop is past [FILLING], and in [DRAINING] the
    buffer then holds less than one full frame; in [FLUSHING] and [DONE]
    the input is finished and the buffer is empty. *)
Definition loop_invariant (outccx : AVCodecContext) (s : main_state)
    : Prop :=
  fifo_ok (fifo (world s))
  /\ (0 < level s -> 0 < frame_size outccx)
  /\ (finished s = true -> at_phase s <> FILLING)
  /\ (finished s = true -> at_phase s = DRAINING ->
      level s < frame_size outccx)
  /\ (at_phase s = FLUSHING \/ at_phase s = DONE ->
      finished s = true /\ level s = 0).

End Observing.

(* ===================================================================== *)
(** ** Some environments *)
(* ===================================================================== *)

Section Environments.

#[local] Existing Instance linux_error_codes.

(** A decode step in which the demuxer has a packet and the decoder hands
    out a frame of [n] samples. *)
Definition frame_of (n : Z) : pump_answers :=
  {| input_frame_alloc_ok := true; input_packet_alloc_ok := true;
     av_read_frame_ret := 0; avcodec_send_packet_ret := 0;
     avcodec_receive_frame_ret := 0; input_frame_nb_samples := n;
     av_samples_alloc_ret := 0; swr_convert_ret := n;
     av_audio_fifo_realloc_ret := 0 |}.

(** A decode step in which the decoder takes the packet and asks for more
    input. *)
Definition needs_more_input : pump_answers :=
  {| input_frame_alloc_ok := true; input_packet_alloc_ok := true;
     av_read_frame_ret := 0; avcodec_send_packet_ret := 0;
     avcodec_receive_frame_ret := AVERROR EAGAIN;
     input_frame_nb_samples := 0;
     av_samples_alloc_ret := 0; swr_convert_ret := 0;
     av_audio_fifo_realloc_ret := 0 |}.

(** A decode step at the end of the file, the decoder having nothing left. *)
Definition end_of_file : pump_answers :=
  {| input_frame_alloc_ok := true; input_packet_alloc_ok := true;
     av_read_frame_ret := AVERROR_EOF; avcodec_send_packet_ret := 0;
     avcodec_receive_frame_ret := AVERROR_EOF;
     input_frame_nb_samples := 0;
     av_samples_alloc_ret := 0; swr_convert_ret := 0;
     av_audio_fifo_realloc_ret := 0 |}.

(** A decode step at the end of the file in which the decoder, now being
    flushed, hands out a frame of [n] samples it had held back. *)
Definition delayed_frame_of (n : Z) : pump_answers :=
  {| input_frame_alloc_ok := true; input_packet_alloc_ok := true;
     av_read_frame_ret := AVERROR_EOF; avcodec_send_packet_ret := 0;
     avcodec_receive_frame_ret := 0; input_frame_nb_samples := n;
     av_samples_alloc_ret := 0; swr_convert_ret := n;
     av_audio_fifo_realloc_ret := 0 |}.

Definition frame_allocated : frame_answers :=
  {| output_frame_alloc_ok := true; av_frame_get_buffer_ret := 0 |}.

(** The encoder hands out a packet, which the muxer takes. *)
Definition packet_written : encode_answers :=
  {| output_packet_alloc_ok := true; avcodec_send_frame_ret := 0;
     avcodec_receive_packet_ret := 0; av_write_frame_ret := 0 |}.

(** The encoder has nothing to hand out. *)
Definition encoder_empty : encode_answers :=
  {| output_packet_alloc_ok := true; avcodec_send_frame_ret := 0;
     avcodec_receive_packet_ret := AVERROR_EOF; av_write_frame_ret := 0 |}.

Definition stream_of (kind : AVMediaType) (rate : Z) : AVStream :=
  {| codec_type := kind; codecpar_sample_rate := rate;
     codecpar_sample_fmt := 8; codecpar_nb_channels := 1 |}.

(** An input whose streams are [ss] and for which every library call
    succeeds. *)
Definition input_with (ss : list AVStream) : input_answers :=
  {| avformat_open_input_ret := 0; avformat_find_stream_info_ret := 0;
     streams := ss; decoder_found := true;
     decoder_context_alloc_ok := true;
     avcodec_parameters_to_context_ret := 0; decoder_open2_ret := 0 |}.

(** An output for which every library call succeeds, the encoder asking
    for frames of [E] samples. *)
Definition output_with (E : Z) : output_answers :=
  {| avio_open_ret := 0; avformat_alloc_context_ok := true;
     av_guess_format_ok := true; av_strdup_ok := true;
     encoder_found := true; avformat_new_stream_ok := true;
     encoder_context_alloc_ok := true; output_codec_sample_fmt := 6;
     encoder_open2_ret := 0; encoder_frame_size := E;
     avcodec_parameters_from_context_ret := 0 |}.

(** A run over a 48 kHz mono input: the decode steps are answered by
    [pumps] and, past them, by the end of the file; the encoder asks for
    frames of [E] samples and answers by [encodes] and, past them, has
    nothing to hand out. *)
Definition run_of (pumps : list pump_answers) (E : Z)
    (encodes : list encode_answers) : environment :=
  {| input_env := input_with [stream_of AVMEDIA_TYPE_AUDIO 48000];
     output_env := output_with E;
     swr_alloc_set_opts2_ret := 0; swr_init_ret := 0;
     av_audio_fifo_alloc_ok := true; avformat_write_header_ret := 0;
     pump_env := fun i => nth i pumps end_of_file;
     frame_env := fun _ => frame_allocated;
     encode_env := fun i => nth i encodes encoder_empty;
     av_write_trailer_ret := 0 |}.

(** A run in which the output file is opened and the format context for
    it cannot be allocated. *)
Definition lost_output_run : environment :=
  {| input_env := input_with [stream_of AVMEDIA_TYPE_AUDIO 48000];
     output_env :=
       {| avio_open_ret := 0; avformat_alloc_context_ok := false;
          av_guess_format_ok := true; av_strdup_ok := true;
          encoder_found := true; avformat_new_stream_ok := true;
          encoder_context_alloc_ok := true; output_codec_sample_fmt := 6;
          encoder_open2_ret := 0; encoder_frame_size := 1152;
          avcodec_parameters_from_context_ret := 0 |};
     swr_alloc_set_opts2_ret := 0; swr_init_ret := 0;
     av_audio_fifo_alloc_ok := true; avformat_write_header_ret := 0;
     pump_env := fun _ => end_of_file;
     frame_env := fun _ => frame_allocated;
     encode_env := fun _ => encoder_empty;
     av_write_trailer_ret := 0 |}.

(** An input file that holds one video stream and no audio stream. *)
Definition video_only : input_answers :=
  input_with [stream_of AVMEDIA_TYPE_VIDEO 0].

(** A run over an input file that holds an audio and a video stream. *)
Definition two_streams_run : environment :=
  {| input_env :=
       input_with [stream_of AVMEDIA_TYPE_AUDIO 48000;
                   stream_of AVMEDIA_TYPE_VIDEO 0];
     output_env := output_with 1152;
     swr_alloc_set_opts2_ret := 0; swr_init_ret := 0;
     av_audio_fifo_alloc_ok := true; avformat_write_header_ret := 0;
     pump_env := fun _ => end_of_file;
     frame_env := fun _ => frame_allocated;
     encode_env := fun _ => encoder_empty;
     av_write_trailer_ret := 0 |}.

(** The encoder context [open_output_file] gives for [output_with E]. *)
Definition encoder_of (E : Z) : AVCodecContext :=
  {| sample_rate := 48000; sample_fmt := 6; nb_channels := OUTPUT_CHANNELS;
     frame_size := E |}.

(** The state in which [main] enters its loop. *)
Definition start : main_state := main_start (av_audio_fifo_alloc 1).

(** The decoder hands out a frame only once the end of the file has been
    read: one step in which it asks for more input, then the held-back
    frame of 1024 samples. *)
Definition delayed_decoder_run : environment :=
  run_of [needs_more_input; delayed_frame_of 1024] 1152 [].

(** Two decoder frames of 1024 samples, an encoder of 2048. *)
Definition two_frames_run : environment :=
  run_of [frame_of 1024; frame_of 1024] 2048 [packet_written].

(** Three decoder frames of 1024 samples, an encoder of 1152: two full
    frames and a last one of 768 samples. *)
Definition three_frames_run : environment :=
  run_of [frame_of 1024; frame_of 1024; frame_of 1024] 1152
    [packet_written; packet_written; packet_written].

(** [two_frames_run] with no memory for the output frame. *)
Definition no_output_frame_run : environment :=
  {| input_env := input_with [stream_of AVMEDIA_TYPE_AUDIO 48000];
     output_env := output_with 2048;
     swr_alloc_set_opts2_ret := 0; swr_init_ret := 0;
     av_audio_fifo_alloc_ok := true; avformat_write_header_ret := 0;
     pump_env := fun i => nth i [frame_of 1024; frame_of 1024] end_of_file;
     frame_env :=
       fun _ => {| output_frame_alloc_ok := false;
                   av_frame_get_buffer_ret := 0 |};
     encode_env := fun _ => packet_written;
     av_write_trailer_ret := 0 |}.

End Environments.

(* ===================================================================== *)
(** ** Basic facts *)
(* ===================================================================== *)

Lemma nonzero_true (e : Z) : nonzero e = true <-> e <> 0.
Proof.
  unfold nonzero. destruct (Z.eqb_spec e 0); simpl; split; congruence.
Qed.

Lemma nonzero_false (e : Z) : nonzero e = false <-> e = 0.
Proof.
  unfold nonzero. destruct (Z.eqb_spec e 0); simpl; split; congruence.
Qed.

Lemma FFMIN_is_min (a b : Z) : FFMIN a b = Z.min a b.
Proof. unfold FFMIN. destruct (Z.gtb_spec a b); lia. Qed.

Lemma int32_in_range (z : Z) : - 2 ^ 31 <= z <= INT_MAX -> int32 z = z.
Proof.
  unfold int32, INT_MAX. intros Hz.
  rewrite Z.mod_small; lia.
Qed.

Lemma int64_in_range (z : Z) : - 2 ^ 63 <= z <= INT64_MAX -> int64 z = z.
Proof.
  unfold int64, INT64_MAX. intros Hz.
  rewrite Z.mod_small; lia.
Qed.

Lemma decoded_frames_app (h1 h2 : list event) :
  decoded_frames (h1 ++ h2) = decoded_frames h1 ++ decoded_frames h2.
Proof.
  induction h1 as [|e h1 IH]; simpl; [reflexivity|].
  destruct e; simpl; rewrite IH; reflexivity.
Qed.

Lemma sent_frames_app (h1 h2 : list event) :
  sent_frames (h1 ++ h2) = sent_frames h1 ++ sent_frames h2.
Proof.
  induction h1 as [|e h1 IH]; simpl; [reflexivity|].
  destruct e as [| [f|] | | | |]; simpl; rewrite IH; reflexivity.
Qed.

Lemma null_sends_app (h1 h2 : list event) :
  null_sends (h1 ++ h2) = (null_sends h1 + null_sends h2)%nat.
Proof.
  induction h1 as [|e h1 IH]; simpl; [reflexivity|].
  destruct e as [| [f|] | | | |]; simpl; rewrite IH; reflexivity.
Qed.

Lemma stderr_lines_app (h1 h2 : list event) :
  stderr_lines (h1 ++ h2) = stderr_lines h1 ++ stderr_lines h2.
Proof.
  induction h1 as [|e h1 IH]; simpl; [reflexivity|].
  destruct e; simpl; rewrite IH; reflexivity.
Qed.

Lemma sum_app (l1 l2 : list Z) : sum (l1 ++ l2) = sum l1 + sum l2.
Proof.
  unfold sum. induction l1 as [|x l1 IH]; simpl; [reflexivity|]. lia.
Qed.

Lemma decoded_samples_app (h1 h2 : list event) :
  decoded_samples (h1 ++ h2) = decoded_samples h1 + decoded_samples h2.
Proof. unfold decoded_samples. now rewrite decoded_frames_app, sum_app. Qed.

Lemma sent_samples_app (h1 h2 : list event) :
  sent_samples (h1 ++ h2) = sent_samples h1 + sent_samples h2.
Proof.
  unfold sent_samples. now rewrite sent_frames_app, map_app, sum_app.
Qed.

(** Case analysis on the tests of a transcribed function. *)
Lemma world_after_a_call (b : bool) (s : main_state) :
  world (if b then goto FAILED s else s) = world s.
Proof. destruct b; reflexivity. Qed.

Ltac case_tests :=
  repeat match goal with
         | |- context [if ?b then _ else _] =>
             let E := fresh "E" in destruct b eqn:E
         | |- context [match ?x with _ => _ end] =>
             let E := fresh "E" in destruct x eqn:E
         end.

Ltac case_ifs :=
  repeat match goal with
         | |- context [if ?b then _ else _] =>
             let E := fresh "E" in destruct b eqn:E
         end.

Ltac z_tests :=
  repeat match goal with
         | H : (_ <? _) = true |- _ => apply Z.ltb_lt in H
         | H : (_ <? _) = false |- _ => apply Z.ltb_ge in H
         | H : (_ =? _) = true |- _ => apply Z.eqb_eq in H
         | H : (_ =? _) = false |- _ => apply Z.eqb_neq in H
         | H : (_ >? _) = true |- _ => rewrite Z.gtb_ltb in H
         | H : (_ >? _) = false |- _ => rewrite Z.gtb_ltb in H
         | H : (_ >=? _) = true |- _ => rewrite Z.geb_leb in H
         | H : (_ >=? _) = false |- _ => rewrite Z.geb_leb in H
         | H : (_ <=? _) = true |- _ => apply Z.leb_le in H
         | H : (_ <=? _) = false |- _ => apply Z.leb_gt in H
         | H : nonzero _ = true |- _ => apply nonzero_true in H
         | H : nonzero _ = false |- _ => apply nonzero_false in H
         | H : negb _ = true |- _ => apply negb_true_iff in H
         | H : negb _ = false |- _ => apply negb_false_iff in H
         | H : _ && _ = true |- _ => apply andb_true_iff in H; destruct H
         | H : _ || _ = false |- _ => apply orb_false_iff in H; destruct H
         end.

Lemma nonzero_negative (e : Z) : e < 0 -> nonzero e = true.
Proof. intros H. apply nonzero_true. lia. Qed.

(** Reading the history of a state that was built by [log]. *)
Ltac hist :=
  cbn [history log fprintf_stderr with_fifo with_pts fifo pts fst snd];
  rewrite ?decoded_frames_app, ?sent_frames_app, ?null_sends_app,
    ?stderr_lines_app;
  cbn [decoded_frames sent_frames null_sends stderr_lines app];
  rewrite ?app_nil_r, ?Nat.add_0_r.

Ltac conj_split := repeat match goal with |- _ /\ _ => split end.

(** The routine ends of a case. *)
Ltac finish :=
  repeat split; auto; try discriminate;
  try (intros; repeat split;
       unfold fifo_ok, av_audio_fifo_size in *; cbn [fifo] in *;
       try assumption; lia).

(** Use the implications at hand, then plain propositional reasoning. *)
Ltac settle :=
  intros;
  repeat match goal with
         | H : ?A -> _, H' : ?A |- _ => specialize (H H')
         end;
  intuition (try discriminate; try congruence; auto).

Section Buffer.

Context {codes : av_error_codes}.

(** The buffer stays well formed under its three operations. *)
Lemma av_audio_fifo_realloc_ok (r : Z) (af : AVAudioFifo) (n : Z) :
  fifo_ok af -> fifo_ok (snd (av_audio_fifo_realloc r af n)).
Proof.
  unfold av_audio_fifo_realloc, fifo_ok. intros H.
  destruct (r <? 0); simpl; lia.
Qed.

Lemma av_audio_fifo_write_ok (af : AVAudioFifo) (n : Z) :
  fifo_ok af -> fifo_ok (snd (av_audio_fifo_write af n)).
Proof.
  unfold av_audio_fifo_write, av_audio_fifo_space, fifo_ok. intros H.
  destruct (Z.ltb_spec n 0); simpl; lia.
Qed.

Lemma av_audio_fifo_read_ok (af : AVAudioFifo) (n : Z) :
  fifo_ok af -> fifo_ok (snd (av_audio_fifo_read af n)).
Proof.
  unfold av_audio_fifo_read, fifo_ok. intros H.
  destruct (Z.ltb_spec n 0); simpl; lia.
Qed.

(** A consume within the level removes exactly what it is asked for. *)
Lemma av_audio_fifo_read_exact (af : AVAudioFifo) (n : Z) :
  0 <= n <= fifo_nb_samples af ->
  av_audio_fifo_read af n
  = (n, {| fifo_nb_samples := fifo_nb_samples af - n;
           fifo_allocated_samples := fifo_allocated_samples af |}).
Proof.
  intros H. unfold av_audio_fifo_read.
  destruct (Z.ltb_spec n 0); [lia|].
  rewrite Z.min_l by lia. reflexivity.
Qed.

(** What [add_samples_to_fifo] does to the buffer: when it returns 0, all
    the samples are in; it returns 0 whenever the allocator succeeds and
    the new level is in the range of [int]. *)
Lemma add_samples_to_fifo_level (r count : Z) (st : state) :
  fifo_ok (fifo st) -> 0 <= count ->
  let res := add_samples_to_fifo r count st in
  fifo_ok (fifo (snd res))
  /\ pts (snd res) = pts st
  /\ (fst res = 0 ->
      av_audio_fifo_size (fifo (snd res))
      = av_audio_fifo_size (fifo st) + count
      /\ history (snd res) = history st)
  /\ (fst res <> 0 ->
      av_audio_fifo_size (fifo (snd res)) <= av_audio_fifo_size (fifo st) + count
      /\ av_audio_fifo_size (fifo st) <= av_audio_fifo_size (fifo (snd res)))
  /\ (0 <= r -> av_audio_fifo_size (fifo st) + count <= INT_MAX ->
      fst res = 0).
Proof.
  intros Hok Hc. unfold add_samples_to_fifo, av_audio_fifo_realloc,
    av_audio_fifo_write, av_audio_fifo_space, av_audio_fifo_size, fifo_ok in *.
  destruct (Z.ltb_spec r 0) as [Hr|Hr]; simpl.
  - rewrite (proj2 (Z.ltb_lt r 0) Hr). simpl. repeat split; try lia.
  - destruct (Z.ltb_spec count 0) as [|_]; [lia|]. simpl.
    match goal with |- context [Z.min count ?sp <? count] =>
      destruct (Z.ltb_spec (Z.min count sp) count) as [Hw|Hw] end; simpl.
    + pose proof AVERROR_EXIT_neg.
      repeat split; try lia.
      intros _ Hmax. rewrite int32_in_range in Hw by (unfold INT_MAX in *; lia).
      lia.
    + repeat split; try lia.
Qed.

Lemma fifo_step_append (count r : Z) (st : state) :
  fifo_ok (fifo st) -> 0 <= count ->
  match fifo_step (Append count r) st with
  | Some st' =>
      av_audio_fifo_size (fifo st') = av_audio_fifo_size (fifo st) + count
      /\ fifo_ok (fifo st')
  | None => ~ (0 <= r /\ av_audio_fifo_size (fifo st) + count <= INT_MAX)
  end.
Proof.
  intros Hok Hc. unfold fifo_step.
  pose proof (add_samples_to_fifo_level r count st Hok Hc) as H. simpl in H.
  destruct (add_samples_to_fifo r count st) as [ret st']. simpl in H.
  destruct H as (Hok' & _ & Hzero & _ & Hsucc).
  destruct (nonzero ret) eqn:E; z_tests.
  - intros [Hr Hmax]. auto.
  - split; [apply Hzero; assumption | assumption].
Qed.

Lemma fifo_step_consume (count : Z) (st : state) :
  fifo_ok (fifo st) -> 0 <= count <= av_audio_fifo_size (fifo st) ->
  exists st',
    fifo_step (Consume count) st = Some st'
    /\ av_audio_fifo_size (fifo st') = av_audio_fifo_size (fifo st) - count
    /\ fifo_ok (fifo st').
Proof.
  intros Hok Hc. unfold fifo_step, av_audio_fifo_size in *.
  rewrite av_audio_fifo_read_exact by assumption.
  rewrite Z.ltb_irrefl. eexists. split; [reflexivity|].
  unfold fifo_ok in *. simpl. lia.
Qed.

(** C2.  Elastic Sample Buffer: under every interleaving of appends
    ([add_samples_to_fifo]) and consumes (the [av_audio_fifo_read] of
    [load_encode_and_write]) in which each consume asks for no more than
    the level, the level after an append is the level before plus the count
    appended, the level after a consume is the level before minus the count
    consumed, and the level is never negative.  The levels the program goes
    through are those of the specification up to the first append the
    allocator refuses, and all of them when no append is refused. *)
Theorem fifo_level_follows_appends_and_consumes
    (ops : list fifo_op) (st : state) :
  fifo_ok (fifo st) ->
  respects ops (av_audio_fifo_size (fifo st)) ->
  (exists k,
      fifo_levels ops st
      = firstn k (expected_levels ops (av_audio_fifo_size (fifo st))))
  /\ Forall (fun level => 0 <= level) (fifo_levels ops st)
  /\ (allocations_succeed ops (av_audio_fifo_size (fifo st)) ->
      fifo_levels ops st
      = expected_levels ops (av_audio_fifo_size (fifo st))).
Proof.
  revert st. induction ops as [|op ops IH]; intros st Hok Hres.
  - simpl. split; [exists O; reflexivity|]. split; [constructor | reflexivity].
  - destruct op as [count r | count]; simpl in Hres; destruct Hres as [Hc Hres].
    + pose proof (fifo_step_append count r st Hok Hc) as Hstep.
      cbn [fifo_levels expected_levels allocations_succeed].
      destruct (fifo_step (Append count r) st) as [st'|].
      * destruct Hstep as [Hlevel Hok'].
        rewrite <- Hlevel in Hres.
        destruct (IH st' Hok' Hres) as ((k & Hk) & Hpos & Hall).
        rewrite Hlevel in *.
        split; [exists (S k); simpl; now rewrite Hk|].
        split.
        -- constructor; [unfold fifo_ok, av_audio_fifo_size in *; lia
                        | assumption].
        -- intros (_ & _ & Hrest). now rewrite (Hall Hrest).
      * split; [exists O; reflexivity|].
        split; [constructor|].
        intros (Hr & Hmax & _). exfalso. apply Hstep. split; assumption.
    + destruct (fifo_step_consume count st Hok Hc) as (st' & Hstep & Hlevel & Hok').
      cbn [fifo_levels expected_levels allocations_succeed].
      rewrite Hstep.
      rewrite <- Hlevel in Hres.
      destruct (IH st' Hok' Hres) as ((k & Hk) & Hpos & Hall).
      rewrite Hlevel in *.
      split; [exists (S k); simpl; now rewrite Hk|].
      split.
      * constructor; [lia | assumption].
      * intros Hrest. now rewrite (Hall Hrest).
Qed.

End Buffer.

Section Encoder.

Context {codes : av_error_codes}.

Lemma init_packet_effect (ok : bool) (st : state) :
  fifo (snd (init_packet ok st)) = fifo st
  /\ pts (snd (init_packet ok st)) = pts st
  /\ (exists msgs, history (snd (init_packet ok st))
                   = history st ++ map Stderr msgs)
  /\ (fst (init_packet ok st) <? 0) = negb ok.
Proof.
  unfold init_packet. pose proof ENOMEM_pos. unfold AVERROR.
  destruct ok; simpl.
  - repeat split; try reflexivity. exists []. simpl. now rewrite app_nil_r.
  - repeat split; try reflexivity.
    + eexists [_]. reflexivity.
    + apply Z.ltb_lt. lia.
Qed.

(** What one call of [encode_audio_frame] does to the buffer, to the
    counter and to the frames on record: the buffer is left alone; either
    nothing is handed to the encoder and the counter stays, or the frame is
    handed over bearing the counter as it stood, and the counter moves on
    by the frame's sample count. *)
Lemma encode_audio_frame_effect (a : encode_answers)
    (frame : option AVFrame) (dp : bool) (st : state) :
  let res := encode_audio_frame a frame dp st in
  let st' := snd res in
  fifo st' = fifo st
  /\ decoded_frames (history st') = decoded_frames (history st)
  /\ ((sent_frames (history st') = sent_frames (history st)
       /\ pts st' = pts st
       /\ (frame = None \/ output_packet_alloc_ok a = false))
      \/ (exists f, frame = Some f
                    /\ output_packet_alloc_ok a = true
                    /\ sent_frames (history st')
                       = sent_frames (history st)
                           ++ [{| nb_samples := nb_samples f;
                                  frame_pts := pts st |}]
                    /\ pts st' = int64 (pts st + nb_samples f))).
Proof.
  unfold encode_audio_frame, init_packet, fprintf_stderr.
  destruct (output_packet_alloc_ok a); simpl.
  - destruct frame as [f|];
      case_tests; simpl;
      repeat rewrite ?decoded_frames_app, ?sent_frames_app; simpl;
      rewrite ?app_nil_r;
      (split; [reflexivity|]); (split; [reflexivity|]);
      solve [ left; repeat split; auto
            | right; exists f; repeat split; reflexivity ].
  - pose proof ENOMEM_pos. unfold AVERROR.
    destruct (Z.ltb_spec (- ENOMEM) 0); [|lia]. simpl.
    rewrite decoded_frames_app, sent_frames_app. simpl.
    rewrite !app_nil_r. repeat split. left. repeat split. now right.
Qed.

(** The return value and the out-parameter of [encode_audio_frame] when
    the encoder has nothing to hand out, and when it hands out a packet
    that gets written. *)
Lemma encode_audio_frame_no_packet (a : encode_answers)
    (frame : option AVFrame) (dp : bool) (st : state) :
  yields_no_packet a ->
  fst (encode_audio_frame a frame dp st) = (0, false).
Proof.
  intros (Halloc & Hsend & Hrecv).
  unfold encode_audio_frame, init_packet. rewrite Halloc. simpl.
  pose proof AVERROR_EOF_neg.
  assert (Hs : (avcodec_send_frame_ret a <? 0)
               && negb (avcodec_send_frame_ret a =? AVERROR_EOF) = false).
  { destruct Hsend as [Hs|Hs].
    - destruct (Z.ltb_spec (avcodec_send_frame_ret a) 0); [lia|reflexivity].
    - rewrite Hs, Z.eqb_refl. simpl. apply andb_false_r. }
  destruct frame as [f|]; simpl; rewrite Hs;
    (destruct Hrecv as [Hr|Hr]; rewrite Hr;
     [ rewrite Z.eqb_refl; reflexivity
     | destruct (AVERROR_EOF =? AVERROR EAGAIN);
       [reflexivity | rewrite Z.eqb_refl; reflexivity] ]).
Qed.

Lemma encode_audio_frame_packet (a : encode_answers)
    (frame : option AVFrame) (dp : bool) (st : state) :
  yields_packet a ->
  fst (encode_audio_frame a frame dp st) = (0, true).
Proof.
  intros (Halloc & Hsend & Hrecv & Hwrite).
  unfold encode_audio_frame, init_packet. rewrite Halloc. simpl.
  pose proof AVERROR_EOF_neg. pose proof EAGAIN_pos.
  assert (Hs : (avcodec_send_frame_ret a <? 0)
               && negb (avcodec_send_frame_ret a =? AVERROR_EOF) = false).
  { destruct Hsend as [Hs|Hs].
    - destruct (Z.ltb_spec (avcodec_send_frame_ret a) 0); [lia|reflexivity].
    - rewrite Hs, Z.eqb_refl. simpl. apply andb_false_r. }
  assert (H1 : (0 =? AVERROR EAGAIN) = false)
    by (apply Z.eqb_neq; unfold AVERROR; lia).
  assert (H2 : (0 =? AVERROR_EOF) = false) by (apply Z.eqb_neq; lia).
  destruct frame as [f|]; simpl; rewrite Hs, Hrecv, H1, H2, Hwrite;
    reflexivity.
Qed.

End Encoder.

Section Pump.

Context {codes : av_error_codes}.

(** [add_samples_to_fifo] on any count: the buffer stays well formed, its
    level does not go down, and nothing but a diagnostic is put on
    record. *)
Lemma add_samples_to_fifo_effect (r count : Z) (st : state) :
  let st' := snd (add_samples_to_fifo r count st) in
  pts st' = pts st
  /\ (exists msgs, history st' = history st ++ map Stderr msgs)
  /\ (fifo_ok (fifo st) ->
      fifo_ok (fifo st')
      /\ av_audio_fifo_size (fifo st) <= av_audio_fifo_size (fifo st')).
Proof.
  unfold add_samples_to_fifo, av_audio_fifo_realloc, av_audio_fifo_write,
    av_audio_fifo_space, av_audio_fifo_size, fprintf_stderr, fifo_ok.
  case_tests; simpl; z_tests;
    repeat match goal with
           | H : (_, _) = (_, _) |- _ => inversion H; subst; clear H
           end; simpl;
    (split; [reflexivity|]);
    (split; [ first [ exists []; simpl; now rewrite app_nil_r
                    | eexists [_]; reflexivity ] | ]);
    intros; lia.
Qed.

(** What one call of [decode_audio_frame] returns and puts on record. *)
Lemma decode_audio_frame_effect (a : pump_answers) (dp fin : bool)
    (st : state) :
  let res := decode_audio_frame a dp fin st in
  let r := fst (fst (fst res)) in
  let dp' := snd (fst (fst res)) in
  let fin' := snd (fst res) in
  let st' := snd res in
  fifo st' = fifo st /\ pts st' = pts st
  /\ sent_frames (history st') = sent_frames (history st)
  /\ null_sends (history st') = null_sends (history st)
  /\ (r = 0 -> dp' = true ->
      avcodec_receive_frame_ret a = 0
      /\ decoded_frames (history st')
         = decoded_frames (history st) ++ [input_frame_nb_samples a]
      /\ (fin' = true -> av_read_frame_ret a = AVERROR_EOF))
  /\ (r = 0 -> dp' = false ->
      decoded_frames (history st') = decoded_frames (history st)).
Proof.
  unfold decode_audio_frame, init_packet, fprintf_stderr.
  pose proof AVERROR_EOF_neg. pose proof EAGAIN_pos. pose proof ENOMEM_pos.
  unfold AVERROR.
  case_tests; simpl; z_tests;
    repeat match goal with
           | H : (_, _) = (_, _) |- _ => inversion H; subst; clear H
           end; simpl;
    rewrite ?decoded_frames_app, ?sent_frames_app, ?null_sends_app; simpl;
    rewrite ?app_nil_r, ?Nat.add_0_r;
    repeat split; try reflexivity; try congruence; try lia;
    intros; try congruence; try lia.
Qed.

(** What one call of [read_decode_convert_and_store] does: the counter
    and the frames handed to the encoder stay; the buffer stays well formed
    and its level does not go down; when the call reports the end of the
    input, the buffer is left as it was. *)
Lemma read_decode_convert_and_store_effect (a : pump_answers) (fin : bool)
    (st : state) (r : Z) (fin' : bool) (st' : state) :
  read_decode_convert_and_store a fin st = (r, fin', st') ->
  pts st' = pts st
  /\ sent_frames (history st') = sent_frames (history st)
  /\ null_sends (history st') = null_sends (history st)
  /\ (r = 0 \/ r = AVERROR_EXIT)
  /\ (fin' = true -> fifo st' = fifo st)
  /\ (fifo_ok (fifo st) ->
      fifo_ok (fifo st')
      /\ av_audio_fifo_size (fifo st) <= av_audio_fifo_size (fifo st')).
Proof.
  unfold read_decode_convert_and_store, init_input_frame,
    init_converted_samples, convert_samples.
  destruct (input_frame_alloc_ok a); cbn [negb].
  2:{ rewrite nonzero_negative by (pose proof ENOMEM_pos; unfold AVERROR; lia).
      intros E; inversion E; subst; clear E. hist. finish. }
  cbn [nonzero Z.eqb negb].
  pose proof (decode_audio_frame_effect a false fin st) as Hdec.
  destruct (decode_audio_frame a false fin st) as [[[r0 dp] fin0] st0].
  cbn [fst snd] in Hdec. destruct Hdec as (Hf & Hp & Hs & Hn & _).
  destruct (nonzero r0).
  { intros E; inversion E; subst; clear E.
    rewrite Hf, Hp, Hs, Hn. finish. }
  destruct fin0.
  { intros E; inversion E; subst; clear E.
    rewrite Hf, Hp, Hs, Hn. finish. }
  destruct dp.
  2:{ intros E; inversion E; subst; clear E.
      rewrite Hf, Hp, Hs, Hn. finish. }
  destruct (Z.ltb_spec (av_samples_alloc_ret a) 0).
  { rewrite nonzero_negative by assumption.
    intros E; inversion E; subst; clear E. hist.
    rewrite Hf, Hp, Hs, Hn. finish. }
  cbn [nonzero Z.eqb negb].
  destruct (Z.ltb_spec (swr_convert_ret a) 0).
  { rewrite nonzero_negative by assumption.
    intros E; inversion E; subst; clear E. hist.
    rewrite Hf, Hp, Hs, Hn. finish. }
  cbn [nonzero Z.eqb negb].
  pose proof (add_samples_to_fifo_effect (av_audio_fifo_realloc_ret a)
                (input_frame_nb_samples a) st0) as Hadd.
  destruct (add_samples_to_fifo (av_audio_fifo_realloc_ret a)
              (input_frame_nb_samples a) st0) as [r1 st1].
  cbn [fst snd] in Hadd. destruct Hadd as (Hp' & (msgs & Hh') & Hok').
  assert (Hm1 : sent_frames (map Stderr msgs) = [])
    by (clear; induction msgs; simpl; auto).
  assert (Hm2 : null_sends (map Stderr msgs) = O)
    by (clear; induction msgs; simpl; auto).
  rewrite Hf in Hok'.
  destruct (nonzero r1);
    intros E; inversion E; subst; clear E;
    rewrite Hh', Hp'; hist; rewrite Hm1, Hm2, Hp, Hs, Hn; hist; finish.
Qed.

End Pump.

Section Drain.

Context {codes : av_error_codes}.

Lemma encode_audio_frame_return (a : encode_answers)
    (frame : option AVFrame) (dp : bool) (st : state) :
  let res := encode_audio_frame a frame dp st in
  null_sends (history (snd res))
  = (null_sends (history st)
     + match frame with
       | None => if output_packet_alloc_ok a then 1 else 0
       | Some _ => 0
       end)%nat
  /\ (exists msgs,
         stderr_lines (history (snd res)) = stderr_lines (history st) ++ msgs
         /\ ~ In short_read_line msgs)
  /\ (fst (fst res) = 0 -> output_packet_alloc_ok a = true).
Proof.
  unfold encode_audio_frame, init_packet, short_read_line.
  pose proof ENOMEM_pos. unfold AVERROR.
  destruct (output_packet_alloc_ok a); cbn [negb].
  - destruct (Z.ltb_spec 0 0); [lia|].
    destruct frame as [f|]; case_tests; hist;
      (split; [lia|]);
      (split; [| auto]);
      first [ exists []; rewrite app_nil_r; split; [reflexivity| intros []]
            | eexists [_]; split; [reflexivity|];
              intros [Hin|[]]; discriminate Hin ].
  - destruct (Z.ltb_spec (- ENOMEM) 0); [|lia]. hist.
    destruct frame; (split; [lia|]);
      (split; [eexists [_]; split; [reflexivity|];
               intros [Hin|[]]; discriminate Hin
              | intros; lia]).
Qed.

Lemma load_encode_and_write_effect (fa : frame_answers)
    (ea : encode_answers) (outccx : AVCodecContext) (st : state)
    (r : Z) (st' : state) :
  load_encode_and_write fa ea outccx st = (r, st') ->
  let size := Z.min (av_audio_fifo_size (fifo st)) (frame_size outccx) in
  decoded_frames (history st') = decoded_frames (history st)
  /\ null_sends (history st') = null_sends (history st)
  /\ (r = 0 \/ r = AVERROR_EXIT)
  /\ ((sent_frames (history st') = sent_frames (history st)
       /\ pts st' = pts st /\ r <> 0)
      \/ (sent_frames (history st')
          = sent_frames (history st)
              ++ [{| nb_samples := size; frame_pts := pts st |}]
          /\ pts st' = int64 (pts st + size)))
  /\ (fifo_ok (fifo st) ->
      fifo_ok (fifo st')
      /\ av_audio_fifo_size (fifo st') <= av_audio_fifo_size (fifo st))
  /\ (0 <= size ->
      (if output_frame_alloc_ok fa && (0 <=? av_frame_get_buffer_ret fa)
       then av_audio_fifo_size (fifo st')
            = av_audio_fifo_size (fifo st) - size
       else fifo st' = fifo st /\ r <> 0)
      /\ exists msgs,
          stderr_lines (history st') = stderr_lines (history st) ++ msgs
          /\ ~ In short_read_line msgs).
Proof.
  unfold load_encode_and_write, init_output_frame, short_read_line.
  rewrite FFMIN_is_min.
  set (size := Z.min (av_audio_fifo_size (fifo st)) (frame_size outccx)).
  pose proof AVERROR_EXIT_neg as Hexit.
  assert (Hone : forall (msg : string) (l : list string),
             msg <> "Could not read data from FIFO"%string ->
             exists msgs, l ++ [msg] = l ++ msgs
                          /\ ~ In "Could not read data from FIFO"%string msgs).
  { intros msg l Hne. exists [msg]. split; [reflexivity|].
    intros [Hin|[]]. congruence. }
  destruct (output_frame_alloc_ok fa); cbn [negb andb].
  2:{ rewrite nonzero_negative by assumption.
      intros E; inversion E; subst; clear E. hist.
      conj_split; auto; try lia; intros; conj_split; auto; try lia.
      - left. conj_split; auto; lia.
      - apply Hone. discriminate. }
  destruct (Z.ltb_spec (av_frame_get_buffer_ret fa) 0) as [Hbuf|Hbuf].
  { rewrite nonzero_negative by assumption.
    destruct (Z.leb_spec 0 (av_frame_get_buffer_ret fa)); [lia|].
    intros E; inversion E; subst; clear E. hist.
    conj_split; auto; try lia; intros; conj_split; auto; try lia.
    - left. conj_split; auto; lia.
    - apply Hone. discriminate. }
  destruct (Z.leb_spec 0 (av_frame_get_buffer_ret fa)); [|lia].
  cbn [nonzero Z.eqb negb].
  unfold av_audio_fifo_read.
  destruct (Z.ltb_spec size 0) as [Hneg|Hpos].
  - (* a negative count: the read is refused *)
    destruct (AVERROR EINVAL <? size).
    + intros E; inversion E; subst; clear E. hist.
      conj_split; auto; try lia; intros; conj_split; auto; try lia.
      left. conj_split; auto; lia.
    + pose proof (encode_audio_frame_effect ea
                    (Some {| nb_samples := size; frame_pts := 0 |}) false
                    (with_fifo (fifo st) st)) as Heff.
      pose proof (encode_audio_frame_return ea
                    (Some {| nb_samples := size; frame_pts := 0 |}) false
                    (with_fifo (fifo st) st)) as Hret.
      destruct (encode_audio_frame ea _ false (with_fifo (fifo st) st))
        as [[r0 dw] st0].
      cbn [fst snd nb_samples] in Heff, Hret.
      destruct Heff as (Hf & Hd & Hs). destruct Hret as (Hn & _ & Halloc).
      cbn [history with_fifo fifo pts] in *. rewrite Nat.add_0_r in Hn.
      destruct (nonzero r0) eqn:Hr0; z_tests;
        intros E; inversion E; subst; clear E;
        rewrite Hf, Hd, Hn;
        (conj_split; auto; try lia; intros; conj_split; auto; try lia);
        destruct Hs as [(Hs & Hp & Halt) | (f & Hfr & Hok & Hs & Hp)];
        try (left; conj_split; auto; lia);
        try (right; inversion Hfr; subst; split; assumption).
      destruct Halt as [Habs|Habs]; [discriminate|].
      rewrite Halloc in Habs by reflexivity. discriminate.
  - (* a count that is not negative *)
    assert (Hmin : Z.min size (fifo_nb_samples (fifo st)) = size)
      by (unfold size, av_audio_fifo_size; lia).
    rewrite Hmin, Z.ltb_irrefl.
    set (st1 := with_fifo
                  {| fifo_nb_samples := fifo_nb_samples (fifo st) - size;
                     fifo_allocated_samples :=
                       fifo_allocated_samples (fifo st) |} st).
    pose proof (encode_audio_frame_effect ea
                  (Some {| nb_samples := size; frame_pts := 0 |}) false st1)
      as Heff.
    pose proof (encode_audio_frame_return ea
                  (Some {| nb_samples := size; frame_pts := 0 |}) false st1)
      as Hret.
    destruct (encode_audio_frame ea _ false st1) as [[r0 dw] st0].
    cbn [fst snd nb_samples] in Heff, Hret.
    destruct Heff as (Hf & Hd & Hs). destruct Hret as (Hn & Hmsgs & Halloc).
    unfold st1 in *. cbn [history with_fifo fifo pts] in *.
    rewrite Nat.add_0_r in Hn.
    assert (Hsent :
      (sent_frames (history st0) = sent_frames (history st)
       /\ pts st0 = pts st /\ r0 <> 0)
      \/ (sent_frames (history st0)
          = sent_frames (history st)
              ++ [{| nb_samples := size; frame_pts := pts st |}]
          /\ pts st0 = int64 (pts st + size))).
    { destruct Hs as [(Hs & Hp & Halt) | (f & Hfr & Hok & Hs & Hp)].
      - left. conj_split; auto. intros ->.
        destruct Halt as [Habs|Habs]; [discriminate|].
        rewrite Halloc in Habs by reflexivity. discriminate.
      - right. inversion Hfr; subst. split; assumption. }
    destruct (nonzero r0) eqn:Hr0; z_tests;
      intros E; inversion E; subst; clear E;
      rewrite Hf, Hd, Hn; unfold av_audio_fifo_size, fifo_ok in *;
      cbn [fifo_nb_samples fifo_allocated_samples];
      (conj_split; auto; try lia; intros; conj_split; auto; try lia).
    destruct Hsent as [(Hs' & Hp' & _)|Hsent]; [left|right]; auto.
    conj_split; auto. lia.
Qed.

End Drain.

Section Loop.

Context {codes : av_error_codes}.
Variable env : environment.
Variable outccx : AVCodecContext.

Lemma main_loop_succ (n : nat) (s : main_state) :
  main_loop env outccx (S n) s
  = main_step env outccx (main_loop env outccx n s).
Proof.
  revert s. induction n as [|n IH]; intros s; [reflexivity|].
  change (main_loop env outccx (S (S n)) s)
    with (main_loop env outccx (S n) (main_step env outccx s)).
  rewrite IH. reflexivity.
Qed.

Lemma main_loop_add (n m : nat) (s : main_state) :
  main_loop env outccx (n + m) s
  = main_loop env outccx m (main_loop env outccx n s).
Proof.
  revert s. induction n as [|n IH]; intros s; [reflexivity|].
  simpl. apply IH.
Qed.

Lemma main_step_invariant (s : main_state) :
  loop_invariant outccx s -> loop_invariant outccx (main_step env outccx s).
Proof.
  unfold loop_invariant, level, main_step.
  intros (Hok & Hpos & Hfill & Hdrain & Hflush).
  destruct (at_phase s) eqn:Hphase.
  - (* FILLING *)
    unfold fill_condition.
    destruct (Z.ltb_spec (av_audio_fifo_size (fifo (world s)))
                (frame_size outccx)) as [Hlt|Hge].
    + unfold call_pump.
      destruct (read_decode_convert_and_store _ _ _) as [[r fin'] w] eqn:E.
      apply read_decode_convert_and_store_effect in E.
      destruct E as (_ & _ & _ & _ & Hsame & Hgrow).
      destruct (Hgrow Hok) as [Hok' Hle].
      unfold fifo_ok, av_audio_fifo_size in *.
      destruct (nonzero r); [|destruct fin' eqn:Hfin]; cbn; rewrite ?Hphase;
        conj_split; auto; try lia; try discriminate; try congruence;
        try (intros [?|?]; discriminate).
      * intros _ _. rewrite Hsame by reflexivity. lia.
    + cbn. conj_split; auto; try discriminate; try (intros [?|?]; discriminate).
      intros Hfin. exfalso. apply (Hfill Hfin). reflexivity.
  - (* DRAINING *)
    unfold drain_condition.
    destruct ((av_audio_fifo_size (fifo (world s)) >=? frame_size outccx)
              || finished s && (av_audio_fifo_size (fifo (world s)) >? 0))
      eqn:Hcond.
    + unfold call_drain.
      destruct (load_encode_and_write _ _ _ _) as [r w] eqn:E.
      apply load_encode_and_write_effect in E.
      destruct E as (_ & _ & _ & _ & Hshrink & _).
      destruct (Hshrink Hok) as [Hok' Hle].
      unfold fifo_ok, av_audio_fifo_size in *.
      destruct (nonzero r); cbn; rewrite ?Hphase;
        conj_split; auto; try lia; try discriminate; try congruence;
        try (intros [?|?]; congruence).
      * intros Hfin _. specialize (Hdrain Hfin eq_refl). lia.
    + z_tests. destruct (finished s) eqn:Hfin; cbn; rewrite ?Hfin.
      * conj_split; auto; try discriminate.
        intros _. split; [reflexivity|].
        unfold fifo_ok, av_audio_fifo_size in *.
        simpl in H0. rewrite Z.gtb_ltb in H0. z_tests. lia.
      * conj_split; auto; try discriminate;
          try (intros [?|?]; discriminate).
  - (* FLUSHING *)
    unfold call_flush.
    pose proof (encode_audio_frame_effect
                  (encode_env env (encode_calls s)) None false (world s))
      as Heff.
    destruct (encode_audio_frame _ None false (world s)) as [[r dw] w].
    cbn [fst snd] in Heff. destruct Heff as (Hf & _).
    destruct (Hflush (or_introl eq_refl)) as [Hfin Hzero].
    destruct (nonzero r); [|destruct dw]; cbn; rewrite ?Hphase, Hf;
      conj_split; auto; try discriminate; try congruence;
      try (intros [?|?]; discriminate).
  - rewrite Hphase. conj_split; auto.
  - rewrite Hphase. conj_split; auto.
Qed.

Lemma main_start_invariant :
  loop_invariant outccx (main_start (av_audio_fifo_alloc 1)).
Proof.
  unfold loop_invariant, level, fifo_ok. cbn.
  conj_split; try lia; try discriminate. intros [?|?]; discriminate.
Qed.

Lemma reachable_invariant (s : main_state) :
  reachable env outccx s -> loop_invariant outccx s.
Proof.
  intros [n ->]. induction n as [|n IH].
  - apply main_start_invariant.
  - rewrite main_loop_succ. apply main_step_invariant, IH.
Qed.

Lemma reachable_step (s : main_state) :
  reachable env outccx s -> reachable env outccx (main_step env outccx s).
Proof.
  intros [n ->]. exists (S n). now rewrite main_loop_succ.
Qed.

Lemma reachable_loop (n : nat) (s : main_state) :
  reachable env outccx s -> reachable env outccx (main_loop env outccx n s).
Proof.
  intros [m ->]. exists (m + n)%nat. now rewrite main_loop_add.
Qed.

(** What [main_end] does after [DONE]: it prints the count of rounds and
    writes the trailer. *)
Lemma main_end_done (s : main_state) :
  at_phase s = DONE ->
  exists ret h,
    main_end env s
    = Return ret
        (history (world s)
           ++ Stdout "outer loop, how many times? %u" (outlooptimes s)
           :: WriteTrailer :: h)
    /\ (0 <= av_write_trailer_ret env -> ret = 0 /\ h = []).
Proof.
  intros Hphase. unfold main_end, write_output_file_trailer, fprintf_stderr.
  rewrite Hphase.
  destruct (Z.ltb_spec (av_write_trailer_ret env) 0) as [Hneg|Hpos].
  - rewrite nonzero_negative by assumption. cbn.
    eexists _, [_]. rewrite <- !app_assoc. split; [reflexivity|]. lia.
  - cbn. eexists _, []. rewrite <- !app_assoc. split; [reflexivity|]. auto.
Qed.

End Loop.

Section Counter.

Context {codes : av_error_codes}.

Lemma running_pts_app (start : Z) (l1 l2 : list Z) :
  running_pts start (l1 ++ l2)
  = running_pts start l1 ++ running_pts (start + sum l1) l2.
Proof.
  revert start. induction l1 as [|n l1 IH]; intros start; simpl.
  - unfold sum. simpl. now rewrite Z.add_0_r.
  - rewrite IH. unfold sum. simpl. now rewrite Z.add_assoc.
Qed.

Lemma running_pts_non_decreasing (start : Z) (sizes : list Z) :
  Forall (fun n => 0 <= n) sizes -> non_decreasing (running_pts start sizes).
Proof.
  intros H. revert start.
  induction H as [|n sizes Hn _ IH]; intros start; [exact I|].
  specialize (IH (start + n)).
  destruct sizes as [|m sizes]; [exact I|].
  simpl in *. split; [lia | exact IH].
Qed.

(** The counter and the time stamps over a sequence of calls of
    [encode_audio_frame], from any state whose counter is not negative. *)
Lemma encode_all_effect (calls : list (encode_answers * option AVFrame)) :
  forall st : state,
    0 <= pts st ->
    Forall (fun call => 0 <= call_samples call) calls ->
    pts st + sum (map call_samples calls) <= INT64_MAX ->
    exists new,
      sent_frames (history (encode_all calls st))
      = sent_frames (history st) ++ new
      /\ map frame_pts new = running_pts (pts st) (map nb_samples new)
      /\ pts (encode_all calls st) = pts st + sum (map nb_samples new)
      /\ Forall (fun n => 0 <= n) (map nb_samples new)
      /\ sum (map nb_samples new) <= sum (map call_samples calls)
      /\ map nb_samples new = pushed_samples calls.
Proof.
  induction calls as [|[a frame] calls IH]; intros st Hpts Hpos Hmax.
  - exists []. simpl. rewrite app_nil_r. unfold sum. simpl.
    repeat split; auto; lia.
  - inversion Hpos as [|? ? Hcall Hrest]; subst.
    change (sum (map call_samples ((a, frame) :: calls)))
      with (call_samples (a, frame) + sum (map call_samples calls)) in *.
    assert (Htail : 0 <= sum (map call_samples calls)).
    { clear - Hrest. induction Hrest; unfold sum in *; simpl; lia. }
    change (pushed_samples ((a, frame) :: calls))
      with (match frame with
            | Some f => if output_packet_alloc_ok a
                        then [nb_samples f] else []
            | None => []
            end ++ pushed_samples calls).
    cbn [encode_all].
    pose proof (encode_audio_frame_effect a frame false st) as Heff.
    destruct (encode_audio_frame a frame false st) as [[r dw] st1].
    cbn [fst snd] in Heff. destruct Heff as (_ & _ & Hcase).
    destruct Hcase as [(Hs & Hp & Hwhy) | (f & -> & Halloc & Hs & Hp)].
    + assert (Hs0 : call_samples (a, frame) = match frame with
                                               | Some f => nb_samples f
                                               | None => 0
                                               end) by reflexivity.
      destruct (IH st1) as (new & Hnew & Hrun & Hsum & Hnn & Hle & Hpush);
        [ lia | assumption | rewrite Hp; destruct frame; lia | ].
      exists new. rewrite Hnew, Hs, <- Hp.
      assert (Hnone : match frame with
                      | Some f => if output_packet_alloc_ok a
                                  then [nb_samples f] else []
                      | None => []
                      end = [])
        by (destruct Hwhy as [-> | ->]; [|destruct frame]; reflexivity).
      rewrite Hnone.
      repeat split; auto. destruct frame; lia.
    + assert (Hs0 : call_samples (a, Some f) = nb_samples f) by reflexivity.
      rewrite Hs0 in *.
      rewrite int64_in_range in Hp by (unfold INT64_MAX in *; lia).
      destruct (IH st1) as (new & Hnew & Hrun & Hsum & Hnn & Hle & Hpush);
        [ lia | assumption | lia | ].
      exists ({| nb_samples := nb_samples f; frame_pts := pts st |} :: new).
      rewrite Hnew, Hs, <- app_assoc, Halloc. simpl.
      rewrite Hrun, Hsum, Hp. unfold sum in *. simpl.
      repeat split; auto; try lia. f_equal. exact Hpush.
Qed.

Lemma encode_all_app (before after : list (encode_answers * option AVFrame))
    (st : state) :
  encode_all (before ++ after) st = encode_all after (encode_all before st).
Proof.
  revert st. induction before as [|[a frame] before IH]; intros st;
    [reflexivity|].
  cbn [app encode_all].
  destruct (encode_audio_frame a frame false st) as [[r dw] st1]. apply IH.
Qed.

Lemma sum_not_negative (l : list Z) :
  Forall (fun n => 0 <= n) l -> 0 <= sum l.
Proof. intros H. induction H; unfold sum in *; simpl; lia. Qed.

(** C3.  The Global Presentation Counter [pts] starts at 0 and, after the
    frames of a sequence of calls of [encode_audio_frame] have been handed
    to the encoder, equals the sum of their sample counts: the frames
    handed to the encoder are those the calls were given, in their order
    (but for a call that fails before it comes to the frame, whose packet
    is not allocated), and the counter is the sum of the sample counts of
    these.  Each frame bears the value the counter had before it was moved
    on by that frame's sample count, so the time stamps of successive
    frames never go down; and the counter itself never goes down from one
    call to a later one.  The sample counts are counts (not negative) and
    their sum is in the range of [int64_t]. *)
Theorem pts_is_the_sum_of_the_samples_pushed
    (calls : list (encode_answers * option AVFrame)) (st : state) :
  pts st = 0 ->
  sent_frames (history st) = [] ->
  Forall (fun call => 0 <= call_samples call) calls ->
  sum (map call_samples calls) <= INT64_MAX ->
  let st' := encode_all calls st in
  let frames := sent_frames (history st') in
  (forall af, pts (world (main_start af)) = 0)
  /\ pts st' = sum (map nb_samples frames)
  /\ map frame_pts frames = running_pts 0 (map nb_samples frames)
  /\ non_decreasing (map frame_pts frames)
  /\ map nb_samples frames = pushed_samples calls
  /\ pts st' = sum (pushed_samples calls)
  /\ map frame_pts frames = running_pts 0 (pushed_samples calls)
  /\ (Forall (fun call => output_packet_alloc_ok (fst call) = true) calls ->
      pts st' = sum (map call_samples calls))
  /\ (forall before after,
         calls = before ++ after ->
         0 <= pts (encode_all before st) <= pts st').
Proof.
  intros Hzero Hnone Hpos Hmax. cbv zeta.
  destruct (encode_all_effect calls st)
    as (new & Hnew & Hrun & Hsum & Hnn & _ & Hpush);
    try assumption; try lia.
  rewrite Hnew, Hnone, Hsum, Hzero in *. simpl.
  split; [reflexivity|].
  split; [reflexivity|].
  split; [assumption|].
  split; [rewrite Hrun; apply running_pts_non_decreasing; assumption|].
  split; [assumption|].
  split; [rewrite Hpush; reflexivity|].
  split; [rewrite <- Hpush; assumption|].
  split.
  - intros Hall. rewrite Hpush. clear - Hall.
    induction Hall as [|[a [f|]] calls Ha _ IH]; [reflexivity| |];
      cbn [fst] in Ha; unfold sum in *; cbn; rewrite ?Ha; cbn;
      unfold pushed_samples in IH; lia.
  - intros before after ->.
    apply Forall_app in Hpos. destruct Hpos as [Hbefore Hafter].
    rewrite map_app, sum_app in Hmax.
    assert (Htail : 0 <= sum (map call_samples after))
      by (apply sum_not_negative, Forall_map; assumption).
    destruct (encode_all_effect before st)
      as (new1 & _ & _ & Hsum1 & Hnn1 & Hle1 & _);
      try assumption; try lia.
    pose proof (sum_not_negative _ Hnn1) as Hpos1.
    assert (Hten : pts (encode_all (before ++ after) st)
                   = sum (map nb_samples new))
      by (rewrite Hsum; lia).
    rewrite encode_all_app in Hten.
    destruct (encode_all_effect after (encode_all before st))
      as (new2 & _ & _ & Hsum2 & Hnn2 & _);
      try assumption; try lia.
    pose proof (sum_not_negative _ Hnn2) as Hpos2.
    lia.
Qed.

(** From [FLUSHING] the loop only flushes: the counter stays. *)
Lemma flushing_keeps_pts (env : environment) (outccx : AVCodecContext)
    (n : nat) :
  forall s : main_state,
    at_phase s = FLUSHING \/ at_phase s = DONE \/ at_phase s = FAILED ->
    pts (world (main_loop env outccx n s)) = pts (world s)
    /\ sent_frames (history (world (main_loop env outccx n s)))
       = sent_frames (history (world s)).
Proof.
  induction n as [|n IH]; intros s Hphase; [split; reflexivity|].
  cbn [main_loop].
  assert (Hstep :
    (at_phase (main_step env outccx s) = FLUSHING
     \/ at_phase (main_step env outccx s) = DONE
     \/ at_phase (main_step env outccx s) = FAILED)
    /\ pts (world (main_step env outccx s)) = pts (world s)
    /\ sent_frames (history (world (main_step env outccx s)))
       = sent_frames (history (world s))).
  { unfold main_step.
    destruct Hphase as [H|[H|H]]; rewrite H; auto.
    unfold call_flush.
    pose proof (encode_audio_frame_effect
                  (encode_env env (encode_calls s)) None false (world s))
      as Heff.
    destruct (encode_audio_frame _ None false (world s)) as [[r dw] w].
    cbn [fst snd] in Heff.
    destruct Heff as (_ & _ & [(Hs & Hp & _) | (f & Hf & _)]);
      [|discriminate].
    destruct (nonzero r); [|destruct dw]; cbn; rewrite ?H; auto. }
  destruct Hstep as (Hphase' & Hp & Hs).
  destruct (IH _ Hphase') as [Hp' Hs'].
  rewrite Hp', Hs'. split; assumption.
Qed.

(** C10.  Handing the null frame to the encoder leaves the Global
    Presentation Counter as it was; a call of [encode_audio_frame] moves
    the counter only when it hands a frame that is not null to the encoder;
    so the counter keeps its value over any number of rounds of the flush
    loop. *)
Theorem null_frame_leaves_pts_unchanged :
  (forall a dp st, pts (snd (encode_audio_frame a None dp st)) = pts st)
  /\ (forall a frame dp st,
         pts (snd (encode_audio_frame a frame dp st)) <> pts st ->
         exists f,
           frame = Some f
           /\ sent_frames (history (snd (encode_audio_frame a frame dp st)))
              = sent_frames (history st)
                  ++ [{| nb_samples := nb_samples f; frame_pts := pts st |}])
  /\ (forall env outccx n s,
         at_phase s = FLUSHING ->
         pts (world (main_loop env outccx n s)) = pts (world s)).
Proof.
  split; [|split].
  - intros a dp st.
    destruct (encode_audio_frame_effect a None dp st)
      as (_ & _ & [(_ & Hp & _) | (f & Hf & _)]); [exact Hp | discriminate].
  - intros a frame dp st Hne.
    destruct (encode_audio_frame_effect a frame dp st)
      as (_ & _ & [(_ & Hp & _) | (f & Hf & _ & Hs & _)]);
      [contradiction|].
    exists f. split; assumption.
  - intros env outccx n s Hphase.
    apply flushing_keeps_pts. left. assumption.
Qed.

End Counter.

Section Flush.

Context {codes : av_error_codes}.
Variable env : environment.
Variable outccx : AVCodecContext.

(** One step of the flush loop: one more call of [encode_audio_frame] with
    the null frame; the loop goes on only if that call wrote a packet. *)
Lemma main_step_flushing (s : main_state) :
  at_phase s = FLUSHING ->
  let a := encode_env env (encode_calls s) in
  let s' := main_step env outccx s in
  encode_calls s' = S (encode_calls s)
  /\ (null_sends (history (world s')) <= S (null_sends (history (world s))))%nat
  /\ (at_phase s' = FLUSHING \/ at_phase s' = DONE \/ at_phase s' = FAILED)
  /\ (yields_no_packet a -> at_phase s' = DONE)
  /\ (yields_packet a -> at_phase s' = FLUSHING).
Proof.
  intros Hphase. cbv zeta. unfold main_step. rewrite Hphase.
  unfold call_flush.
  pose proof (encode_audio_frame_no_packet
                (encode_env env (encode_calls s)) None false (world s))
    as Hnone.
  pose proof (encode_audio_frame_packet
                (encode_env env (encode_calls s)) None false (world s))
    as Hsome.
  pose proof (encode_audio_frame_return
                (encode_env env (encode_calls s)) None false (world s))
    as Hret.
  destruct (encode_audio_frame _ None false (world s)) as [[r dw] w].
  cbn [fst snd] in *. destruct Hret as (Hn & _).
  assert (Hle : (null_sends (history w)
                 <= S (null_sends (history (world s))))%nat)
    by (destruct (output_packet_alloc_ok _); lia).
  destruct (nonzero r) eqn:Hr; [|destruct dw]; cbn; rewrite ?Hphase;
    conj_split; auto;
    intros H; try (apply Hnone in H); try (apply Hsome in H);
    inversion H; subst; simpl in Hr; discriminate.
Qed.

(** The flush loop ends within [d + 1] steps when the encoder has nothing
    left to hand out from [d] calls on. *)
Lemma flushing_ends (d : nat) :
  forall s : main_state,
    at_phase s = FLUSHING ->
    (forall k, (encode_calls s + d <= k)%nat ->
               yields_no_packet (encode_env env k)) ->
    exists m,
      (1 <= m <= d + 1)%nat
      /\ (at_phase (main_loop env outccx m s) = DONE
          \/ at_phase (main_loop env outccx m s) = FAILED)
      /\ (null_sends (history (world (main_loop env outccx m s)))
          <= null_sends (history (world s)) + m)%nat
      /\ ((forall k, (encode_calls s <= k < encode_calls s + d)%nat ->
                     yields_packet (encode_env env k)
                     \/ yields_no_packet (encode_env env k)) ->
          at_phase (main_loop env outccx m s) = DONE).
Proof.
  induction d as [|d IH]; intros s Hphase Hquiet.
  - exists 1%nat. cbn [main_loop].
    destruct (main_step_flushing s Hphase) as (_ & Hn & _ & Hdone & _).
    assert (Hd : at_phase (main_step env outccx s) = DONE)
      by (apply Hdone, Hquiet; lia).
    repeat split; auto; lia.
  - destruct (main_step_flushing s Hphase) as (Hcalls & Hn & Hnext & Hdone & Hgo).
    destruct Hnext as [Hnext|Hnext].
    + destruct (IH (main_step env outccx s) Hnext)
        as (m & Hm & Hend & Hnulls & Hok).
      { intros k Hk. apply Hquiet. lia. }
      exists (S m). cbn [main_loop].
      split; [lia|]. split; [assumption|]. split; [lia|].
      intros Hall. apply Hok. intros k Hk. apply Hall. lia.
    + exists 1%nat. cbn [main_loop].
      split; [lia|]. split; [tauto|]. split; [lia|].
      intros Hall.
      destruct (Hall (encode_calls s)) as [Hp|Hnp]; [lia| |].
      * apply Hgo in Hp. destruct Hnext as [H|H]; congruence.
      * apply Hdone. assumption.
Qed.

(** C7.  For every encoder which, from its [N]-th call on, hands out no
    packet -- its buffered output is exhausted and every further null
    frame consistently yields no packet -- the [FLUSHING] loop (push the
    null frame, take one packet, again while a packet was produced) ends
    after at most [N - encode_calls + 1] rounds; unless a library call
    fails in these rounds it ends in [DONE], and then the container
    trailer is written. *)
Theorem flushing_terminates_and_the_trailer_is_written
    (s : main_state) (N : nat) :
  at_phase s = FLUSHING ->
  (forall k, (N <= k)%nat -> yields_no_packet (encode_env env k)) ->
  exists m,
    (1 <= m <= N - encode_calls s + 1)%nat
    /\ let s' := main_loop env outccx m s in
       (at_phase s' = DONE \/ at_phase s' = FAILED)
       /\ (null_sends (history (world s'))
           <= null_sends (history (world s)) + m)%nat
       /\ ((forall k, (encode_calls s <= k < N)%nat ->
                      yields_packet (encode_env env k)
                      \/ yields_no_packet (encode_env env k)) ->
           at_phase s' = DONE)
       /\ (at_phase s' = DONE ->
           exists ret h,
             main_end env s'
             = Return ret
                 (history (world s')
                    ++ Stdout "outer loop, how many times? %u"
                         (outlooptimes s')
                    :: WriteTrailer :: h)
             /\ (0 <= av_write_trailer_ret env -> ret = 0 /\ h = [])).
Proof.
  intros Hphase Hquiet.
  destruct (flushing_ends (N - encode_calls s) s Hphase)
    as (m & Hm & Hend & Hnulls & Hok).
  { intros k Hk. apply Hquiet. lia. }
  exists m. split; [assumption|]. cbv zeta.
  split; [assumption|]. split; [assumption|]. split.
  - intros Hall. apply Hok. intros k Hk. apply Hall. lia.
  - apply (main_end_done env).
Qed.

End Flush.

Section CallsThatSucceed.

Context {codes : av_error_codes}.

(** A call of the encoder in which no library call fails returns 0. *)
Lemma encode_audio_frame_succeeds (a : encode_answers)
    (frame : option AVFrame) (dp : bool) (st : state) :
  encode_succeeds a ->
  fst (fst (encode_audio_frame a frame dp st)) = 0.
Proof.
  intros [Hyes | Hno].
  - now rewrite (encode_audio_frame_packet a frame dp st Hyes).
  - now rewrite (encode_audio_frame_no_packet a frame dp st Hno).
Qed.

(** A drain in which no library call fails returns 0 and hands its frame
    to the encoder. *)
Lemma load_encode_and_write_succeeds (fa : frame_answers)
    (ea : encode_answers) (outccx : AVCodecContext) (st : state) :
  let size := Z.min (av_audio_fifo_size (fifo st)) (frame_size outccx) in
  frame_succeeds fa -> encode_succeeds ea ->
  0 <= size ->
  fst (load_encode_and_write fa ea outccx st) = 0
  /\ sent_frames (history (snd (load_encode_and_write fa ea outccx st)))
     = sent_frames (history st)
         ++ [{| nb_samples := size; frame_pts := pts st |}].
Proof.
  cbv zeta. intros [Halloc Hbuf] Hgood Hsize.
  assert (Hpacket : output_packet_alloc_ok ea = true)
    by (destruct Hgood as [(H & _) | (H & _)]; exact H).
  unfold load_encode_and_write, init_output_frame.
  rewrite FFMIN_is_min.
  set (size := Z.min (av_audio_fifo_size (fifo st)) (frame_size outccx)) in *.
  rewrite Halloc. cbn [negb].
  destruct (Z.ltb_spec (av_frame_get_buffer_ret fa) 0); [lia|].
  change (nonzero 0) with false. cbv iota.
  unfold av_audio_fifo_read.
  destruct (Z.ltb_spec size 0); [lia|].
  assert (Hmin : Z.min size (fifo_nb_samples (fifo st)) = size)
    by (unfold size, av_audio_fifo_size; lia).
  rewrite Hmin, Z.ltb_irrefl.
  set (st1 := with_fifo _ st).
  pose proof (encode_audio_frame_succeeds ea
                (Some {| nb_samples := size; frame_pts := 0 |}) false st1
                Hgood) as Hret.
  pose proof (encode_audio_frame_effect ea
                (Some {| nb_samples := size; frame_pts := 0 |}) false st1)
    as (_ & _ & Hsent).
  destruct (encode_audio_frame ea _ false st1) as [[r0 dw] st0].
  cbn [fst snd] in Hret, Hsent. subst r0.
  change (nonzero 0) with false. cbv iota. cbn [fst snd].
  split; [reflexivity|].
  destruct Hsent as [(_ & _ & [Habs | Habs]) | (f & Hf & _ & Hsent & _)].
  - discriminate.
  - congruence.
  - inversion Hf; subst f. exact Hsent.
Qed.

End CallsThatSucceed.

Section Driver.

Context {codes : av_error_codes}.
Variable env : environment.
Variable outccx : AVCodecContext.

(** What [main_step] does in [DRAINING] when the test of line 782 holds. *)
Lemma main_step_draining (s : main_state) :
  at_phase s = DRAINING -> drain_condition outccx s = true ->
  main_step env outccx s
  = (if nonzero (fst (call_drain env outccx s))
     then goto FAILED (snd (call_drain env outccx s))
     else snd (call_drain env outccx s)).
Proof.
  intros Hphase Hcond. unfold main_step. rewrite Hphase, Hcond.
  destruct (call_drain env outccx s) as [r s']. reflexivity.
Qed.

(** C5.  Every Frame Drain call computes its frame size as the minimum of
    the buffer level and the encoder's frame size and takes exactly that
    many samples out of the buffer; the count never exceeds the level, so
    whenever the driver calls the drain with samples in the buffer, the
    read returns the full count and the fatal short-read branch (line 689)
    is not taken: its line is not printed. *)
Theorem drain_takes_the_minimum_and_never_reads_short (s : main_state) :
  reachable env outccx s ->
  at_phase s = DRAINING ->
  drain_condition outccx s = true ->
  0 < level s ->
  let size := FFMIN (level s) (frame_size outccx) in
  let s' := main_step env outccx s in
  size = Z.min (level s) (frame_size outccx)
  /\ 0 < size <= level s
  /\ fst (av_audio_fifo_read (fifo (world s)) size) = size
  /\ (exists msgs,
         stderr_lines (history (world s'))
         = stderr_lines (history (world s)) ++ msgs
         /\ ~ In short_read_line msgs)
  /\ (output_frame_alloc_ok (frame_env env (drain_calls s)) = true ->
      0 <= av_frame_get_buffer_ret (frame_env env (drain_calls s)) ->
      level s' = level s - size)
  /\ (sent_frames (history (world s')) = sent_frames (history (world s))
      \/ sent_frames (history (world s'))
         = sent_frames (history (world s))
             ++ [{| nb_samples := size; frame_pts := pts (world s) |}]).
Proof.
  intros Hreach Hphase Hcond Hlevel. cbv zeta.
  destruct (reachable_invariant env outccx s Hreach)
    as (Hok & Hpos & _).
  specialize (Hpos Hlevel).
  rewrite FFMIN_is_min.
  set (size := Z.min (level s) (frame_size outccx)).
  assert (Hsize : 0 < size <= level s) by (unfold size; lia).
  split; [reflexivity|]. split; [assumption|].
  split.
  { unfold level, av_audio_fifo_size in *.
    rewrite av_audio_fifo_read_exact by lia. reflexivity. }
  rewrite (main_step_draining s Hphase Hcond).
  unfold call_drain.
  destruct (load_encode_and_write _ _ _ _) as [r w] eqn:E.
  apply load_encode_and_write_effect in E. cbv zeta in E.
  fold (level s) in E. fold size in E.
  destruct E as (_ & _ & _ & Hsent & _ & Hread).
  destruct Hread as [Hlev Hmsgs]; [lia|].
  cbn [fst snd]. unfold level at 1. rewrite world_after_a_call.
  cbn [world].
  split; [assumption|]. split.
  - intros Halloc Hbuf. rewrite Halloc in Hlev.
    destruct (Z.leb_spec 0 (av_frame_get_buffer_ret
                              (frame_env env (drain_calls s)))); [|lia].
    exact Hlev.
  - destruct Hsent as [(Hs & _)|(Hs & _)]; [left|right]; assumption.
Qed.

(** Once [finished] is set it stays set, and no decode step is made. *)
Lemma main_step_after_finished (s : main_state) :
  loop_invariant outccx s -> finished s = true ->
  finished (main_step env outccx s) = true
  /\ pump_calls (main_step env outccx s) = pump_calls s.
Proof.
  intros (_ & _ & Hfill & _) Hfin. specialize (Hfill Hfin).
  unfold main_step.
  destruct (at_phase s) eqn:Hphase; try contradiction; auto.
  - destruct (drain_condition outccx s).
    + unfold call_drain.
      destruct (load_encode_and_write _ _ _ _) as [r w].
      destruct (nonzero r); cbn; auto.
    + rewrite Hfin. cbn. auto.
  - unfold call_flush.
    destruct (encode_audio_frame _ _ _ _) as [[r dw] w].
    destruct (nonzero r); [|destruct dw]; cbn; auto.
Qed.

Lemma main_loop_after_finished (n : nat) (s : main_state) :
  reachable env outccx s -> finished s = true ->
  finished (main_loop env outccx n s) = true
  /\ at_phase (main_loop env outccx n s) <> FILLING
  /\ pump_calls (main_loop env outccx n s) = pump_calls s.
Proof.
  intros Hreach Hfin. induction n as [|n IH].
  - cbn. repeat split; auto.
    destruct (reachable_invariant env outccx s Hreach) as (_ & _ & Hfill & _).
    auto.
  - rewrite main_loop_succ. destruct IH as (Hfin' & _ & Hcalls).
    pose proof (reachable_loop env outccx n s Hreach) as Hreach'.
    pose proof (reachable_invariant env outccx _ Hreach') as Hinv.
    destruct (main_step_after_finished _ Hinv Hfin') as [Hf Hc].
    split; [assumption|]. split; [|congruence].
    pose proof (reachable_step env outccx _ Hreach') as Hreach''.
    destruct (reachable_invariant env outccx _ Hreach'')
      as (_ & _ & Hfill & _).
    auto.
Qed.

(** The [DRAINING] pass after the end of the stream: the buffer holds
    less than one frame; when it is empty the loop goes on to [FLUSHING];
    otherwise one drain hands all of it to the encoder as one frame, after
    which the loop goes on to [FLUSHING]. *)
Lemma draining_after_finished (s : main_state) :
  reachable env outccx s ->
  finished s = true ->
  at_phase s = DRAINING ->
  0 <= level s < frame_size outccx
  /\ (level s = 0 -> main_step env outccx s = goto FLUSHING s)
  /\ (0 < level s ->
      let s1 := main_step env outccx s in
      at_phase s1 = FAILED
      \/ (at_phase s1 = DRAINING
          /\ level s1 = 0
          /\ sent_frames (history (world s1))
             = sent_frames (history (world s))
                 ++ [{| nb_samples := level s;
                        frame_pts := pts (world s) |}]
          /\ main_step env outccx s1 = goto FLUSHING s1)).
Proof.
  intros Hreach Hfin Hphase.
  pose proof (reachable_invariant env outccx s Hreach) as Hinv.
  destruct Hinv as (Hok & Hpos & Hfill & Hdrain & Hflush).
  specialize (Hdrain Hfin Hphase).
  assert (Hlevel : 0 <= level s)
    by (unfold level, fifo_ok, av_audio_fifo_size in *; lia).
  split; [lia|]. split.
  - intros Hzero. unfold main_step. rewrite Hphase.
    unfold drain_condition. fold (level s). rewrite Hzero, Hfin.
    destruct (Z.geb_spec 0 (frame_size outccx)); [lia|]. reflexivity.
  - intros Hsome. cbv zeta.
    assert (Hcond : drain_condition outccx s = true).
    { unfold drain_condition. fold (level s). rewrite Hfin.
      apply orb_true_iff. right. simpl. rewrite Z.gtb_ltb.
      apply Z.ltb_lt. assumption. }
    rewrite (main_step_draining s Hphase Hcond).
    unfold call_drain.
    destruct (load_encode_and_write _ _ _ _) as [r w] eqn:E.
    apply load_encode_and_write_effect in E. cbv zeta in E.
    fold (level s) in E.
    replace (Z.min (level s) (frame_size outccx)) with (level s) in E
      by lia.
    destruct E as (_ & _ & _ & Hsent & _ & Hread).
    destruct Hread as [Hlev _]; [lia|].
    cbn [fst snd].
    destruct (nonzero r) eqn:Hr; z_tests; [left; reflexivity|right].
    subst r.
    destruct Hsent as [(_ & _ & Habs)|(Hs & _)]; [contradiction|].
    destruct (output_frame_alloc_ok (frame_env env (drain_calls s))
              && (0 <=? av_frame_get_buffer_ret
                          (frame_env env (drain_calls s))));
      [|destruct Hlev; contradiction].
    cbn [at_phase world]. unfold level at 1. cbn [world].
    split; [assumption|]. split; [lia|]. split; [assumption|].
    unfold main_step. cbn [at_phase]. rewrite Hphase.
    unfold drain_condition. cbn [world finished].
    rewrite Hlev, Hfin, Z.sub_diag.
    destruct (Z.geb_spec 0 (frame_size outccx)); [lia|]. reflexivity.
Qed.

(** After the end of the stream the loop is over within [N + 3] steps when
    the encoder has nothing left to hand out from its [N]-th call on. *)
Lemma the_loop_ends_after_finished (s : main_state) (N : nat) :
  reachable env outccx s ->
  finished s = true ->
  (forall k, (N <= k)%nat -> yields_no_packet (encode_env env k)) ->
  exists m,
    (m <= N + 3)%nat
    /\ (at_phase (main_loop env outccx m s) = DONE
        \/ at_phase (main_loop env outccx m s) = FAILED).
Proof.
  intros Hreach Hfin Hquiet.
  assert (Hflushing : forall s',
             at_phase s' = FLUSHING ->
             exists m,
               (m <= N + 1)%nat
               /\ (at_phase (main_loop env outccx m s') = DONE
                   \/ at_phase (main_loop env outccx m s') = FAILED)).
  { intros s' Hphase.
    destruct (flushing_ends env outccx (N - encode_calls s') s' Hphase)
      as (m & Hm & Hend & _).
    - intros k Hk. apply Hquiet. lia.
    - exists m. split; [lia | assumption]. }
  pose proof (reachable_invariant env outccx s Hreach)
    as (_ & _ & Hfill & _).
  destruct (at_phase s) eqn:Hphase.
  - exfalso. apply (Hfill Hfin). reflexivity.
  - destruct (draining_after_finished s Hreach Hfin Hphase)
      as (Hlevel & Hempty & Hsome).
    destruct (Z.eq_dec (level s) 0) as [Hzero|Hzero].
    + destruct (Hflushing (goto FLUSHING s) eq_refl) as (m & Hm & Hend).
      exists (S m). cbn [main_loop]. rewrite (Hempty Hzero).
      split; [lia | assumption].
    + destruct Hsome as [Hfailed|(_ & _ & _ & Hnext)]; [lia| |].
      * exists 1%nat. cbn [main_loop]. split; [lia|]. right. assumption.
      * destruct (Hflushing (goto FLUSHING (main_step env outccx s)) eq_refl)
          as (m & Hm & Hend).
        exists (S (S m)). cbn [main_loop]. rewrite Hnext.
        split; [lia | assumption].
  - destruct (Hflushing s Hphase) as (m & Hm & Hend).
    exists m. split; [lia | assumption].
  - exists 0%nat. cbn. split; [lia|]. left. assumption.
  - exists 0%nat. cbn. split; [lia|]. right. assumption.
Qed.

(** The drain after the end of the stream when no library call of it
    fails: it does not fail, and hands the rest of the buffer to the
    encoder. *)
Lemma draining_succeeds_after_finished (s : main_state) :
  reachable env outccx s ->
  finished s = true ->
  at_phase s = DRAINING ->
  0 < level s ->
  frame_succeeds (frame_env env (drain_calls s)) ->
  encode_succeeds (encode_env env (encode_calls s)) ->
  let s1 := main_step env outccx s in
  at_phase s1 = DRAINING
  /\ level s1 = 0
  /\ drain_calls s1 = S (drain_calls s)
  /\ sent_frames (history (world s1))
     = sent_frames (history (world s))
         ++ [{| nb_samples := level s; frame_pts := pts (world s) |}]
  /\ main_step env outccx s1 = goto FLUSHING s1.
Proof.
  intros Hreach Hfin Hphase Hsome Hframe Hencode. cbv zeta.
  destruct (reachable_invariant env outccx s Hreach) as (_ & Hpos & _).
  specialize (Hpos Hsome).
  assert (Hcond : drain_condition outccx s = true).
  { unfold drain_condition. fold (level s). rewrite Hfin.
    apply orb_true_iff. right. simpl. rewrite Z.gtb_ltb.
    apply Z.ltb_lt. assumption. }
  assert (Hcalls : drain_calls (main_step env outccx s) = S (drain_calls s)
                   /\ (fst (call_drain env outccx s) = 0 ->
                       at_phase (main_step env outccx s) = DRAINING)).
  { rewrite (main_step_draining s Hphase Hcond). unfold call_drain.
    destruct (load_encode_and_write _ _ _ _) as [r w]. cbn [fst snd].
    split.
    - destruct (nonzero r); reflexivity.
    - intros ->. cbn. exact Hphase. }
  destruct Hcalls as [Hcalls Hgood].
  assert (Hret : fst (call_drain env outccx s) = 0).
  { unfold call_drain.
    pose proof (load_encode_and_write_succeeds _ _ outccx (world s)
                  Hframe Hencode) as Hs.
    cbv zeta in Hs.
    destruct Hs as [Hs _]; [fold (level s); lia|].
    destruct (load_encode_and_write _ _ _ _) as [r w]. exact Hs. }
  destruct (draining_after_finished s Hreach Hfin Hphase) as (_ & _ & Hstep).
  destruct (Hstep Hsome) as [Hfailed | (H1 & H2 & H3 & H4)].
  - rewrite (Hgood Hret) in Hfailed. discriminate.
  - conj_split; assumption.
Qed.

(** The end of the stream when no library call fails: the [DRAINING] pass
    makes one drain if the buffer holds samples and none if it is empty,
    the loop then is in [FLUSHING], and from there it comes to [DONE]
    without another frame for the encoder. *)
Lemma the_loop_is_done_after_finished (s : main_state) (N : nat) :
  reachable env outccx s ->
  finished s = true ->
  at_phase s = DRAINING ->
  frame_succeeds (frame_env env (drain_calls s)) ->
  (forall k, encode_succeeds (encode_env env k)) ->
  (forall k, (N <= k)%nat -> yields_no_packet (encode_env env k)) ->
  let d := if 0 <? level s then 2%nat else 1%nat in
  let last :=
    if 0 <? level s
    then [{| nb_samples := level s; frame_pts := pts (world s) |}]
    else [] in
  (forall j, (j < d)%nat -> at_phase (main_loop env outccx j s) = DRAINING)
  /\ at_phase (main_loop env outccx d s) = FLUSHING
  /\ level (main_loop env outccx d s) = 0
  /\ drain_calls (main_loop env outccx d s) = (drain_calls s + (d - 1))%nat
  /\ sent_frames (history (world (main_loop env outccx d s)))
     = sent_frames (history (world s)) ++ last
  /\ exists m,
      (d < m <= N + 3)%nat
      /\ at_phase (main_loop env outccx m s) = DONE
      /\ level (main_loop env outccx m s) = 0
      /\ sent_frames (history (world (main_loop env outccx m s)))
         = sent_frames (history (world s)) ++ last.
Proof.
  intros Hreach Hfin Hphase Hframe Hencode Hquiet.
  destruct (draining_after_finished s Hreach Hfin Hphase)
    as (Hlevel & Hempty & _).
  assert (Hflushing : forall s2,
             reachable env outccx s2 -> at_phase s2 = FLUSHING ->
             exists m,
               (1 <= m <= N + 1)%nat
               /\ at_phase (main_loop env outccx m s2) = DONE
               /\ level (main_loop env outccx m s2) = 0
               /\ sent_frames (history (world (main_loop env outccx m s2)))
                  = sent_frames (history (world s2))).
  { intros s2 Hreach2 Hphase2.
    destruct (flushing_ends env outccx (N - encode_calls s2) s2 Hphase2)
      as (m & Hm & _ & _ & Hdone).
    - intros k Hk. apply Hquiet. lia.
    - exists m. split; [lia|].
      assert (Hd : at_phase (main_loop env outccx m s2) = DONE)
        by (apply Hdone; intros k _; apply Hencode).
      split; [exact Hd|]. split.
      + destruct (reachable_invariant env outccx _
                    (reachable_loop env outccx m s2 Hreach2))
          as (_ & _ & _ & _ & Hflush).
        apply Hflush. right. exact Hd.
      + apply flushing_keeps_pts. left. exact Hphase2. }
  cbv zeta.
  set (d := if 0 <? level s then 2%nat else 1%nat).
  set (last := if 0 <? level s
               then [{| nb_samples := level s; frame_pts := pts (world s) |}]
               else []).
  assert (Hpass :
    (forall j, (j < d)%nat -> at_phase (main_loop env outccx j s) = DRAINING)
    /\ at_phase (main_loop env outccx d s) = FLUSHING
    /\ level (main_loop env outccx d s) = 0
    /\ drain_calls (main_loop env outccx d s) = (drain_calls s + (d - 1))%nat
    /\ sent_frames (history (world (main_loop env outccx d s)))
       = sent_frames (history (world s)) ++ last
    /\ (1 <= d <= 2)%nat).
  { subst d last. destruct (Z.ltb_spec 0 (level s)) as [Hsome | Hnone].
    - destruct (draining_succeeds_after_finished s Hreach Hfin Hphase Hsome
                  Hframe (Hencode _)) as (H1 & H2 & H3 & H4 & H5).
      assert (Hloop : main_loop env outccx 2 s
                      = goto FLUSHING (main_step env outccx s))
        by (cbn [main_loop]; exact H5).
      rewrite Hloop. unfold level. cbn [goto at_phase world drain_calls].
      conj_split; auto; try lia.
      intros j Hj. destruct j as [|[|j]]; [exact Hphase | exact H1 | lia].
    - assert (Hzero : level s = 0) by lia.
      assert (Hloop : main_loop env outccx 1 s = goto FLUSHING s)
        by (cbn [main_loop]; apply Hempty; exact Hzero).
      rewrite Hloop. unfold level. cbn [goto at_phase world drain_calls].
      rewrite app_nil_r.
      conj_split; auto; try lia.
      intros j Hj. destruct j as [|j]; [exact Hphase | lia]. }
  destruct Hpass as (Hbefore & Hflush & Hlev & Hdrains & Hsent & Hd).
  conj_split; try assumption.
  destruct (Hflushing (main_loop env outccx d s)
              (reachable_loop env outccx d s Hreach) Hflush)
    as (m & Hm & Hdone & Hlast & Hsame).
  exists (d + m)%nat. rewrite main_loop_add.
  conj_split; try assumption; try lia.
  rewrite Hsame. exact Hsent.
Qed.

(** C4.  Once the decoder has signalled the end of the stream
    ([finished] is set), the driver makes one more [DRAINING] pass, which
    hands the remaining partial content of the buffer (a level between 0
    and the encoder's frame size) to the encoder as one last, shorter frame
    and leaves the buffer empty; it then goes to [FLUSHING] and from there
    to [DONE], where the trailer is written; it never goes back to
    [FILLING] and makes no further decode step.  A fatal error of a library
    call ends the run in [FAILED] instead, and nothing else does: a drain
    whose frame and packet are allocated and whose encoder and muxer calls
    succeed does not fail, nor does a flush step whose calls succeed; and
    when no such call fails and the encoder has nothing left to hand out
    from some call on, the loop goes from [DRAINING] by one drain (none if
    the buffer is empty) to [FLUSHING] and on to [DONE] within a bounded
    number of steps, the frame of the remainder being the last frame the
    encoder is given. *)
Theorem end_of_stream_drains_once_then_flushes (s : main_state) :
  reachable env outccx s ->
  finished s = true ->
  (forall n,
      finished (main_loop env outccx n s) = true
      /\ at_phase (main_loop env outccx n s) <> FILLING
      /\ pump_calls (main_loop env outccx n s) = pump_calls s)
  /\ (at_phase s = DRAINING ->
      0 <= level s < frame_size outccx
      /\ (level s = 0 -> main_step env outccx s = goto FLUSHING s)
      /\ (0 < level s ->
          let s1 := main_step env outccx s in
          at_phase s1 = FAILED
          \/ (at_phase s1 = DRAINING
              /\ level s1 = 0
              /\ sent_frames (history (world s1))
                 = sent_frames (history (world s))
                     ++ [{| nb_samples := level s;
                            frame_pts := pts (world s) |}]
              /\ main_step env outccx s1 = goto FLUSHING s1)))
  /\ (at_phase s = FLUSHING ->
      level s = 0
      /\ (at_phase (main_step env outccx s) = FLUSHING
          \/ at_phase (main_step env outccx s) = DONE
          \/ at_phase (main_step env outccx s) = FAILED))
  /\ (at_phase s = DONE ->
      main_step env outccx s = s
      /\ exists ret h,
          main_end env s
          = Return ret
              (history (world s)
                 ++ Stdout "outer loop, how many times? %u" (outlooptimes s)
                 :: WriteTrailer :: h))
  /\ (forall N,
         (forall k, (N <= k)%nat -> yields_no_packet (encode_env env k)) ->
         exists m,
           (m <= N + 3)%nat
           /\ (at_phase (main_loop env outccx m s) = DONE
               \/ at_phase (main_loop env outccx m s) = FAILED))
  /\ (at_phase s = DRAINING ->
      0 < level s ->
      frame_succeeds (frame_env env (drain_calls s)) ->
      encode_succeeds (encode_env env (encode_calls s)) ->
      let s1 := main_step env outccx s in
      at_phase s1 = DRAINING
      /\ level s1 = 0
      /\ drain_calls s1 = S (drain_calls s)
      /\ sent_frames (history (world s1))
         = sent_frames (history (world s))
             ++ [{| nb_samples := level s; frame_pts := pts (world s) |}]
      /\ main_step env outccx s1 = goto FLUSHING s1)
  /\ (at_phase s = FLUSHING ->
      encode_succeeds (encode_env env (encode_calls s)) ->
      at_phase (main_step env outccx s) = FLUSHING
      \/ at_phase (main_step env outccx s) = DONE)
  /\ (forall N,
         at_phase s = DRAINING ->
         frame_succeeds (frame_env env (drain_calls s)) ->
         (forall k, encode_succeeds (encode_env env k)) ->
         (forall k, (N <= k)%nat -> yields_no_packet (encode_env env k)) ->
         let d := if 0 <? level s then 2%nat else 1%nat in
         let last :=
           if 0 <? level s
           then [{| nb_samples := level s; frame_pts := pts (world s) |}]
           else [] in
         (forall j, (j < d)%nat ->
                    at_phase (main_loop env outccx j s) = DRAINING)
         /\ at_phase (main_loop env outccx d s) = FLUSHING
         /\ level (main_loop env outccx d s) = 0
         /\ drain_calls (main_loop env outccx d s)
            = (drain_calls s + (d - 1))%nat
         /\ sent_frames (history (world (main_loop env outccx d s)))
            = sent_frames (history (world s)) ++ last
         /\ exists m,
             (d < m <= N + 3)%nat
             /\ at_phase (main_loop env outccx m s) = DONE
             /\ level (main_loop env outccx m s) = 0
             /\ sent_frames (history (world (main_loop env outccx m s)))
                = sent_frames (history (world s)) ++ last).
Proof.
  intros Hreach Hfin.
  pose proof (reachable_invariant env outccx s Hreach) as Hinv.
  destruct Hinv as (Hok & Hpos & Hfill & Hdrain & Hflush).
  split; [intros n; apply main_loop_after_finished; assumption|].
  split; [|split; [|split; [|split; [|split; [|split]]]]].
  - intros Hphase. apply draining_after_finished; assumption.
  - intros Hphase.
    split; [apply Hflush; left; assumption|].
    unfold main_step. rewrite Hphase. unfold call_flush.
    destruct (encode_audio_frame _ _ _ _) as [[r dw] w].
    destruct (nonzero r); [|destruct dw]; cbn; auto.
  - intros Hphase. split.
    + unfold main_step. rewrite Hphase. reflexivity.
    + destruct (main_end_done env s Hphase) as (ret & h & Hend & _).
      exists ret, h. exact Hend.
  - intros N Hquiet. apply the_loop_ends_after_finished; assumption.
  - intros Hphase Hsome Hframe Hencode.
    apply draining_succeeds_after_finished; assumption.
  - intros Hphase [Hyes | Hno].
    + left. apply (main_step_flushing env outccx s Hphase). exact Hyes.
    + right. apply (main_step_flushing env outccx s Hphase). exact Hno.
  - intros N Hphase Hframe Hencode Hquiet.
    apply the_loop_is_done_after_finished; assumption.
Qed.

End Driver.

Section Outcomes.

Context {codes : av_error_codes}.

(** The return value and the two flags of [decode_audio_frame] when the
    calls before the decoder's answer succeed, and what a return value
    other than 0 tells. *)
Lemma decode_audio_frame_return (a : pump_answers) (dp fin : bool)
    (st : state) :
  let res := decode_audio_frame a dp fin st in
  let r := fst (fst (fst res)) in
  let dp' := snd (fst (fst res)) in
  let fin' := snd (fst res) in
  (input_packet_alloc_ok a = true ->
   0 <= av_read_frame_ret a \/ av_read_frame_ret a = AVERROR_EOF ->
   0 <= avcodec_send_packet_ret a ->
   (avcodec_receive_frame_ret a = AVERROR_EOF ->
    r = 0 /\ fin' = true /\ dp' = false)
   /\ (avcodec_receive_frame_ret a = AVERROR EAGAIN ->
       r = 0 /\ dp' = false
       /\ (fin' = true <-> av_read_frame_ret a = AVERROR_EOF))
   /\ (avcodec_receive_frame_ret a = 0 ->
       r = 0 /\ dp' = true
       /\ (fin' = true <-> av_read_frame_ret a = AVERROR_EOF)))
  /\ (r <> 0 ->
      input_packet_alloc_ok a = false
      \/ (av_read_frame_ret a < 0 /\ av_read_frame_ret a <> AVERROR_EOF)
      \/ avcodec_send_packet_ret a < 0
      \/ (avcodec_receive_frame_ret a <> 0
          /\ avcodec_receive_frame_ret a <> AVERROR EAGAIN
          /\ avcodec_receive_frame_ret a <> AVERROR_EOF)).
Proof.
  unfold decode_audio_frame, init_packet, fprintf_stderr.
  pose proof AVERROR_EOF_neg. pose proof EAGAIN_pos. pose proof ENOMEM_pos.
  pose proof AVERROR_EOF_not_EAGAIN.
  unfold AVERROR in *.
  case_tests; simpl; z_tests;
    repeat match goal with
           | H : (_, _) = (_, _) |- _ => inversion H; subst; clear H
           end; simpl;
    (split;
     [ intros Halloc Hread Hsend; try discriminate; try lia;
       conj_split; intros Hrecv; try lia; try congruence;
       conj_split; auto; try lia; try congruence;
       try (split; intros; try discriminate; try lia; try congruence)
     | intros Hr; try lia; try congruence; auto ]).
Qed.

Lemma add_samples_to_fifo_failure (r count : Z) (st : state) :
  fst (add_samples_to_fifo r count st) <> 0 ->
  r < 0
  \/ fst (av_audio_fifo_write
            (snd (av_audio_fifo_realloc r (fifo st)
                    (int32 (av_audio_fifo_size (fifo st) + count))))
            count) < count.
Proof.
  unfold add_samples_to_fifo.
  destruct (av_audio_fifo_realloc r (fifo st) _) as [error af] eqn:Hre.
  unfold av_audio_fifo_realloc in Hre.
  destruct (Z.ltb_spec r 0) as [Hr|Hr]; [auto|].
  inversion Hre; subst; clear Hre. cbn [snd].
  destruct (Z.ltb_spec 0 0); [lia|].
  destruct (av_audio_fifo_write _ count) as [written af'].
  cbn [fst]. destruct (Z.ltb_spec written count); [auto|].
  simpl. congruence.
Qed.

(** C6.  For every decode step the Frame Pump maps what the decoder says
    to one of three results.  When the calls before the decoder's answer
    succeed: the decoder's end of stream gives the return value 0 with
    [finished] set, and the end of the input file does so too unless the
    decoder then fails; "needs more input" gives the return value 0 with no
    sample appended to the buffer.  A return value other than 0 is
    [AVERROR_EXIT] and comes only from a library call that failed: the end
    of the stream is never returned as an error. *)
Theorem pump_maps_decoder_outcomes_three_ways (a : pump_answers)
    (fin : bool) (st : state) :
  let res := read_decode_convert_and_store a fin st in
  let ret := fst (fst res) in
  let finished := snd (fst res) in
  let st' := snd res in
  (input_frame_alloc_ok a = true ->
   input_packet_alloc_ok a = true ->
   0 <= av_read_frame_ret a \/ av_read_frame_ret a = AVERROR_EOF ->
   0 <= avcodec_send_packet_ret a ->
   (avcodec_receive_frame_ret a = AVERROR_EOF ->
    ret = 0 /\ finished = true /\ st' = st)
   /\ (av_read_frame_ret a = AVERROR_EOF ->
       avcodec_receive_frame_ret a = 0
       \/ avcodec_receive_frame_ret a = AVERROR EAGAIN
       \/ avcodec_receive_frame_ret a = AVERROR_EOF ->
       ret = 0 /\ finished = true /\ fifo st' = fifo st)
   /\ (avcodec_receive_frame_ret a = AVERROR EAGAIN ->
       ret = 0 /\ st' = st
       /\ (finished = true <-> av_read_frame_ret a = AVERROR_EOF)))
  /\ (ret <> 0 -> ret = AVERROR_EXIT /\ pump_failure a st).
Proof.
  cbv zeta. unfold read_decode_convert_and_store, init_input_frame,
    init_converted_samples, convert_samples, pump_failure.
  destruct (input_frame_alloc_ok a); cbn [negb].
  2:{ rewrite nonzero_negative by (pose proof ENOMEM_pos; unfold AVERROR; lia).
      cbn [fst snd]. split; [discriminate|]. intros _. auto. }
  cbn [nonzero Z.eqb negb].
  pose proof (decode_audio_frame_return a false fin st) as Hret.
  pose proof (decode_audio_frame_effect a false fin st) as Heff.
  assert (Hquiet :
    fst (fst (fst (decode_audio_frame a false fin st))) = 0 ->
    snd (fst (fst (decode_audio_frame a false fin st))) = false ->
    snd (decode_audio_frame a false fin st) = st).
  { clear. unfold decode_audio_frame, init_packet, fprintf_stderr.
    pose proof AVERROR_EOF_neg. pose proof ENOMEM_pos. unfold AVERROR.
    case_tests; simpl; z_tests; intros; try reflexivity; try discriminate;
      lia. }
  destruct (decode_audio_frame a false fin st) as [[[r0 dp] fin0] st0].
  cbn [fst snd] in Hret, Heff, Hquiet.
  destruct Hret as [Hgood Hbad]. destruct Heff as (Hf & _).
  destruct (nonzero r0) eqn:Hr0; z_tests.
  { cbn [fst snd]. split.
    - intros _ Halloc Hread Hsend.
      destruct (Hgood Halloc Hread Hsend) as (H1 & H2 & H3).
      conj_split; intros; exfalso; apply Hr0.
      + apply H1; assumption.
      + match goal with H : _ \/ _ \/ _ |- _ =>
                          destruct H as [H|[H|H]] end;
          [apply H3 | apply H2 | apply H1]; assumption.
      + apply H2; assumption.
    - intros _. split; [reflexivity|]. specialize (Hbad Hr0). tauto. }
  subst r0. specialize (Hquiet eq_refl).
  assert (Hthree :
    input_packet_alloc_ok a = true ->
    0 <= av_read_frame_ret a \/ av_read_frame_ret a = AVERROR_EOF ->
    0 <= avcodec_send_packet_ret a ->
    (avcodec_receive_frame_ret a = AVERROR_EOF ->
     fin0 = true /\ st0 = st)
    /\ (av_read_frame_ret a = AVERROR_EOF ->
        avcodec_receive_frame_ret a = 0
        \/ avcodec_receive_frame_ret a = AVERROR EAGAIN
        \/ avcodec_receive_frame_ret a = AVERROR_EOF ->
        fin0 = true)
    /\ (avcodec_receive_frame_ret a = AVERROR EAGAIN ->
        dp = false /\ st0 = st
        /\ (fin0 = true <-> av_read_frame_ret a = AVERROR_EOF))).
  { intros Halloc Hread Hsend.
    destruct (Hgood Halloc Hread Hsend) as (H1 & H2 & H3).
    conj_split.
    - intros Hrecv. destruct (H1 Hrecv) as (_ & ? & ?). auto.
    - intros Heof [Hrecv|[Hrecv|Hrecv]].
      + apply H3; assumption.
      + apply H2; assumption.
      + apply H1; assumption.
    - intros Hrecv. destruct (H2 Hrecv) as (_ & ? & ?). auto. }
  destruct fin0.
  { cbn [fst snd]. split; [|congruence].
    intros _ Halloc Hread Hsend.
    destruct (Hthree Halloc Hread Hsend) as (H1 & H2 & H3).
    conj_split; settle. }
  destruct dp.
  2:{ cbn [fst snd]. split; [|congruence].
      intros _ Halloc Hread Hsend.
      destruct (Hthree Halloc Hread Hsend) as (H1 & H2 & H3).
      conj_split; settle. }
  assert (Hnot :
    input_packet_alloc_ok a = true ->
    0 <= av_read_frame_ret a \/ av_read_frame_ret a = AVERROR_EOF ->
    0 <= avcodec_send_packet_ret a ->
    avcodec_receive_frame_ret a <> AVERROR_EOF
    /\ avcodec_receive_frame_ret a <> AVERROR EAGAIN
    /\ (av_read_frame_ret a = AVERROR_EOF ->
        avcodec_receive_frame_ret a <> 0)).
  { intros Halloc Hread Hsend.
    destruct (Hthree Halloc Hread Hsend) as (H1 & H2 & H3).
    conj_split.
    - intros Hrecv. destruct (H1 Hrecv). discriminate.
    - intros Hrecv. destruct (H3 Hrecv). discriminate.
    - intros Heof Hrecv.
      assert (false = true) by (apply H2; auto). discriminate. }
  assert (Hfirst :
    input_packet_alloc_ok a = true ->
    0 <= av_read_frame_ret a \/ av_read_frame_ret a = AVERROR_EOF ->
    0 <= avcodec_send_packet_ret a ->
    forall P Q R : Prop,
      (avcodec_receive_frame_ret a = AVERROR_EOF -> P)
      /\ (av_read_frame_ret a = AVERROR_EOF ->
          avcodec_receive_frame_ret a = 0
          \/ avcodec_receive_frame_ret a = AVERROR EAGAIN
          \/ avcodec_receive_frame_ret a = AVERROR_EOF -> Q)
      /\ (avcodec_receive_frame_ret a = AVERROR EAGAIN -> R)).
  { intros Halloc Hread Hsend P Q R.
    destruct (Hnot Halloc Hread Hsend) as (N1 & N2 & N3).
    conj_split; try contradiction.
    intros Heof [Hrecv|[Hrecv|Hrecv]]; try contradiction.
    exfalso. apply N3; assumption. }
  destruct (Z.ltb_spec (av_samples_alloc_ret a) 0).
  { rewrite nonzero_negative by assumption. cbn [fst snd].
    split; [intros _ ? ? ?; apply Hfirst; assumption|]. intros _. tauto. }
  cbn [nonzero Z.eqb negb].
  destruct (Z.ltb_spec (swr_convert_ret a) 0).
  { rewrite nonzero_negative by assumption. cbn [fst snd].
    split; [intros _ ? ? ?; apply Hfirst; assumption|]. intros _. tauto. }
  cbn [nonzero Z.eqb negb].
  pose proof (add_samples_to_fifo_failure (av_audio_fifo_realloc_ret a)
                (input_frame_nb_samples a) st0) as Hadd.
  rewrite Hf in Hadd.
  destruct (add_samples_to_fifo _ _ st0) as [r1 st1]. cbn [fst] in Hadd.
  destruct (nonzero r1) eqn:Hr1; z_tests; cbn [fst snd].
  - split; [intros _ ? ? ?; apply Hfirst; assumption|]. intros _.
    split; [reflexivity|]. specialize (Hadd Hr1). tauto.
  - split; [intros _ ? ? ?; apply Hfirst; assumption|]. congruence.
Qed.

End Outcomes.

Section Opening.

Context {codes : av_error_codes}.

(** [open_input_file] stores a decoder context exactly when it returns 0,
    and prints nothing then. *)
Lemma open_input_file_result (a : input_answers) :
  match open_input_file a with
  | (r, Some _, h) => r = 0 /\ h = []
  | (r, None, _) => r < 0
  end.
Proof.
  unfold open_input_file.
  pose proof AVERROR_EXIT_neg. pose proof ENOMEM_pos. unfold AVERROR.
  destruct (streams a) as [|stream rest];
    case_ifs; z_tests; auto; lia.
Qed.

(** [open_output_file] stores an encoder context exactly when it returns
    0; the context has the sample rate of the decoder context. *)
Lemma open_output_file_result (a : output_answers)
    (inpccx : AVCodecContext) :
  match open_output_file a inpccx with
  | (r, Some outccx, h) =>
      r = 0 /\ h = [] /\ sample_rate outccx = sample_rate inpccx
      /\ frame_size outccx = encoder_frame_size a
  | (r, None, _) => r < 0
  end.
Proof.
  unfold open_output_file, open_output_cleanup.
  pose proof AVERROR_EXIT_neg. pose proof ENOMEM_pos. unfold AVERROR.
  case_ifs; z_tests; auto; lia.
Qed.

(** C8, as the program has it.  For every input file that does not hold
    exactly one stream, of whatever kind, opening the input fails before
    the pipeline starts: [open_input_file] returns a negative code and
    stores no decoder context -- [AVERROR_EXIT], with the line "Expected
    one audio input stream", when the file itself could be opened and
    probed -- and [main] returns [AVERROR_EXIT], which is not 0, having
    done nothing but print. *)
Theorem input_without_exactly_one_stream_is_rejected
    (env : environment) (fuel : nat) :
  List.length (streams (input_env env)) <> 1%nat ->
  fst (fst (open_input_file (input_env env))) < 0
  /\ snd (fst (open_input_file (input_env env))) = None
  /\ (0 <= avformat_open_input_ret (input_env env) ->
      0 <= avformat_find_stream_info_ret (input_env env) ->
      open_input_file (input_env env)
      = (AVERROR_EXIT, None,
         ["Expected one audio input stream, but found %d"%string]))
  /\ (exists lines,
         main env fuel 3 = Return AVERROR_EXIT (map Stderr lines))
  /\ AVERROR_EXIT <> 0.
Proof.
  intros Hstreams.
  pose proof AVERROR_EXIT_neg as Hexit.
  assert (Hopen :
    exists r lines,
      open_input_file (input_env env) = (r, None, lines) /\ r < 0
      /\ (0 <= avformat_open_input_ret (input_env env) ->
          0 <= avformat_find_stream_info_ret (input_env env) ->
          r = AVERROR_EXIT
          /\ lines = ["Expected one audio input stream, but found %d"%string])).
  { unfold open_input_file.
    destruct (Z.ltb_spec (avformat_open_input_ret (input_env env)) 0);
      [eexists _, _; split; [reflexivity|]; split; [assumption|]; lia|].
    destruct (Z.ltb_spec (avformat_find_stream_info_ret (input_env env)) 0);
      [eexists _, _; split; [reflexivity|]; split; [assumption|]; lia|].
    destruct (Nat.eqb_spec (List.length (streams (input_env env))) 1);
      [contradiction|].
    cbn [negb]. eexists _, _. split; [reflexivity|]. auto. }
  destruct Hopen as (r & lines & Hopen & Hneg & Hexact).
  rewrite Hopen. cbn [fst snd].
  split; [assumption|]. split; [reflexivity|]. split.
  - intros H1 H2. destruct (Hexact H1 H2) as [-> ->]. reflexivity.
  - split; [|lia]. exists lines. unfold main. cbn [Z.eqb negb Pos.eqb].
    rewrite Hopen. reflexivity.
Qed.

(** C9.  The assertion of [init_resampler] that the two sample rates are
    equal never fails: the encoder context [open_output_file] hands out
    has the sample rate of the decoder context, so [init_resampler], called
    on the two contexts, does not end in the assertion, and no run of
    [main] ends in the [abort] of a failed assertion. *)
Theorem resampler_assertion_never_fails :
  (forall a inpccx r outccx lines,
      open_output_file a inpccx = (r, Some outccx, lines) ->
      sample_rate outccx = sample_rate inpccx
      /\ forall alloc_ret init_ret,
          init_resampler alloc_ret init_ret inpccx outccx
          <> AssertionFailed)
  /\ (forall env fuel argc, main env fuel argc <> Abort).
Proof.
  assert (Hfun : forall a inpccx r outccx lines,
             open_output_file a inpccx = (r, Some outccx, lines) ->
             sample_rate outccx = sample_rate inpccx
             /\ forall alloc_ret init_ret,
                 init_resampler alloc_ret init_ret inpccx outccx
                 <> AssertionFailed).
  { intros a inpccx r outccx lines Hopen.
    pose proof (open_output_file_result a inpccx) as Hres.
    rewrite Hopen in Hres. destruct Hres as (_ & _ & Hrate & _).
    split; [assumption|]. intros alloc_ret init_ret.
    unfold init_resampler. rewrite Hrate, Z.eqb_refl. cbn [negb].
    case_tests; discriminate. }
  split; [exact Hfun|].
  intros env fuel argc. unfold main.
  destruct (negb (argc =? 3)); [discriminate|].
  destruct (open_input_file (input_env env)) as [[r1 [inpccx|]] h1];
    [|discriminate].
  destruct (nonzero r1); [discriminate|].
  destruct (open_output_file (output_env env) inpccx)
    as [[r2 [outccx|]] h2] eqn:Hout; [|discriminate].
  destruct (nonzero r2); [discriminate|].
  destruct (Hfun _ _ _ _ _ Hout) as [_ Hassert].
  specialize (Hassert (swr_alloc_set_opts2_ret env) (swr_init_ret env)).
  destruct (init_resampler _ _ inpccx outccx) as [[r3 h3]|];
    [|contradiction].
  destruct (nonzero r3); [discriminate|].
  destruct (init_fifo (av_audio_fifo_alloc_ok env)) as [[r4 [af|]] h4];
    [|discriminate].
  destruct (nonzero r4); [discriminate|].
  destruct (write_output_file_header _) as [r5 h5].
  destruct (nonzero r5); [discriminate|].
  unfold main_end.
  destruct (at_phase _); try discriminate.
  destruct (write_output_file_trailer _ _) as [r6 w6].
  destruct (nonzero r6); discriminate.
Qed.

End Opening.

Section Accounting.

Context {codes : av_error_codes}.

(** A decode step that returns 0 puts in the buffer what the decoder
    handed out, provided the decoder holds no frame back until the end of
    the file. *)
Lemma read_decode_convert_and_store_accounting (a : pump_answers)
    (fin : bool) (st : state) (fin' : bool) (st' : state) :
  read_decode_convert_and_store a fin st = (0, fin', st') ->
  fifo_ok (fifo st) ->
  0 <= input_frame_nb_samples a ->
  no_delayed_frame a ->
  decoded_samples (history st') - decoded_samples (history st)
  = av_audio_fifo_size (fifo st') - av_audio_fifo_size (fifo st).
Proof.
  unfold read_decode_convert_and_store, init_input_frame,
    init_converted_samples, convert_samples, no_delayed_frame.
  pose proof AVERROR_EXIT_neg as Hexit.
  destruct (input_frame_alloc_ok a); cbn [negb].
  2:{ rewrite nonzero_negative by (pose proof ENOMEM_pos; unfold AVERROR; lia).
      intros E; inversion E; lia. }
  cbn [nonzero Z.eqb negb].
  pose proof (decode_audio_frame_effect a false fin st) as Hdec.
  destruct (decode_audio_frame a false fin st) as [[[r0 dp] fin0] st0].
  cbn [fst snd] in Hdec. destruct Hdec as (Hf & _ & _ & _ & Hdata & Hnone).
  destruct (nonzero r0) eqn:Hr0; z_tests; [intros E; inversion E; lia|].
  subst r0. specialize (Hdata eq_refl). specialize (Hnone eq_refl).
  unfold decoded_samples.
  destruct fin0.
  { intros E Hok Hn Hdelay; inversion E; subst; clear E. rewrite Hf.
    destruct dp.
    - destruct (Hdata eq_refl) as (Hrecv & _ & Heof).
      exfalso. apply Hdelay; auto.
    - rewrite Hnone by reflexivity. lia. }
  destruct dp.
  2:{ intros E _ _ _; inversion E; subst; clear E. rewrite Hf.
      rewrite Hnone by reflexivity. lia. }
  destruct (Hdata eq_refl) as (_ & Hframes & _).
  destruct (Z.ltb_spec (av_samples_alloc_ret a) 0);
    [rewrite nonzero_negative by assumption; intros E; inversion E; lia|].
  cbn [nonzero Z.eqb negb].
  destruct (Z.ltb_spec (swr_convert_ret a) 0);
    [rewrite nonzero_negative by assumption; intros E; inversion E; lia|].
  cbn [nonzero Z.eqb negb].
  intros E Hok Hn _.
  rewrite <- Hf in Hok.
  pose proof (add_samples_to_fifo_level (av_audio_fifo_realloc_ret a)
                (input_frame_nb_samples a) st0 Hok Hn) as Hadd.
  cbv zeta in Hadd.
  destruct (add_samples_to_fifo _ _ st0) as [r1 st1].
  cbn [fst snd] in Hadd. destruct Hadd as (_ & _ & Hzero & _).
  destruct (nonzero r1) eqn:Hr1; z_tests; inversion E; subst; clear E;
    [lia|].
  destruct (Hzero eq_refl) as [Hlevel Hhist].
  rewrite Hlevel, Hhist, Hframes, sum_app, Hf. unfold sum. simpl. lia.
Qed.

(** A drain that returns 0 hands to the encoder what it took out of the
    buffer. *)
Lemma load_encode_and_write_accounting (fa : frame_answers)
    (ea : encode_answers) (outccx : AVCodecContext) (st st' : state) :
  load_encode_and_write fa ea outccx st = (0, st') ->
  fifo_ok (fifo st) ->
  0 <= frame_size outccx ->
  decoded_samples (history st') = decoded_samples (history st)
  /\ sent_samples (history st') - sent_samples (history st)
     = av_audio_fifo_size (fifo st) - av_audio_fifo_size (fifo st').
Proof.
  intros E Hok HE.
  apply load_encode_and_write_effect in E. cbv zeta in E.
  destruct E as (Hd & _ & _ & Hsent & _ & Hread).
  unfold decoded_samples, sent_samples. rewrite Hd.
  split; [reflexivity|].
  assert (Hsize : 0 <= Z.min (av_audio_fifo_size (fifo st))
                         (frame_size outccx))
    by (unfold fifo_ok, av_audio_fifo_size in *; lia).
  destruct (Hread Hsize) as [Hlev _].
  destruct Hsent as [(_ & _ & Habs)|(Hs & _)]; [contradiction|].
  destruct (output_frame_alloc_ok fa && (0 <=? av_frame_get_buffer_ret fa));
    [|destruct Hlev; contradiction].
  rewrite Hs, map_app, sum_app, Hlev. unfold sum. simpl. lia.
Qed.

(** X18.  A frame the decoder hands out in the decode step that reads the
    end of the file is put on record as decoded and then let go: the call
    returns 0 with [finished] set and the buffer is as it was. *)
Lemma delayed_frame_is_discarded (a : pump_answers) (fin : bool)
    (st : state) :
  input_frame_alloc_ok a = true ->
  input_packet_alloc_ok a = true ->
  av_read_frame_ret a = AVERROR_EOF ->
  0 <= avcodec_send_packet_ret a ->
  avcodec_receive_frame_ret a = 0 ->
  exists st',
    read_decode_convert_and_store a fin st = (0, true, st')
    /\ fifo st' = fifo st
    /\ decoded_frames (history st')
       = decoded_frames (history st) ++ [input_frame_nb_samples a].
Proof.
  intros Hframe Hpacket Hread Hsend Hrecv.
  unfold read_decode_convert_and_store, init_input_frame,
    decode_audio_frame, init_packet.
  pose proof AVERROR_EOF_neg as Heof. pose proof EAGAIN_pos as Hagain.
  assert (H1 : (AVERROR_EOF <? 0) = true) by (apply Z.ltb_lt; lia).
  assert (H2 : (avcodec_send_packet_ret a <? 0) = false)
    by (apply Z.ltb_ge; lia).
  assert (H3 : (0 =? AVERROR EAGAIN) = false)
    by (apply Z.eqb_neq; unfold AVERROR; lia).
  assert (H4 : (0 =? AVERROR_EOF) = false) by (apply Z.eqb_neq; lia).
  rewrite Hframe, Hpacket, Hread, Hrecv. cbn [negb].
  change (0 <? 0) with false. change (nonzero 0) with false. cbv iota.
  rewrite H1, Z.eqb_refl, H2, H3, H4. cbn [negb andb].
  change (nonzero 0) with false. cbv iota.
  eexists. split; [reflexivity|]. hist. split; reflexivity.
Qed.

Variable env : environment.
Variable outccx : AVCodecContext.

Hypothesis frame_size_not_negative : 0 <= frame_size outccx.
Hypothesis sample_counts_not_negative :
  forall i, 0 <= input_frame_nb_samples (pump_env env i).
Hypothesis decoder_holds_nothing_back :
  forall i, no_delayed_frame (pump_env env i).

(** As long as the loop has not failed, every sample the decoder handed
    out is in the buffer or was handed to the encoder. *)
Lemma samples_are_accounted_for (s : main_state) :
  reachable env outccx s ->
  at_phase s <> FAILED ->
  decoded_samples (history (world s))
  = level s + sent_samples (history (world s)).
Proof.
  intros [n ->]. induction n as [|n IH]; [intros _; reflexivity|].
  rewrite main_loop_succ.
  set (s := main_loop env outccx n (main_start (av_audio_fifo_alloc 1))) in *.
  assert (Hreach : reachable env outccx s) by (exists n; reflexivity).
  destruct (reachable_invariant env outccx s Hreach) as (Hok & _).
  unfold main_step, level in *.
  destruct (at_phase s) eqn:Hphase.
  - specialize (IH ltac:(discriminate)).
    destruct (fill_condition outccx s); [|cbn; intros _; exact IH].
    unfold call_pump.
    destruct (read_decode_convert_and_store _ _ _) as [[r fin'] w] eqn:E.
    pose proof (read_decode_convert_and_store_effect _ _ _ _ _ _ E)
      as (_ & Hs & _).
    destruct (nonzero r) eqn:Hr; z_tests; [cbn; congruence|]. subst r.
    apply read_decode_convert_and_store_accounting in E; auto.
    unfold sent_samples in *. 
    destruct fin'; cbn [world goto finished at_phase]; intros _;
      rewrite Hs; lia.
  - specialize (IH ltac:(discriminate)).
    destruct (drain_condition outccx s).
    + unfold call_drain.
      destruct (load_encode_and_write _ _ _ _) as [r w] eqn:E.
      destruct (nonzero r) eqn:Hr; z_tests; [cbn; congruence|]. subst r.
      apply load_encode_and_write_accounting in E; auto.
      destruct E as [Hd Hs]. cbn [world]. intros _. lia.
    + destruct (finished s); cbn; intros _; exact IH.
  - specialize (IH ltac:(discriminate)).
    unfold call_flush.
    pose proof (encode_audio_frame_effect
                  (encode_env env (encode_calls s)) None false (world s))
      as Heff.
    destruct (encode_audio_frame _ None false (world s)) as [[r dw] w].
    cbn [fst snd] in Heff.
    destruct Heff as (Hf & Hd & [(Hs & _) | (f & Habs & _)]);
      [|discriminate].
    unfold decoded_samples, sent_samples in *.
    destruct (nonzero r); [|destruct dw]; cbn [world goto]; intros _;
      rewrite Hf, Hd, Hs; exact IH.
  - rewrite Hphase. intros _. apply IH. discriminate.
  - rewrite Hphase. congruence.
Qed.

(** Over a whole run that ends well, the encoder is given exactly the
    samples the decoder handed out, provided the decoder holds no frame
    back until the end of the file. *)
Theorem samples_are_conserved_without_delayed_frames (s : main_state) :
  reachable env outccx s ->
  at_phase s = DONE ->
  level s = 0
  /\ sent_samples (history (world s)) = decoded_samples (history (world s)).
Proof.
  intros Hreach Hphase.
  destruct (reachable_invariant env outccx s Hreach)
    as (_ & _ & _ & _ & Hdone).
  destruct Hdone as [_ Hzero]; [right; assumption|].
  split; [assumption|].
  rewrite (samples_are_accounted_for s Hreach) by congruence. lia.
Qed.

End Accounting.

Section CounterInMain.

Context {codes : av_error_codes}.
Variable env : environment.
Variable outccx : AVCodecContext.

Hypothesis frame_size_not_negative : 0 <= frame_size outccx.

(** One step of the loop hands at most one frame to the encoder; the frame
    bears the counter, and the counter moves on by its sample count. *)
Lemma main_step_pushes (s : main_state) :
  fifo_ok (fifo (world s)) ->
  let s' := main_step env outccx s in
  (sent_frames (history (world s')) = sent_frames (history (world s))
   /\ pts (world s') = pts (world s))
  \/ (exists n,
         0 <= n
         /\ sent_frames (history (world s'))
            = sent_frames (history (world s))
                ++ [{| nb_samples := n; frame_pts := pts (world s) |}]
         /\ pts (world s') = int64 (pts (world s) + n)).
Proof.
  intros Hok. cbv zeta. unfold main_step.
  destruct (at_phase s); auto.
  - destruct (fill_condition outccx s); [|cbn; auto].
    unfold call_pump.
    destruct (read_decode_convert_and_store _ _ _) as [[r fin'] w] eqn:E.
    apply read_decode_convert_and_store_effect in E.
    destruct E as (Hp & Hs & _).
    left. destruct (nonzero r); [|destruct fin']; cbn; auto.
  - destruct (drain_condition outccx s).
    + unfold call_drain.
      destruct (load_encode_and_write _ _ _ _) as [r w] eqn:E.
      apply load_encode_and_write_effect in E. cbv zeta in E.
      destruct E as (_ & _ & _ & Hsent & _).
      rewrite !world_after_a_call. cbn [world].
      destruct Hsent as [(Hs & Hp & _)|(Hs & Hp)]; [left; auto|right].
      eexists. split; [|split; eassumption].
      unfold fifo_ok, av_audio_fifo_size in *. lia.
    + destruct (finished s); cbn; auto.
  - unfold call_flush.
    pose proof (encode_audio_frame_effect
                  (encode_env env (encode_calls s)) None false (world s))
      as Heff.
    destruct (encode_audio_frame _ None false (world s)) as [[r dw] w].
    cbn [fst snd] in Heff.
    destruct Heff as (_ & _ & [(Hs & Hp & _) | (f & Habs & _)]);
      [|discriminate].
    left. destruct (nonzero r); [|destruct dw]; cbn; auto.
Qed.

(** X3.  In every state the loop of [main] goes through, the counter is the
    sum of the sample counts of the frames handed to the encoder so far,
    each frame bears the sum of the sample counts of the frames before it,
    and the time stamps never go down -- as long as the sum is in the range
    of [int64_t]. *)
Theorem main_pts_is_the_sum_of_the_samples_sent (s : main_state) :
  reachable env outccx s ->
  sent_samples (history (world s)) <= INT64_MAX ->
  let frames := sent_frames (history (world s)) in
  pts (world s) = sent_samples (history (world s))
  /\ Forall (fun n => 0 <= n) (map nb_samples frames)
  /\ map frame_pts frames = running_pts 0 (map nb_samples frames)
  /\ non_decreasing (map frame_pts frames).
Proof.
  intros [n ->]. cbv zeta.
  assert (Hmain :
    sent_samples
      (history (world (main_loop env outccx n
                         (main_start (av_audio_fifo_alloc 1)))))
    <= INT64_MAX ->
    pts (world (main_loop env outccx n (main_start (av_audio_fifo_alloc 1))))
    = sent_samples
        (history (world (main_loop env outccx n
                           (main_start (av_audio_fifo_alloc 1)))))
    /\ Forall (fun n => 0 <= n)
         (map nb_samples
            (sent_frames
               (history (world (main_loop env outccx n
                                  (main_start (av_audio_fifo_alloc 1)))))))
    /\ map frame_pts
         (sent_frames
            (history (world (main_loop env outccx n
                               (main_start (av_audio_fifo_alloc 1))))))
       = running_pts 0
           (map nb_samples
              (sent_frames
                 (history (world (main_loop env outccx n
                                    (main_start (av_audio_fifo_alloc 1)))))))).
  { induction n as [|n IH].
    - intros _. cbn. repeat split; constructor.
    - rewrite main_loop_succ.
      set (s := main_loop env outccx n (main_start (av_audio_fifo_alloc 1)))
        in *.
      assert (Hreach : reachable env outccx s) by (exists n; reflexivity).
      destruct (reachable_invariant env outccx s Hreach) as (Hok & _).
      destruct (main_step_pushes s Hok) as [(Hs & Hp)|(k & Hk & Hs & Hp)];
        unfold sent_samples in *; rewrite Hs, Hp.
      + exact IH.
      + rewrite !map_app, sum_app. cbn [map nb_samples frame_pts].
        unfold sum at 2 4. cbn [fold_right]. rewrite Z.add_0_r.
        intros Hmax.
        assert (Hnn : forall l, Forall (fun n => 0 <= n) l -> 0 <= sum l).
        { clear. intros l H. induction H; unfold sum in *; simpl; lia. }
        assert (Hprev : sum (map nb_samples (sent_frames (history (world s))))
                        <= INT64_MAX)
          by lia.
        destruct (IH Hprev) as (Hpts & Hall & Hrun).
        pose proof (Hnn _ Hall) as Hsum.
        rewrite Hpts, int64_in_range by (unfold INT64_MAX in *; lia).
        split; [reflexivity|]. split.
        * apply Forall_app. split; [assumption|]. constructor; auto.
        * rewrite running_pts_app, Hrun. cbn [running_pts].
          rewrite Z.add_0_l. reflexivity. }
  intros Hmax. destruct (Hmain Hmax) as (Hpts & Hall & Hrun).
  repeat split; auto.
  rewrite Hrun. apply running_pts_non_decreasing. assumption.
Qed.

End CounterInMain.

Section Termination.

Context {codes : av_error_codes}.
Variable env : environment.
Variable outccx : AVCodecContext.

(** The input is finite: from the [P]-th decode step on, the demuxer
    reports the end of the file. *)
Variable P : nat.
Hypothesis input_ends :
  forall i, (P <= i)%nat -> av_read_frame_ret (pump_env env i) = AVERROR_EOF.

(** The encoder has nothing left to hand out from its [N]-th call on. *)
Variable N : nat.
Hypothesis encoder_runs_dry :
  forall k, (N <= k)%nat -> yields_no_packet (encode_env env k).

Hypothesis frame_size_positive : 0 < frame_size outccx.

Lemma ends_step (s : main_state) :
  ends env outccx (main_step env outccx s) -> ends env outccx s.
Proof. intros [m Hm]. exists (S m). exact Hm. Qed.

(** A decode step that reads the end of the file fails or sets
    [finished]. *)
Lemma read_decode_convert_and_store_at_end (a : pump_answers) (fin : bool)
    (st : state) (fin' : bool) (st' : state) :
  av_read_frame_ret a = AVERROR_EOF ->
  read_decode_convert_and_store a fin st = (0, fin', st') ->
  fin' = true.
Proof.
  intros Heof.
  unfold read_decode_convert_and_store, init_input_frame.
  pose proof AVERROR_EXIT_neg as Hexit.
  destruct (input_frame_alloc_ok a); cbn [negb].
  2:{ rewrite nonzero_negative by (pose proof ENOMEM_pos; unfold AVERROR; lia).
      intros E; inversion E; lia. }
  change (nonzero 0) with false. cbv iota.
  assert (Hdec :
    fst (fst (fst (decode_audio_frame a false fin st))) = 0 ->
    snd (fst (decode_audio_frame a false fin st)) = true).
  { unfold decode_audio_frame, init_packet. rewrite Heof.
    pose proof AVERROR_EOF_neg. pose proof ENOMEM_pos. unfold AVERROR.
    rewrite Z.eqb_refl.
    case_tests; simpl; z_tests; intros; try reflexivity; try lia;
      discriminate. }
  destruct (decode_audio_frame a false fin st) as [[[r0 dp] fin0] st0].
  cbn [fst snd] in Hdec.
  destruct (nonzero r0) eqn:Hr0; z_tests; [intros E; inversion E; lia|].
  rewrite (Hdec Hr0). intros E; inversion E; reflexivity.
Qed.

(** The loop ends from every state it reaches in which [finished] is
    set. *)
Lemma ends_after_finished (s : main_state) :
  reachable env outccx s -> finished s = true -> ends env outccx s.
Proof.
  intros Hreach Hfin.
  assert (Hflushing : forall s', at_phase s' = FLUSHING -> ends env outccx s').
  { intros s' Hphase.
    destruct (flushing_ends env outccx (N - encode_calls s') s' Hphase)
      as (m & _ & Hend & _).
    - intros k Hk. apply encoder_runs_dry. lia.
    - exists m. assumption. }
  pose proof (reachable_invariant env outccx s Hreach)
    as (Hok & _ & Hfill & Hdrain & _).
  destruct (at_phase s) eqn:Hphase.
  - exfalso. apply (Hfill Hfin). reflexivity.
  - specialize (Hdrain Hfin eq_refl).
    apply ends_step.
    destruct (Z.ltb_spec 0 (level s)) as [Hsome|Hnone].
    + assert (Hcond : drain_condition outccx s = true).
      { unfold drain_condition. fold (level s). rewrite Hfin.
        apply orb_true_iff. right. simpl. rewrite Z.gtb_ltb.
        apply Z.ltb_lt. assumption. }
      unfold main_step. rewrite Hphase, Hcond.
      unfold call_drain.
      destruct (load_encode_and_write _ _ _ _) as [r w] eqn:E.
      apply load_encode_and_write_effect in E. cbv zeta in E.
      fold (level s) in E.
      replace (Z.min (level s) (frame_size outccx)) with (level s) in E
        by lia.
      destruct E as (_ & _ & _ & Hsent & _ & Hread).
      destruct Hread as [Hlev _]; [lia|].
      destruct (nonzero r) eqn:Hr; z_tests.
      * exists 0%nat. right. reflexivity.
      * subst r.
        destruct Hsent as [(_ & _ & Habs)|_]; [contradiction|].
        destruct (output_frame_alloc_ok (frame_env env (drain_calls s))
                  && (0 <=? av_frame_get_buffer_ret
                              (frame_env env (drain_calls s))));
          [|destruct Hlev; contradiction].
        apply ends_step. apply Hflushing.
        unfold main_step. cbn [at_phase]. rewrite Hphase.
        unfold drain_condition. cbn [world finished].
        rewrite Hlev, Hfin, Z.sub_diag.
        destruct (Z.geb_spec 0 (frame_size outccx)); [lia|]. reflexivity.
    + apply Hflushing. unfold main_step. rewrite Hphase.
      unfold drain_condition. fold (level s). rewrite Hfin.
      destruct (Z.geb_spec (level s) (frame_size outccx)); [lia|].
      destruct (Z.gtb_spec (level s) 0); [lia|]. reflexivity.
  - apply Hflushing. assumption.
  - exists 0%nat. left. assumption.
  - exists 0%nat. right. assumption.
Qed.

(** A drain that returns 0 while the buffer holds a full frame takes a
    full frame out of it. *)
Lemma main_step_drains_a_frame (s : main_state) :
  reachable env outccx s ->
  at_phase s = DRAINING ->
  frame_size outccx <= level s ->
  let s' := main_step env outccx s in
  at_phase s' = FAILED
  \/ (at_phase s' = DRAINING
      /\ finished s' = finished s
      /\ pump_calls s' = pump_calls s
      /\ level s' = level s - frame_size outccx).
Proof.
  intros Hreach Hphase Hfull. cbv zeta.
  assert (Hcond : drain_condition outccx s = true).
  { unfold drain_condition. fold (level s).
    destruct (Z.geb_spec (level s) (frame_size outccx)); [reflexivity|lia]. }
  unfold main_step. rewrite Hphase, Hcond. unfold call_drain.
  destruct (load_encode_and_write _ _ _ _) as [r w] eqn:E.
  apply load_encode_and_write_effect in E. cbv zeta in E.
  fold (level s) in E.
  replace (Z.min (level s) (frame_size outccx)) with (frame_size outccx) in E
    by lia.
  destruct E as (_ & _ & _ & Hsent & _ & Hread).
  destruct Hread as [Hlev _]; [lia|].
  destruct (nonzero r) eqn:Hr; z_tests; [left; reflexivity|right].
  subst r.
  destruct Hsent as [(_ & _ & Habs)|_]; [contradiction|].
  destruct (output_frame_alloc_ok (frame_env env (drain_calls s))
            && (0 <=? av_frame_get_buffer_ret
                        (frame_env env (drain_calls s))));
    [|destruct Hlev; contradiction].
  cbn [at_phase finished pump_calls]. unfold level at 1. cbn [world].
  auto.
Qed.

(** If every decode step that is still due leads to the end of the loop,
    so does every state: a round drains the buffer, one full frame at a
    time, and then comes back to a decode step. *)
Lemma ends_by_decode_steps (k : nat) :
  (forall s,
      reachable env outccx s -> (P <= pump_calls s + k)%nat ->
      at_phase s = FILLING -> fill_condition outccx s = true -> ends env outccx s) ->
  forall s,
    reachable env outccx s -> (P <= pump_calls s + k)%nat -> ends env outccx s.
Proof.
  intros Hpump.
  assert (Hdrain : forall n s,
             reachable env outccx s -> (P <= pump_calls s + k)%nat ->
             at_phase s = DRAINING -> (Z.to_nat (level s) <= n)%nat ->
             ends env outccx s).
  { induction n as [|n IH]; intros s Hreach Hcalls Hphase Hlevel;
      (destruct (finished s) eqn:Hfin;
       [apply ends_after_finished; assumption|]);
      (destruct (Z.leb_spec (frame_size outccx) (level s)) as [Hfull|Hpart]);
      try lia.
    - (* less than a frame: the round is over *)
      apply ends_step.
      pose proof (reachable_step env outccx s Hreach) as Hreach'.
      revert Hreach'. unfold main_step. rewrite Hphase.
      unfold drain_condition. fold (level s). rewrite Hfin.
      destruct (Z.geb_spec (level s) (frame_size outccx)); [lia|].
      cbn [orb andb]. intros Hreach'.
      apply Hpump; try assumption; try reflexivity.
      unfold fill_condition. cbn [world next_round].
      fold (level s). apply Z.ltb_lt. assumption.
    - apply ends_step.
      pose proof (reachable_step env outccx s Hreach) as Hreach'.
      destruct (main_step_drains_a_frame s Hreach Hphase Hfull)
        as [Hfailed|(Hphase' & _ & Hcalls' & Hlevel')].
      + exists 0%nat. right. assumption.
      + apply IH; try assumption; lia.
    - apply ends_step.
      pose proof (reachable_step env outccx s Hreach) as Hreach'.
      revert Hreach'. unfold main_step. rewrite Hphase.
      unfold drain_condition. fold (level s). rewrite Hfin.
      destruct (Z.geb_spec (level s) (frame_size outccx)); [lia|].
      cbn [orb andb]. intros Hreach'.
      apply Hpump; try assumption; try reflexivity.
      unfold fill_condition. cbn [world next_round].
      fold (level s). apply Z.ltb_lt. assumption. }
  intros s Hreach Hcalls.
  pose proof (reachable_invariant env outccx s Hreach)
    as (_ & _ & _ & _ & Hflush).
  destruct (at_phase s) eqn:Hphase.
  - destruct (fill_condition outccx s) eqn:Hcond;
      [apply Hpump; assumption|].
    apply ends_step.
    pose proof (reachable_step env outccx s Hreach) as Hreach'.
    revert Hreach'. unfold main_step. rewrite Hphase, Hcond. intros Hreach'.
    apply (Hdrain (Z.to_nat (level s))); auto.
  - apply (Hdrain (Z.to_nat (level s))); auto.
  - apply ends_after_finished; [assumption|]. apply Hflush. auto.
  - exists 0%nat. left. assumption.
  - exists 0%nat. right. assumption.
Qed.

(** What a decode step leads to. *)
Lemma main_step_pumps (s : main_state) :
  at_phase s = FILLING -> fill_condition outccx s = true ->
  let s' := main_step env outccx s in
  at_phase s' = FAILED
  \/ finished s' = true
  \/ (pump_calls s' = S (pump_calls s)
      /\ ((P <= pump_calls s)%nat -> False)).
Proof.
  intros Hphase Hcond. cbv zeta. unfold main_step. rewrite Hphase, Hcond.
  unfold call_pump.
  destruct (read_decode_convert_and_store _ _ _) as [[r fin'] w] eqn:E.
  destruct (nonzero r) eqn:Hr; z_tests; [left; reflexivity|right].
  subst r. destruct fin' eqn:Hfin; [left; reflexivity|right].
  cbn [pump_calls]. split; [reflexivity|]. intros Hlate.
  apply read_decode_convert_and_store_at_end in E;
    [discriminate | apply input_ends; assumption].
Qed.

(** The loop ends from every state it reaches. *)
Lemma ends_within (k : nat) :
  forall s,
    reachable env outccx s -> (P <= pump_calls s + k)%nat -> ends env outccx s.
Proof.
  induction k as [|k IH]; apply ends_by_decode_steps;
    intros s Hreach Hcalls Hphase Hcond; apply ends_step;
    pose proof (reachable_step env outccx s Hreach) as Hreach';
    destruct (main_step_pumps s Hphase Hcond)
      as [Hfailed|[Hfin|(Hcalls' & Hearly)]];
    try (exists 0%nat; right; assumption);
    try (apply ends_after_finished; assumption).
  - exfalso. apply Hearly. lia.
  - apply IH; [assumption | lia].
Qed.

(** The loop of [main] terminates: for every finite input, every encoder
    that runs dry and every positive frame size, some number of steps
    takes the loop from its start to [DONE] or to [FAILED]. *)
Theorem main_loop_terminates :
  exists m,
    at_phase (main_loop env outccx m (main_start (av_audio_fifo_alloc 1)))
    = DONE
    \/ at_phase (main_loop env outccx m (main_start (av_audio_fifo_alloc 1)))
       = FAILED.
Proof.
  apply (ends_within P).
  - exists 0%nat. reflexivity.
  - lia.
Qed.

End Termination.

Section MainReturns.

Context {codes : av_error_codes}.

(** [main] returns: for every finite input, every encoder that runs dry
    and asks for frames of a positive size, there is a number of steps
    within which a run of [main] ends in [exit], in [abort] or with a
    return value. *)
Theorem main_returns (env : environment) (P N : nat) :
  (forall i, (P <= i)%nat ->
             av_read_frame_ret (pump_env env i) = AVERROR_EOF) ->
  (forall k, (N <= k)%nat -> yields_no_packet (encode_env env k)) ->
  0 < encoder_frame_size (output_env env) ->
  exists fuel,
    forall argc,
      match main env fuel argc with
      | Unfinished _ => False
      | _ => True
      end.
Proof.
  intros Hinput Hencoder Hsize.
  destruct (open_input_file (input_env env)) as [[r1 [inpccx|]] h1] eqn:Hin.
  2:{ exists 0%nat. intros argc. unfold main. rewrite Hin.
      destruct (negb (argc =? 3)); exact I. }
  destruct (open_output_file (output_env env) inpccx)
    as [[r2 [outccx|]] h2] eqn:Hout.
  2:{ exists 0%nat. intros argc. unfold main. rewrite Hin, Hout.
      destruct (negb (argc =? 3)); [exact I|].
      destruct (nonzero r1); exact I. }
  pose proof (open_output_file_result (output_env env) inpccx) as Hres.
  rewrite Hout in Hres. destruct Hres as (_ & _ & _ & Hframe).
  destruct (main_loop_terminates env outccx P Hinput N Hencoder)
    as [m Hm]; [lia|].
  exists m. intros argc. unfold main. rewrite Hin, Hout.
  destruct (negb (argc =? 3)); [exact I|].
  destruct (nonzero r1); [exact I|].
  destruct (nonzero r2); [exact I|].
  destruct (init_resampler _ _ inpccx outccx) as [[r3 h3]|]; [|exact I].
  destruct (nonzero r3); [exact I|].
  destruct (init_fifo (av_audio_fifo_alloc_ok env)) as [[r4 [af|]] h4] eqn:Hf;
    [|exact I].
  destruct (nonzero r4); [exact I|].
  destruct (write_output_file_header _) as [r5 h5].
  destruct (nonzero r5); [exact I|].
  assert (Haf : af = av_audio_fifo_alloc 1).
  { unfold init_fifo in Hf. destruct (av_audio_fifo_alloc_ok env);
      inversion Hf. reflexivity. }
  subst af. unfold main_end.
  destruct Hm as [Hm|Hm]; rewrite Hm.
  - destruct (write_output_file_trailer _ _) as [r6 w6].
    destruct (nonzero r6); exact I.
  - exact I.
Qed.

End MainReturns.

Section WholeRun.

Context {codes : av_error_codes}.

(** X2.  Over a whole run of [main] that returns 0, the encoder is given
    exactly the samples the decoder handed out -- provided the decoder hands
    out no frame in the decode step that reads the end of the file. *)
Theorem main_conserves_samples (env : environment) (fuel : nat) (argc : Z)
    (h : list event) :
  0 <= encoder_frame_size (output_env env) ->
  (forall i, 0 <= input_frame_nb_samples (pump_env env i)) ->
  (forall i, no_delayed_frame (pump_env env i)) ->
  main env fuel argc = Return 0 h ->
  sent_samples h = decoded_samples h.
Proof.
  intros Hsize Hcounts Hdelay. unfold main.
  pose proof AVERROR_EXIT_neg as Hexit.
  destruct (negb (argc =? 3)); [discriminate|].
  destruct (open_input_file (input_env env)) as [[r1 [inpccx|]] h1];
    [|intros E; inversion E; lia].
  destruct (nonzero r1); [intros E; inversion E; lia|].
  pose proof (open_output_file_result (output_env env) inpccx) as Hres.
  destruct (open_output_file (output_env env) inpccx)
    as [[r2 [outccx|]] h2]; [|intros E; inversion E; lia].
  destruct Hres as (_ & _ & _ & Hframe).
  destruct (nonzero r2); [intros E; inversion E; lia|].
  destruct (init_resampler _ _ inpccx outccx) as [[r3 h3]|];
    [|discriminate].
  destruct (nonzero r3); [intros E; inversion E; lia|].
  destruct (init_fifo (av_audio_fifo_alloc_ok env)) as [[r4 [af|]] h4] eqn:Hf;
    [|intros E; inversion E; lia].
  destruct (nonzero r4); [intros E; inversion E; lia|].
  destruct (write_output_file_header _) as [r5 h5].
  destruct (nonzero r5); [intros E; inversion E; lia|].
  assert (Haf : af = av_audio_fifo_alloc 1).
  { unfold init_fifo in Hf. destruct (av_audio_fifo_alloc_ok env);
      inversion Hf. reflexivity. }
  subst af. unfold main_end.
  set (s := main_loop env outccx fuel (main_start (av_audio_fifo_alloc 1))).
  assert (Hreach : reachable env outccx s) by (exists fuel; reflexivity).
  destruct (at_phase s) eqn:Hphase; try discriminate.
  2:{ intros E; inversion E; lia. }
  destruct (samples_are_conserved_without_delayed_frames env outccx
              ltac:(lia) Hcounts Hdelay s Hreach Hphase) as [_ Hsame].
  unfold write_output_file_trailer, fprintf_stderr.
  destruct (Z.ltb_spec (av_write_trailer_ret env) 0);
    [rewrite nonzero_negative by assumption; intros E; inversion E; lia|].
  change (nonzero 0) with false. cbv iota.
  intros E; inversion E; subst; clear E. hist.
  rewrite !decoded_samples_app, !sent_samples_app, Hsame.
  reflexivity.
Qed.

End WholeRun.

(* ===================================================================== *)
(** ** More of the program *)
(* ===================================================================== *)

(** What follows goes beyond the statements of the specification: the
    histories of the functions of the loop, what the loop keeps track of,
    and whole runs of [main]. *)
Section Histories.

Context {codes : av_error_codes}.

Lemma packets_written_app (h1 h2 : list event) :
  packets_written (h1 ++ h2)
  = (packets_written h1 + packets_written h2)%nat.
Proof.
  induction h1 as [|e h1 IH]; simpl; [reflexivity|].
  destruct e; simpl; rewrite IH; reflexivity.
Qed.

Lemma trailers_written_app (h1 h2 : list event) :
  trailers_written (h1 ++ h2)
  = (trailers_written h1 + trailers_written h2)%nat.
Proof.
  induction h1 as [|e h1 IH]; simpl; [reflexivity|].
  destruct e; simpl; rewrite IH; reflexivity.
Qed.

Lemma frames_pushed_app (h1 h2 : list event) :
  frames_pushed (h1 ++ h2) = (frames_pushed h1 + frames_pushed h2)%nat.
Proof.
  unfold frames_pushed.
  rewrite sent_frames_app, null_sends_app, length_app. lia.
Qed.

(** A decode step hands nothing to the encoder or to the muxer. *)
Lemma decode_events_are_quiet (d : list event) :
  forallb decode_event d = true ->
  sent_frames d = [] /\ null_sends d = O /\ packets_written d = O
  /\ trailers_written d = O.
Proof.
  induction d as [|e d IH]; simpl; [auto|].
  intros H. apply andb_true_iff in H. destruct H as [He Hd].
  destruct e as [| [f|] | | | |]; simpl in *; try discriminate; auto.
Qed.

(** A call of the encoder decodes nothing and writes no trailer. *)
Lemma encode_events_are_quiet (d : list event) :
  forallb encode_event d = true ->
  decoded_frames d = [] /\ trailers_written d = O.
Proof.
  induction d as [|e d IH]; simpl; [auto|].
  intros H. apply andb_true_iff in H. destruct H as [He Hd].
  destruct e; simpl in *; try discriminate; auto.
Qed.

(** The history of a decode step: what was there, then decoded frames and
    lines only, at most one frame. *)
Lemma decode_audio_frame_history (a : pump_answers) (dp fin : bool)
    (st : state) :
  exists d,
    history (snd (decode_audio_frame a dp fin st)) = history st ++ d
    /\ forallb decode_event d = true
    /\ (decoded_frames d = []
        \/ decoded_frames d = [input_frame_nb_samples a]).
Proof.
  unfold decode_audio_frame, init_packet, fprintf_stderr.
  case_tests; simpl;
    repeat match goal with
           | H : (_, _) = (_, _) |- _ => inversion H; subst; clear H
           end; simpl;
    first [ exists []; rewrite app_nil_r; simpl; solve [auto]
          | eexists [_]; split; [reflexivity|]; simpl; solve [auto]
          | eexists [_; _]; rewrite <- app_assoc; split; [reflexivity|];
            simpl; solve [auto] ].
Qed.

Lemma read_decode_convert_and_store_history (a : pump_answers)
    (fin : bool) (st : state) :
  exists d,
    history (snd (read_decode_convert_and_store a fin st)) = history st ++ d
    /\ forallb decode_event d = true
    /\ (decoded_frames d = []
        \/ decoded_frames d = [input_frame_nb_samples a]).
Proof.
  unfold read_decode_convert_and_store, init_input_frame,
    init_converted_samples, convert_samples, fprintf_stderr.
  destruct (input_frame_alloc_ok a); cbn [negb].
  2:{ rewrite nonzero_negative by (pose proof ENOMEM_pos; unfold AVERROR; lia).
      eexists [_]. split; [reflexivity|]. simpl. auto. }
  change (nonzero 0) with false. cbv iota.
  destruct (decode_audio_frame_history a false fin st) as (d & Hd & Hev & Hdec).
  destruct (decode_audio_frame a false fin st) as [[[r0 dp] fin0] st0].
  cbn [snd] in Hd.
  assert (Hmore : forall msg,
             exists d',
               history (log (Stderr msg) st0) = history st ++ d'
               /\ forallb decode_event d' = true
               /\ (decoded_frames d' = []
                   \/ decoded_frames d' = [input_frame_nb_samples a])).
  { intros msg. exists (d ++ [Stderr msg]). cbn [history log].
    rewrite Hd, <- app_assoc. split; [reflexivity|].
    rewrite forallb_app, Hev, decoded_frames_app. simpl.
    rewrite app_nil_r. auto. }
  destruct (nonzero r0); [exists d; auto|].
  destruct fin0; [exists d; auto|].
  destruct dp; [|exists d; auto].
  destruct (av_samples_alloc_ret a <? 0) eqn:E1.
  { apply Z.ltb_lt in E1. rewrite nonzero_negative by assumption.
    apply Hmore. }
  change (nonzero 0) with false. cbv iota.
  destruct (swr_convert_ret a <? 0) eqn:E2.
  { apply Z.ltb_lt in E2. rewrite nonzero_negative by assumption.
    apply Hmore. }
  change (nonzero 0) with false. cbv iota.
  pose proof (add_samples_to_fifo_effect (av_audio_fifo_realloc_ret a)
                (input_frame_nb_samples a) st0) as Hadd.
  destruct (add_samples_to_fifo _ _ st0) as [r1 st1].
  cbn [snd] in Hadd. destruct Hadd as (_ & (msgs & Hh) & _).
  assert (Hst1 : exists d',
             history st1 = history st ++ d'
             /\ forallb decode_event d' = true
             /\ (decoded_frames d' = []
                 \/ decoded_frames d' = [input_frame_nb_samples a])).
  { exists (d ++ map Stderr msgs). rewrite Hh, Hd, <- app_assoc.
    split; [reflexivity|].
    assert (Hm : forallb decode_event (map Stderr msgs) = true
                 /\ decoded_frames (map Stderr msgs) = [])
      by (clear; induction msgs; simpl; auto).
    destruct Hm as [Hm1 Hm2].
    rewrite forallb_app, Hev, Hm1, decoded_frames_app, Hm2, app_nil_r.
    auto. }
  destruct (nonzero r1); exact Hst1.
Qed.

(** The history of a call of the encoder: what was there, then frames
    handed over, packets and lines only; at most one frame is handed over
    and at most one packet written, and a packet only after a frame. *)
Lemma encode_audio_frame_history (a : encode_answers)
    (frame : option AVFrame) (dp : bool) (st : state) :
  exists d,
    history (snd (encode_audio_frame a frame dp st)) = history st ++ d
    /\ forallb encode_event d = true
    /\ (packets_written d <= frames_pushed d <= 1)%nat
    /\ (snd (fst (encode_audio_frame a frame dp st)) = true ->
        fst (fst (encode_audio_frame a frame dp st)) = 0 ->
        packets_written d = 1%nat).
Proof.
  unfold encode_audio_frame, init_packet, fprintf_stderr, frames_pushed.
  destruct (output_packet_alloc_ok a); cbn [negb].
  - destruct (Z.ltb_spec 0 0); [lia|].
    destruct frame as [f|]; case_tests; simpl;
      first [ eexists [_]; split; [reflexivity|]; simpl;
              repeat split; auto; try lia; discriminate
            | eexists [_; _]; rewrite <- ?app_assoc; split; [reflexivity|];
              simpl; repeat split; auto; try lia; discriminate
            | eexists [_; _; _]; rewrite <- ?app_assoc;
              split; [reflexivity|];
              simpl; repeat split; auto; try lia; discriminate ].
  - pose proof ENOMEM_pos. unfold AVERROR.
    destruct (Z.ltb_spec (- ENOMEM) 0); [|lia]. simpl.
    eexists [_]. split; [reflexivity|]. simpl.
    repeat split; auto; try lia.
Qed.

End Histories.

Section Balance.

Context {codes : av_error_codes}.

(** A decode step puts in the buffer at most the one frame it put on
    record as decoded. *)
Lemma read_decode_convert_and_store_balance (a : pump_answers)
    (fin : bool) (st : state) :
  let st' := snd (read_decode_convert_and_store a fin st) in
  fifo_ok (fifo st) -> 0 <= input_frame_nb_samples a ->
  (fifo st' = fifo st
   /\ (decoded_frames (history st') = decoded_frames (history st)
       \/ decoded_frames (history st')
          = decoded_frames (history st) ++ [input_frame_nb_samples a]))
  \/ (av_audio_fifo_size (fifo st')
      <= av_audio_fifo_size (fifo st) + input_frame_nb_samples a
      /\ decoded_frames (history st')
         = decoded_frames (history st) ++ [input_frame_nb_samples a]).
Proof.
  intros st' Hok Hn. subst st'.
  destruct (read_decode_convert_and_store_history a fin st)
    as (d & Hd & _ & Hdec).
  assert (Hframes :
    decoded_frames (history (snd (read_decode_convert_and_store a fin st)))
    = decoded_frames (history st)
    \/ decoded_frames (history (snd (read_decode_convert_and_store a fin st)))
       = decoded_frames (history st) ++ [input_frame_nb_samples a]).
  { rewrite Hd, decoded_frames_app.
    destruct Hdec as [-> | ->]; [left; apply app_nil_r | right; reflexivity]. }
  clear Hd Hdec. revert Hframes.
  unfold read_decode_convert_and_store, init_input_frame,
    init_converted_samples, convert_samples.
  destruct (input_frame_alloc_ok a); cbn [negb].
  2:{ rewrite nonzero_negative by (pose proof ENOMEM_pos; unfold AVERROR; lia).
      cbn. auto. }
  change (nonzero 0) with false. cbv iota.
  pose proof (decode_audio_frame_effect a false fin st) as Heff.
  destruct (decode_audio_frame a false fin st) as [[[r0 dp] fin0] st0].
  cbn [fst snd] in Heff. destruct Heff as (Hf & _ & _ & _ & Hdata & _).
  destruct (nonzero r0) eqn:Hr0; [cbn [snd]; rewrite Hf; auto|].
  destruct fin0; [cbn [snd]; rewrite Hf; auto|].
  destruct dp; [|cbn [snd]; rewrite Hf; auto].
  z_tests. destruct (Hdata Hr0 eq_refl) as (_ & Hst0 & _).
  destruct (Z.ltb_spec (av_samples_alloc_ret a) 0).
  { rewrite nonzero_negative by assumption. cbn [snd fprintf_stderr log fifo].
    rewrite Hf. auto. }
  change (nonzero 0) with false. cbv iota.
  destruct (Z.ltb_spec (swr_convert_ret a) 0).
  { rewrite nonzero_negative by assumption. cbn [snd fprintf_stderr log fifo].
    rewrite Hf. auto. }
  change (nonzero 0) with false. cbv iota.
  assert (Hok0 : fifo_ok (fifo st0)) by (rewrite Hf; exact Hok).
  pose proof (add_samples_to_fifo_level (av_audio_fifo_realloc_ret a)
                (input_frame_nb_samples a) st0 Hok0 Hn) as Hadd.
  pose proof (add_samples_to_fifo_effect (av_audio_fifo_realloc_ret a)
                (input_frame_nb_samples a) st0) as Hadd'.
  destruct (add_samples_to_fifo _ _ st0) as [r1 st1].
  cbn [fst snd] in Hadd, Hadd'.
  destruct Hadd as (_ & _ & Hzero & Hfail & _).
  destruct Hadd' as (_ & (msgs & Hh) & _).
  assert (Hdec1 : decoded_frames (history st1)
                  = decoded_frames (history st) ++ [input_frame_nb_samples a]).
  { rewrite Hh, decoded_frames_app, Hst0.
    replace (decoded_frames (map Stderr msgs)) with (@nil Z)
      by (clear; induction msgs; simpl; auto).
    apply app_nil_r. }
  rewrite Hf in Hzero, Hfail.
  destruct (nonzero r1) eqn:Hr1; z_tests; cbn [snd]; intros _; right;
    (split; [|exact Hdec1]).
  - apply Hfail. assumption.
  - destruct (Hzero Hr1) as [-> _]. lia.
Qed.

(** A drain takes out of the buffer the frame it hands to the encoder; it
    never hands over a frame it has not taken out. *)
Lemma load_encode_and_write_frame (fa : frame_answers) (ea : encode_answers)
    (outccx : AVCodecContext) (st : state) :
  let size := Z.min (av_audio_fifo_size (fifo st)) (frame_size outccx) in
  let st' := snd (load_encode_and_write fa ea outccx st) in
  0 <= size ->
  (sent_frames (history st') = sent_frames (history st)
   /\ (fifo st' = fifo st
       \/ av_audio_fifo_size (fifo st')
          = av_audio_fifo_size (fifo st) - size))
  \/ (sent_frames (history st')
      = sent_frames (history st)
          ++ [{| nb_samples := size; frame_pts := pts st |}]
      /\ av_audio_fifo_size (fifo st')
         = av_audio_fifo_size (fifo st) - size).
Proof.
  unfold load_encode_and_write, init_output_frame.
  rewrite FFMIN_is_min.
  set (size := Z.min (av_audio_fifo_size (fifo st)) (frame_size outccx)).
  cbv zeta. intros Hsize.
  destruct (output_frame_alloc_ok fa); cbn [negb].
  2:{ rewrite nonzero_negative by apply AVERROR_EXIT_neg. hist. auto. }
  destruct (Z.ltb_spec (av_frame_get_buffer_ret fa) 0) as [Hbuf|Hbuf].
  { rewrite nonzero_negative by assumption. hist. auto. }
  change (nonzero 0) with false. cbv iota.
  unfold av_audio_fifo_read.
  destruct (Z.ltb_spec size 0) as [Hneg|_]; [lia|].
  assert (Hmin : Z.min size (fifo_nb_samples (fifo st)) = size)
    by (unfold size, av_audio_fifo_size; lia).
  rewrite Hmin, Z.ltb_irrefl.
  set (st1 := with_fifo
                {| fifo_nb_samples := fifo_nb_samples (fifo st) - size;
                   fifo_allocated_samples :=
                     fifo_allocated_samples (fifo st) |} st).
  pose proof (encode_audio_frame_effect ea
                (Some {| nb_samples := size; frame_pts := 0 |}) false st1)
    as Heff.
  destruct (encode_audio_frame ea _ false st1) as [[r0 dw] st0].
  cbn [fst snd nb_samples] in Heff.
  destruct Heff as (Hf & _ & Hs).
  assert (Hlevel : av_audio_fifo_size (fifo st0)
                   = av_audio_fifo_size (fifo st) - size)
    by (rewrite Hf; reflexivity).
  assert (Hres : forall r : Z,
    (sent_frames (history (snd (r, st0))) = sent_frames (history st)
     /\ (fifo (snd (r, st0)) = fifo st
         \/ av_audio_fifo_size (fifo (snd (r, st0)))
            = av_audio_fifo_size (fifo st) - size))
    \/ (sent_frames (history (snd (r, st0)))
        = sent_frames (history st)
            ++ [{| nb_samples := size; frame_pts := pts st |}]
        /\ av_audio_fifo_size (fifo (snd (r, st0)))
           = av_audio_fifo_size (fifo st) - size)).
  { intros r. cbn [snd].
    destruct Hs as [(Hs & _) | (f & Hfr & _ & Hs & _)].
    - left. split; [exact Hs | right; exact Hlevel].
    - right. inversion Hfr; subst f. split; [exact Hs | exact Hlevel]. }
  destruct (nonzero r0); apply Hres.
Qed.

(** The history of a drain: what was there, then what one call of the
    encoder leaves behind, or one line; a frame is handed over only by a
    drain that comes to its call of [encode_audio_frame]. *)
Lemma load_encode_and_write_history (fa : frame_answers)
    (ea : encode_answers) (outccx : AVCodecContext) (st : state) :
  exists d,
    history (snd (load_encode_and_write fa ea outccx st)) = history st ++ d
    /\ forallb encode_event d = true
    /\ (packets_written d <= frames_pushed d)%nat
    /\ (frames_pushed d
        <= if reaches_encode_audio_frame fa outccx st then 1 else 0)%nat
    /\ null_sends d = O.
Proof.
  unfold load_encode_and_write, init_output_frame,
    reaches_encode_audio_frame.
  set (size := FFMIN (av_audio_fifo_size (fifo st)) (frame_size outccx)).
  assert (Hline : forall msg,
             exists d,
               history st ++ [Stderr msg] = history st ++ d
               /\ forallb encode_event d = true
               /\ (packets_written d <= frames_pushed d)%nat
               /\ (frames_pushed d <= 0)%nat
               /\ null_sends d = O).
  { intros msg. exists [Stderr msg]. cbn. conj_split; auto. }
  destruct (output_frame_alloc_ok fa); cbn [negb andb].
  2:{ rewrite nonzero_negative by apply AVERROR_EXIT_neg. apply Hline. }
  destruct (Z.ltb_spec (av_frame_get_buffer_ret fa) 0) as [Hbuf|Hbuf];
    cbn [negb andb].
  { rewrite nonzero_negative by assumption. apply Hline. }
  change (nonzero 0) with false. cbv iota.
  destruct (av_audio_fifo_read (fifo st) size) as [read af].
  cbn [fst].
  destruct (read <? size); cbn [negb]; [apply Hline|].
  destruct (encode_audio_frame_history ea
              (Some {| nb_samples := size; frame_pts := 0 |}) false
              (with_fifo af st)) as (d & Hd & Hev & Hcount & _).
  pose proof (encode_audio_frame_return ea
                (Some {| nb_samples := size; frame_pts := 0 |}) false
                (with_fifo af st)) as (Hnull & _).
  destruct (encode_audio_frame ea _ false (with_fifo af st))
    as [[r0 dw] st0].
  cbn [snd history with_fifo] in Hd, Hnull.
  assert (Hres : forall r : Z,
             exists d,
               history (snd (r, st0)) = history st ++ d
               /\ forallb encode_event d = true
               /\ (packets_written d <= frames_pushed d)%nat
               /\ (frames_pushed d <= 1)%nat
               /\ null_sends d = O).
  { intros r. exists d. cbn [snd].
    rewrite Hd, null_sends_app in Hnull. conj_split; auto; lia. }
  destruct (nonzero r0); apply Hres.
Qed.

End Balance.

Section Steps.

Context {codes : av_error_codes}.
Variable env : environment.
Variable outccx : AVCodecContext.

(** What one step of the loop is: a decode step, a drain, a call of the
    encoder with the null frame, or a move that calls nothing. *)
Lemma main_step_cases (s : main_state) :
  let s' := main_step env outccx s in
  (at_phase s = FILLING /\ fill_condition outccx s = true
   /\ exists r,
       let res := read_decode_convert_and_store
                    (pump_env env (pump_calls s)) (finished s) (world s) in
       r = fst (fst res)
       /\ world s' = snd res /\ finished s' = snd (fst res)
       /\ at_phase s'
          = (if nonzero r then FAILED
             else if snd (fst res) then DRAINING else FILLING)
       /\ outlooptimes s' = outlooptimes s
       /\ pump_calls s' = S (pump_calls s)
       /\ drain_calls s' = drain_calls s
       /\ encode_calls s' = encode_calls s)
  \/ (at_phase s = DRAINING /\ drain_condition outccx s = true
      /\ exists r,
          let res := load_encode_and_write (frame_env env (drain_calls s))
                       (encode_env env (encode_calls s)) outccx (world s) in
          r = fst res
          /\ world s' = snd res /\ finished s' = finished s
          /\ at_phase s' = (if nonzero r then FAILED else DRAINING)
          /\ outlooptimes s' = outlooptimes s
          /\ pump_calls s' = pump_calls s
          /\ drain_calls s' = S (drain_calls s)
          /\ encode_calls s'
             = if reaches_encode_audio_frame
                    (frame_env env (drain_calls s)) outccx (world s)
               then S (encode_calls s)
               else encode_calls s)
  \/ (at_phase s = FLUSHING
      /\ exists r,
          let res := encode_audio_frame (encode_env env (encode_calls s))
                       None false (world s) in
          r = fst (fst res)
          /\ world s' = snd res /\ finished s' = finished s
          /\ at_phase s'
             = (if nonzero r then FAILED
                else if snd (fst res) then FLUSHING else DONE)
          /\ outlooptimes s' = outlooptimes s
          /\ pump_calls s' = pump_calls s
          /\ drain_calls s' = drain_calls s
          /\ encode_calls s' = S (encode_calls s))
  \/ (world s' = world s
      /\ pump_calls s' = pump_calls s
      /\ drain_calls s' = drain_calls s
      /\ encode_calls s' = encode_calls s
      /\ ((at_phase s = FILLING /\ fill_condition outccx s = false
           /\ s' = goto DRAINING s)
          \/ (at_phase s = DRAINING /\ drain_condition outccx s = false
              /\ finished s = true /\ s' = goto FLUSHING s)
          \/ (at_phase s = DRAINING /\ drain_condition outccx s = false
              /\ finished s = false /\ s' = next_round s)
          \/ ((at_phase s = DONE \/ at_phase s = FAILED) /\ s' = s))).
Proof.
  unfold main_step.
  destruct (at_phase s) eqn:Hphase.
  - destruct (fill_condition outccx s) eqn:Hcond.
    + left. conj_split; auto. unfold call_pump.
      destruct (read_decode_convert_and_store _ _ _) as [[r fin'] w].
      exists r. cbn [fst snd].
      destruct (nonzero r); [|destruct fin'];
        cbn; rewrite ?Hphase; conj_split; reflexivity.
    + right; right; right. cbn. conj_split; auto.
  - destruct (drain_condition outccx s) eqn:Hcond.
    + right; left. conj_split; auto. unfold call_drain.
      destruct (load_encode_and_write _ _ _ _) as [r w].
      exists r. cbn [fst snd].
      destruct (nonzero r); cbn; rewrite ?Hphase; conj_split; reflexivity.
    + right; right; right.
      destruct (finished s) eqn:Hfin; cbn; conj_split; auto.
      * right; left. auto.
      * right; right; left. auto.
  - right; right; left. conj_split; auto. unfold call_flush.
    destruct (encode_audio_frame _ None false (world s)) as [[r dw] w].
    exists r. cbn [fst snd].
    destruct (nonzero r); [|destruct dw];
      cbn; rewrite ?Hphase; conj_split; reflexivity.
  - right; right; right. conj_split; auto.
    right; right; right. auto.
  - right; right; right. conj_split; auto.
    right; right; right. auto.
Qed.

(** An invariant of the steps holds of every state the loop reaches. *)
Lemma reachable_ind (P : main_state -> Prop) :
  P (main_start (av_audio_fifo_alloc 1)) ->
  (forall s, reachable env outccx s -> P s -> P (main_step env outccx s)) ->
  forall s, reachable env outccx s -> P s.
Proof.
  intros Hstart Hstep s [n ->]. induction n as [|n IH]; [exact Hstart|].
  rewrite main_loop_succ. apply Hstep; [exists n; reflexivity | exact IH].
Qed.

(** Once the loop is over, further steps change nothing. *)
Lemma main_loop_over (n : nat) (s : main_state) :
  at_phase s = DONE \/ at_phase s = FAILED ->
  main_loop env outccx n s = s.
Proof.
  intros Hover. induction n as [|n IH]; [reflexivity|].
  rewrite main_loop_succ, IH. unfold main_step.
  destruct Hover as [-> | ->]; reflexivity.
Qed.

End Steps.

Section Keeping.

Context {codes : av_error_codes}.

(** What a decode step leaves alone. *)
Lemma read_decode_convert_and_store_keeps (a : pump_answers) (fin : bool)
    (st : state) :
  let st' := snd (read_decode_convert_and_store a fin st) in
  pts st' = pts st
  /\ sent_frames (history st') = sent_frames (history st)
  /\ null_sends (history st') = null_sends (history st)
  /\ (fifo_ok (fifo st) ->
      fifo_ok (fifo st')
      /\ av_audio_fifo_size (fifo st) <= av_audio_fifo_size (fifo st')).
Proof.
  destruct (read_decode_convert_and_store a fin st) as [[r fin'] st'] eqn:E.
  apply read_decode_convert_and_store_effect in E.
  destruct E as (Hp & Hs & Hn & _ & _ & Hok). cbn [snd]. auto.
Qed.

(** What a drain leaves alone, and the one frame it may hand over. *)
Lemma load_encode_and_write_keeps (fa : frame_answers) (ea : encode_answers)
    (outccx : AVCodecContext) (st : state) :
  let size := Z.min (av_audio_fifo_size (fifo st)) (frame_size outccx) in
  let st' := snd (load_encode_and_write fa ea outccx st) in
  decoded_frames (history st') = decoded_frames (history st)
  /\ null_sends (history st') = null_sends (history st)
  /\ (fifo_ok (fifo st) ->
      fifo_ok (fifo st')
      /\ av_audio_fifo_size (fifo st') <= av_audio_fifo_size (fifo st))
  /\ (sent_frames (history st') = sent_frames (history st)
      \/ sent_frames (history st')
         = sent_frames (history st)
             ++ [{| nb_samples := size; frame_pts := pts st |}]).
Proof.
  destruct (load_encode_and_write fa ea outccx st) as [r st'] eqn:E.
  apply load_encode_and_write_effect in E. cbv zeta in E.
  destruct E as (Hd & Hn & _ & Hs & Hok & _). cbn [snd].
  conj_split; auto. destruct Hs as [(Hs & _) | (Hs & _)]; auto.
Qed.

(** The calls of the encoder, read off a history. *)
Lemma sends_app (h1 h2 : list event) :
  sends (h1 ++ h2) = sends h1 ++ sends h2.
Proof.
  induction h1 as [|e h1 IH]; simpl; [reflexivity|].
  destruct e; simpl; rewrite IH; reflexivity.
Qed.

Lemma sends_frames (h : list event) :
  null_sends h = O -> sends h = map Some (sent_frames h).
Proof.
  induction h as [|e h IH]; simpl; [reflexivity|].
  destruct e as [| [f|] | | | |]; simpl; intros H; try discriminate;
    rewrite IH by assumption; reflexivity.
Qed.

Lemma sends_nulls (h : list event) :
  sent_frames h = [] -> sends h = repeat None (null_sends h).
Proof.
  induction h as [|e h IH]; simpl; [reflexivity|].
  destruct e as [| [f|] | | | |]; simpl; intros H; try discriminate;
    rewrite IH by assumption; reflexivity.
Qed.

End Keeping.

Section Bookkeeping.

Context {codes : av_error_codes}.
Variable env : environment.
Variable outccx : AVCodecContext.

(** X4.  The program never invents samples: in every state the loop of
    [main] goes through, failed runs included, the samples in the buffer
    and the samples handed to the encoder are together no more than the
    samples the decoder handed out -- for an encoder frame size and decoder
    sample counts that are not negative. *)
Theorem samples_are_never_invented (s : main_state) :
  0 <= frame_size outccx ->
  (forall i, 0 <= input_frame_nb_samples (pump_env env i)) ->
  reachable env outccx s ->
  level s + sent_samples (history (world s))
  <= decoded_samples (history (world s)).
Proof.
  intros Hsize Hcounts Hreach.
  revert s Hreach. apply (reachable_ind env outccx);
    [vm_compute; discriminate|]. intros s Hs IH.
  destruct (reachable_invariant env outccx s Hs) as (Hok & _).
  unfold level in *.
  destruct (main_step_cases env outccx s)
    as [(_ & _ & r & _ & Hw & _)
       |[(_ & _ & r & _ & Hw & _)
        |[(_ & r & _ & Hw & _) | (Hw & _)]]];
    rewrite Hw; clear Hw.
  - (* a decode step *)
    pose proof (read_decode_convert_and_store_keeps
                  (pump_env env (pump_calls s)) (finished s) (world s))
      as (_ & Hsent & _).
    pose proof (read_decode_convert_and_store_balance
                  (pump_env env (pump_calls s)) (finished s) (world s)
                  Hok (Hcounts _)) as Hbal.
    cbv zeta in Hsent, Hbal. unfold sent_samples, decoded_samples in *.
    rewrite Hsent.
    specialize (Hcounts (pump_calls s)).
    destruct Hbal as [(Hf & [Hd | Hd]) | (Hl & Hd)]; rewrite Hd;
      rewrite ?Hf, ?sum_app; cbn [sum fold_right]; lia.
  - (* a drain *)
    pose proof (load_encode_and_write_keeps
                  (frame_env env (drain_calls s))
                  (encode_env env (encode_calls s)) outccx (world s))
      as (Hdec & _).
    pose proof (load_encode_and_write_frame
                  (frame_env env (drain_calls s))
                  (encode_env env (encode_calls s)) outccx (world s))
      as Hframe.
    cbv zeta in Hdec, Hframe. unfold sent_samples, decoded_samples in *.
    rewrite Hdec.
    assert (Hmin : 0 <= Z.min (av_audio_fifo_size (fifo (world s)))
                          (frame_size outccx))
      by (unfold fifo_ok, av_audio_fifo_size in *; lia).
    destruct (Hframe Hmin) as [(Hsent & [Hf | Hl]) | (Hsent & Hl)];
      rewrite Hsent; rewrite ?Hf, ?Hl, ?map_app, ?sum_app;
      cbn [map nb_samples sum fold_right]; lia.
  - (* a call with the null frame *)
    pose proof (encode_audio_frame_effect
                  (encode_env env (encode_calls s)) None false (world s))
      as (Hf & Hdec & [(Hsent & _) | (f & Habs & _)]); [|discriminate].
    unfold sent_samples, decoded_samples in *.
    rewrite Hf, Hdec, Hsent. exact IH.
  - exact IH.
Qed.

End Bookkeeping.

Section Frames.

Context {codes : av_error_codes}.
Variable env : environment.
Variable outccx : AVCodecContext.

(** X5.  Every frame handed to the encoder has exactly the encoder's frame
    size, except possibly the last one: a shorter frame, of fewer samples
    but more than none, is handed over only once the end of the input has
    been seen, it empties the buffer, and no frame follows it. *)
Theorem frames_are_full_except_the_last (s : main_state) :
  reachable env outccx s ->
  exists full last,
    sent_frames (history (world s)) = full ++ last
    /\ Forall (fun f => nb_samples f = frame_size outccx) full
    /\ (last = []
        \/ exists f,
            last = [f]
            /\ 0 < nb_samples f < frame_size outccx
            /\ finished s = true /\ level s = 0).
Proof.
  revert s. apply (reachable_ind env outccx).
  { exists [], []. cbn. auto. }
  intros s Hs (full & last & Hsent & Hfull & Hlast).
  destruct (reachable_invariant env outccx s Hs)
    as (Hok & Hpos & Hfill & _).
  unfold level in *.
  destruct (main_step_cases env outccx s)
    as [(Hphase & _ & r & _ & Hw & Hfin & _)
       |[(Hphase & Hcond & r & _ & Hw & Hfin & _)
        |[(Hphase & r & _ & Hw & Hfin & _) | (Hw & _ & _ & _ & Hmove)]]].
  - (* a decode step: no short frame was handed over so far *)
    pose proof (read_decode_convert_and_store_keeps
                  (pump_env env (pump_calls s)) (finished s) (world s))
      as (_ & Hkeep & _).
    cbv zeta in Hkeep. rewrite Hw, Hkeep.
    exists full, last. conj_split; auto.
    destruct Hlast as [Hlast | (f & _ & _ & Hf & _)]; [auto|].
    exfalso. apply (Hfill Hf Hphase).
  - (* a drain *)
    pose proof (load_encode_and_write_keeps
                  (frame_env env (drain_calls s))
                  (encode_env env (encode_calls s)) outccx (world s))
      as (_ & _ & _ & Hkeep).
    pose proof (load_encode_and_write_frame
                  (frame_env env (drain_calls s))
                  (encode_env env (encode_calls s)) outccx (world s))
      as Hframe.
    cbv zeta in Hkeep, Hframe. rewrite Hw, Hfin.
    unfold drain_condition in Hcond.
    apply orb_true_iff in Hcond.
    assert (Hnone : last = []).
    { destruct Hlast as [Hlast | (f & _ & Hshort & Hf & Hzero)]; [auto|].
      exfalso. rewrite Hzero, Hf in Hcond.
      destruct Hcond as [Hcond | Hcond]; [|discriminate].
      rewrite Z.geb_leb in Hcond. apply Z.leb_le in Hcond. lia. }
    subst last. rewrite app_nil_r in Hsent.
    destruct (Z_le_gt_dec (frame_size outccx)
                (av_audio_fifo_size (fifo (world s)))) as [Hfullframe|Hshort].
    + (* a frame of the encoder's size *)
      rewrite Z.min_r in Hkeep by assumption.
      destruct Hkeep as [Hkeep | Hkeep]; rewrite Hkeep, Hsent.
      * exists full, []. rewrite app_nil_r. auto.
      * eexists (full ++ [_]), []. rewrite app_nil_r.
        conj_split; [reflexivity| |auto].
        apply Forall_app. split; [assumption|].
        constructor; [reflexivity | constructor].
    + (* the rest of the buffer, at the end of the input *)
      destruct Hcond as [Hcond | Hcond].
      { rewrite Z.geb_leb in Hcond. apply Z.leb_le in Hcond. lia. }
      apply andb_true_iff in Hcond. destruct Hcond as [Hf Hsome].
      rewrite Z.gtb_ltb in Hsome. apply Z.ltb_lt in Hsome.
      rewrite Z.min_l in Hframe by lia.
      destruct (Hframe ltac:(lia)) as [(Hsame & _) | (Hmore & Hlevel)].
      * rewrite Hsame, Hsent. exists full, []. rewrite app_nil_r. auto.
      * rewrite Hmore, Hsent. eexists full, [_].
        conj_split; [reflexivity|assumption|].
        right. eexists. conj_split; [reflexivity| | |assumption|];
          cbn [nb_samples]; lia.
  - (* a call with the null frame *)
    pose proof (encode_audio_frame_effect
                  (encode_env env (encode_calls s)) None false (world s))
      as (Hf & _ & [(Hkeep & _) | (f & Habs & _)]); [|discriminate].
    rewrite Hw, Hfin, Hf, Hkeep. exists full, last. auto.
  - (* a move that calls nothing *)
    rewrite Hw. exists full, last. conj_split; auto.
    destruct Hlast as [Hlast | (f & Hl & Hshort & Hf & Hzero)]; [auto|].
    right. exists f. conj_split; auto; try lia.
    destruct Hmove as [(_ & _ & ->) | [(_ & _ & _ & ->)
                      | [(_ & _ & Hnot & _) | (_ & ->)]]];
      cbn [finished goto]; congruence.
Qed.

End Frames.

Section Capacity.

Context {codes : av_error_codes}.

Lemma int32_le (z : Z) : 0 <= z -> int32 z <= z.
Proof.
  intros Hz. unfold int32.
  pose proof (Z.mod_pos_bound (z + 2 ^ 31) (2 ^ 32) ltac:(lia)) as Hb.
  destruct (Z_lt_ge_dec (z + 2 ^ 31) (2 ^ 32)) as [Hsmall|Hbig].
  - rewrite Z.mod_small by lia. lia.
  - lia.
Qed.

(** [add_samples_to_fifo] grows the storage to the level it is about to
    reach, and no further. *)
Lemma add_samples_to_fifo_capacity (r count : Z) (st : state) :
  fifo_ok (fifo st) -> 0 <= count ->
  fifo_allocated_samples (fifo (snd (add_samples_to_fifo r count st)))
  <= Z.max (fifo_allocated_samples (fifo st))
       (av_audio_fifo_size (fifo st) + count).
Proof.
  intros Hok Hcount.
  pose proof (int32_le (av_audio_fifo_size (fifo st) + count)) as Hle.
  unfold add_samples_to_fifo, av_audio_fifo_realloc, av_audio_fifo_write,
    av_audio_fifo_space, av_audio_fifo_size, fprintf_stderr, fifo_ok in *.
  case_tests; simpl; z_tests;
    repeat match goal with
           | H : (_, _) = (_, _) |- _ => inversion H; subst; clear H
           end; simpl; lia.
Qed.

(** A decode step grows the storage of the buffer to the level the buffer
    had plus the frame, and no further. *)
Lemma read_decode_convert_and_store_capacity (a : pump_answers)
    (fin : bool) (st : state) :
  let st' := snd (read_decode_convert_and_store a fin st) in
  fifo_ok (fifo st) -> 0 <= input_frame_nb_samples a ->
  av_audio_fifo_size (fifo st')
  <= av_audio_fifo_size (fifo st) + input_frame_nb_samples a
  /\ fifo_allocated_samples (fifo st')
     <= Z.max (fifo_allocated_samples (fifo st))
          (av_audio_fifo_size (fifo st) + input_frame_nb_samples a).
Proof.
  cbv zeta. intros Hok Hn.
  unfold read_decode_convert_and_store, init_input_frame,
    init_converted_samples, convert_samples.
  destruct (input_frame_alloc_ok a); cbn [negb].
  2:{ rewrite nonzero_negative by (pose proof ENOMEM_pos; unfold AVERROR; lia).
      cbn. lia. }
  change (nonzero 0) with false. cbv iota.
  pose proof (decode_audio_frame_effect a false fin st) as Heff.
  destruct (decode_audio_frame a false fin st) as [[[r0 dp] fin0] st0].
  cbn [fst snd] in Heff. destruct Heff as (Hf & _).
  destruct (nonzero r0); [cbn [snd]; rewrite Hf; lia|].
  destruct fin0; [cbn [snd]; rewrite Hf; lia|].
  destruct dp; [|cbn [snd]; rewrite Hf; lia].
  destruct (Z.ltb_spec (av_samples_alloc_ret a) 0).
  { rewrite nonzero_negative by assumption. cbn [snd fprintf_stderr log fifo].
    rewrite Hf. lia. }
  change (nonzero 0) with false. cbv iota.
  destruct (Z.ltb_spec (swr_convert_ret a) 0).
  { rewrite nonzero_negative by assumption. cbn [snd fprintf_stderr log fifo].
    rewrite Hf. lia. }
  change (nonzero 0) with false. cbv iota.
  assert (Hok0 : fifo_ok (fifo st0)) by (rewrite Hf; exact Hok).
  pose proof (add_samples_to_fifo_level (av_audio_fifo_realloc_ret a)
                (input_frame_nb_samples a) st0 Hok0 Hn) as Hadd.
  pose proof (add_samples_to_fifo_capacity (av_audio_fifo_realloc_ret a)
                (input_frame_nb_samples a) st0 Hok0 Hn) as Hcap.
  destruct (add_samples_to_fifo _ _ st0) as [r1 st1].
  cbn [fst snd] in Hadd, Hcap.
  destruct Hadd as (_ & _ & Hzero & Hfail & _).
  rewrite Hf in Hzero, Hfail, Hcap.
  destruct (nonzero r1) eqn:Hr1; z_tests; cbn [snd];
    (split; [|exact Hcap]).
  - apply Hfail. assumption.
  - destruct (Hzero Hr1) as [-> _]. lia.
Qed.

(** A drain leaves the storage of the buffer as large as it was. *)
Lemma load_encode_and_write_capacity (fa : frame_answers)
    (ea : encode_answers) (outccx : AVCodecContext) (st : state) :
  fifo_allocated_samples (fifo (snd (load_encode_and_write fa ea outccx st)))
  = fifo_allocated_samples (fifo st).
Proof.
  unfold load_encode_and_write, init_output_frame.
  set (size := FFMIN (av_audio_fifo_size (fifo st)) (frame_size outccx)).
  destruct (output_frame_alloc_ok fa); cbn [negb].
  2:{ rewrite nonzero_negative by apply AVERROR_EXIT_neg. reflexivity. }
  destruct (Z.ltb_spec (av_frame_get_buffer_ret fa) 0) as [Hbuf|Hbuf].
  { rewrite nonzero_negative by assumption. reflexivity. }
  change (nonzero 0) with false. cbv iota.
  assert (Hread : fifo_allocated_samples
                    (snd (av_audio_fifo_read (fifo st) size))
                  = fifo_allocated_samples (fifo st))
    by (unfold av_audio_fifo_read; destruct (size <? 0); reflexivity).
  destruct (av_audio_fifo_read (fifo st) size) as [read af].
  cbn [snd] in Hread.
  destruct (read <? size); [exact Hread|].
  pose proof (encode_audio_frame_effect ea
                (Some {| nb_samples := size; frame_pts := 0 |}) false
                (with_fifo af st)) as (Hf & _).
  destruct (encode_audio_frame ea _ false (with_fifo af st))
    as [[r0 dw] st0].
  cbn [snd with_fifo fifo] in Hf.
  destruct (nonzero r0); cbn [snd]; rewrite Hf; exact Hread.
Qed.

Variable env : environment.
Variable outccx : AVCodecContext.

(** X6.  The buffer stays small: when the decoder's frames have between 0
    and [M] samples, the buffer never holds more than one encoder frame
    less one sample plus one decoder frame, and its storage is never grown
    beyond that (or beyond the one sample it starts with). *)
Theorem buffer_is_bounded (M : Z) (s : main_state) :
  (forall i, 0 <= input_frame_nb_samples (pump_env env i) <= M) ->
  reachable env outccx s ->
  0 <= level s <= Z.max 0 (frame_size outccx - 1 + M)
  /\ fifo_allocated_samples (fifo (world s))
     <= Z.max 1 (frame_size outccx - 1 + M).
Proof.
  intros Hcounts. revert s. apply (reachable_ind env outccx).
  { cbn. lia. }
  intros s Hs IH.
  destruct (reachable_invariant env outccx s Hs) as (Hok & _).
  unfold level in *.
  destruct (main_step_cases env outccx s)
    as [(_ & Hcond & r & _ & Hw & _)
       |[(_ & _ & r & _ & Hw & _)
        |[(_ & r & _ & Hw & _) | (Hw & _)]]];
    rewrite Hw; clear Hw.
  - (* a decode step is taken only below one encoder frame *)
    unfold fill_condition in Hcond. apply Z.ltb_lt in Hcond.
    specialize (Hcounts (pump_calls s)).
    pose proof (read_decode_convert_and_store_capacity
                  (pump_env env (pump_calls s)) (finished s) (world s)
                  Hok ltac:(lia)) as (Hlevel & Hcap).
    pose proof (read_decode_convert_and_store_keeps
                  (pump_env env (pump_calls s)) (finished s) (world s))
      as (_ & _ & _ & Hgrow).
    destruct (Hgrow Hok) as [Hok' _].
    unfold fifo_ok, av_audio_fifo_size in *. lia.
  - pose proof (load_encode_and_write_keeps
                  (frame_env env (drain_calls s))
                  (encode_env env (encode_calls s)) outccx (world s))
      as (_ & _ & Hshrink & _).
    destruct (Hshrink Hok) as [Hok' Hle].
    rewrite load_encode_and_write_capacity.
    unfold fifo_ok, av_audio_fifo_size in *. lia.
  - pose proof (encode_audio_frame_effect
                  (encode_env env (encode_calls s)) None false (world s))
      as (Hf & _).
    rewrite Hf. exact IH.
  - exact IH.
Qed.

End Capacity.

Section Order.

Context {codes : av_error_codes}.
Variable env : environment.
Variable outccx : AVCodecContext.

(** What one step of the loop adds to the history: nothing but what its
    one call leaves behind -- no trailer; at most one frame handed to the
    encoder and at most one packet, and these only in a step that calls
    the encoder; at most one decoded frame, and this only in a decode
    step. *)
Lemma main_step_history (s : main_state) :
  let s' := main_step env outccx s in
  exists d,
    history (world s') = history (world s) ++ d
    /\ trailers_written d = O
    /\ (packets_written d <= frames_pushed d)%nat
    /\ (frames_pushed d + encode_calls s <= encode_calls s')%nat
    /\ (List.length (sent_frames d) + drain_calls s <= drain_calls s')%nat
    /\ (List.length (decoded_frames d) + pump_calls s <= pump_calls s')%nat.
Proof.
  cbv zeta.
  destruct (main_step_cases env outccx s)
    as [(_ & _ & r & _ & Hw & _ & _ & _ & Hp & Hd & He)
       |[(_ & _ & r & _ & Hw & _ & _ & _ & Hp & Hd & He)
        |[(_ & r & _ & Hw & _ & _ & _ & Hp & Hd & He)
         | (Hw & Hp & Hd & He & _)]]];
    rewrite Hw, Hp, Hd, He; clear Hw Hp Hd He.
  - destruct (read_decode_convert_and_store_history
                (pump_env env (pump_calls s)) (finished s) (world s))
      as (d & Hh & Hev & Hdec).
    destruct (decode_events_are_quiet d Hev) as (Hs & Hn & Hpk & Ht).
    exists d. unfold frames_pushed. rewrite Hs, Hn, Hpk.
    conj_split; auto; cbn; try lia.
    destruct Hdec as [-> | ->]; cbn; lia.
  - destruct (load_encode_and_write_history
                (frame_env env (drain_calls s))
                (encode_env env (encode_calls s)) outccx (world s))
      as (d & Hh & Hev & Hcount & Hcalled & Hnull).
    destruct (encode_events_are_quiet d Hev) as (Hdec & Ht).
    exists d. rewrite Hdec. unfold frames_pushed in *.
    destruct (reaches_encode_audio_frame _ _ _);
      conj_split; auto; cbn; lia.
  - destruct (encode_audio_frame_history
                (encode_env env (encode_calls s)) None false (world s))
      as (d & Hh & Hev & Hcount & _).
    destruct (encode_events_are_quiet d Hev) as (Hdec & Ht).
    pose proof (encode_audio_frame_effect
                  (encode_env env (encode_calls s)) None false (world s))
      as (_ & _ & [(Hkeep & _) | (f & Habs & _)]); [|discriminate].
    rewrite Hh, sent_frames_app in Hkeep.
    assert (Hsent : sent_frames d = []).
    { apply (app_inv_head (sent_frames (history (world s)))).
      rewrite app_nil_r. exact Hkeep. }
    exists d. rewrite Hdec, Hsent. unfold frames_pushed in *.
    conj_split; auto; cbn; lia.
  - exists []. rewrite app_nil_r. cbn. conj_split; auto; lia.
Qed.

(** The loop writes no trailer. *)
Lemma loop_writes_no_trailer (s : main_state) :
  reachable env outccx s -> trailers_written (history (world s)) = O.
Proof.
  revert s. apply (reachable_ind env outccx); [reflexivity|].
  intros s _ IH.
  destruct (main_step_history s) as (d & Hh & Ht & _).
  rewrite Hh, trailers_written_app, IH, Ht. reflexivity.
Qed.

(** X9.  The calls bound what is written: in every state the loop goes
    through, at most one packet was given to the muxer for each call of
    [avcodec_send_frame], at most one such call was made for each call of
    [encode_audio_frame] (a drain that returns before it comes to that
    call is none), at most one frame was handed over for each drain, and
    at most one frame was decoded for each decode step. *)
Theorem calls_bound_what_is_written (s : main_state) :
  reachable env outccx s ->
  (packets_written (history (world s))
   <= frames_pushed (history (world s)) <= encode_calls s)%nat
  /\ (List.length (sent_frames (history (world s))) <= drain_calls s)%nat
  /\ (List.length (decoded_frames (history (world s))) <= pump_calls s)%nat.
Proof.
  revert s. apply (reachable_ind env outccx); [cbn; lia|].
  intros s _ IH.
  destruct (main_step_history s) as (d & Hh & _ & Hpk & He & Hd & Hp).
  rewrite Hh, packets_written_app, frames_pushed_app, sent_frames_app,
    decoded_frames_app, !length_app.
  lia.
Qed.

(** X7.  The null frame comes last: the encoder is given all the frames
    first and then only null frames, and once it has been given the null
    frame the loop neither decodes nor drains again. *)
Theorem null_frames_come_last (s : main_state) :
  reachable env outccx s ->
  sends (history (world s))
  = map Some (sent_frames (history (world s)))
      ++ repeat None (null_sends (history (world s)))
  /\ (null_sends (history (world s)) <> O ->
      at_phase s = FLUSHING \/ at_phase s = DONE \/ at_phase s = FAILED).
Proof.
  revert s. apply (reachable_ind env outccx).
  { cbn. split; [reflexivity | congruence]. }
  intros s _ [IHsends IHphase].
  assert (Hnone : at_phase s = FILLING \/ at_phase s = DRAINING ->
                  null_sends (history (world s)) = O).
  { intros Hphase.
    destruct (null_sends (history (world s))); [reflexivity|].
    destruct (IHphase ltac:(discriminate)) as [H | [H | H]];
      destruct Hphase as [H' | H']; congruence. }
  destruct (main_step_cases env outccx s)
    as [(Hphase & _ & r & _ & Hw & _ & Hnext & _)
       |[(Hphase & _ & r & _ & Hw & _ & Hnext & _)
        |[(Hphase & r & _ & Hw & _ & Hnext & _)
         | (Hw & _ & _ & _ & Hmove)]]].
  - (* a decode step *)
    destruct (read_decode_convert_and_store_history
                (pump_env env (pump_calls s)) (finished s) (world s))
      as (d & Hh & Hev & _).
    destruct (decode_events_are_quiet d Hev) as (Hs & Hn & _).
    rewrite Hw, Hh, sends_app, sent_frames_app, null_sends_app.
    rewrite (sends_frames d Hn), Hs, Hn, Nat.add_0_r, !app_nil_r.
    split; [exact IHsends|]. intros Habs.
    rewrite Hnone in Habs by auto. congruence.
  - (* a drain *)
    destruct (load_encode_and_write_history
                (frame_env env (drain_calls s))
                (encode_env env (encode_calls s)) outccx (world s))
      as (d & Hh & _ & _ & _ & Hn).
    rewrite Hw, Hh, sends_app, sent_frames_app, null_sends_app.
    rewrite (sends_frames d Hn), Hn, IHsends, Hnone by auto.
    cbn [repeat Nat.add]. rewrite !app_nil_r, map_app.
    split; [reflexivity | congruence].
  - (* a call with the null frame *)
    destruct (encode_audio_frame_history
                (encode_env env (encode_calls s)) None false (world s))
      as (d & Hh & _).
    pose proof (encode_audio_frame_effect
                  (encode_env env (encode_calls s)) None false (world s))
      as (_ & _ & [(Hkeep & _) | (f & Habs & _)]); [|discriminate].
    rewrite Hh, sent_frames_app in Hkeep.
    assert (Hsent : sent_frames d = []).
    { apply (app_inv_head (sent_frames (history (world s)))).
      rewrite app_nil_r. exact Hkeep. }
    rewrite Hw, Hh, sends_app, sent_frames_app, null_sends_app.
    rewrite (sends_nulls d Hsent), Hsent, IHsends, app_nil_r, repeat_app,
      app_assoc.
    split; [reflexivity|]. intros _. rewrite Hnext.
    destruct (nonzero r); [|destruct (snd (fst _))]; auto.
  - (* a move that calls nothing *)
    rewrite Hw. split; [exact IHsends|]. intros Hnull.
    destruct Hmove as [(Hphase & _) | [(_ & _ & _ & ->)
                      | [(Hphase & _) | (Hover & ->)]]].
    + rewrite Hnone in Hnull by auto. congruence.
    + auto.
    + rewrite Hnone in Hnull by auto. congruence.
    + destruct Hover; auto.
Qed.

End Order.

Section EndOfInput.

Context {codes : av_error_codes}.

(** [decode_audio_frame] sets [finished] only when the demuxer reports the
    end of the file or the decoder the end of its stream. *)
Lemma decode_audio_frame_finished (a : pump_answers) (dp : bool)
    (st : state) :
  snd (fst (decode_audio_frame a dp false st)) = true ->
  av_read_frame_ret a = AVERROR_EOF
  \/ avcodec_receive_frame_ret a = AVERROR_EOF.
Proof.
  unfold decode_audio_frame, init_packet.
  case_tests; simpl; z_tests;
    repeat match goal with
           | H : (_, _) = (_, _) |- _ => inversion H; subst; clear H
           end; simpl;
    repeat match goal with
           | H : _ && _ = true |- _ =>
               apply andb_true_iff in H; destruct H
           | H : _ && _ = false |- _ =>
               apply andb_false_iff in H; destruct H
           | H : negb _ = true |- _ => apply negb_true_iff in H
           | H : negb _ = false |- _ => apply negb_false_iff in H
           end; z_tests;
    intros; auto; try discriminate; try lia.
Qed.

Lemma read_decode_convert_and_store_finished (a : pump_answers)
    (st : state) :
  snd (fst (read_decode_convert_and_store a false st)) = true ->
  av_read_frame_ret a = AVERROR_EOF
  \/ avcodec_receive_frame_ret a = AVERROR_EOF.
Proof.
  pose proof (decode_audio_frame_finished a false st) as Hdec.
  unfold read_decode_convert_and_store, init_input_frame,
    init_converted_samples, convert_samples.
  destruct (input_frame_alloc_ok a); cbn [negb].
  2:{ rewrite nonzero_negative by (pose proof ENOMEM_pos; unfold AVERROR; lia).
      cbn. discriminate. }
  change (nonzero 0) with false. cbv iota.
  destruct (decode_audio_frame a false false st) as [[[r0 dp] fin0] st0].
  cbn [fst snd] in Hdec.
  destruct (nonzero r0); [exact Hdec|].
  destruct fin0; [exact Hdec|].
  destruct dp; [|cbn; discriminate].
  case_tests; cbn [fst snd]; discriminate.
Qed.

Variable env : environment.
Variable outccx : AVCodecContext.

(** X11.  The loop takes the input as finished only when it is: whenever
    [finished] is set, the last decode step is the one in which the demuxer
    reported the end of the file or the decoder the end of its stream, and
    no decode step was made after it. *)
Theorem finished_means_the_input_ended (s : main_state) :
  reachable env outccx s ->
  finished s = true ->
  exists i,
    pump_calls s = S i
    /\ (av_read_frame_ret (pump_env env i) = AVERROR_EOF
        \/ avcodec_receive_frame_ret (pump_env env i) = AVERROR_EOF).
Proof.
  revert s.
  apply (reachable_ind env outccx
           (fun s =>
              finished s = true ->
              exists i,
                pump_calls s = S i
                /\ (av_read_frame_ret (pump_env env i) = AVERROR_EOF
                    \/ avcodec_receive_frame_ret (pump_env env i)
                       = AVERROR_EOF))); [discriminate|].
  intros s Hs IH.
  destruct (reachable_invariant env outccx s Hs) as (_ & _ & Hfill & _).
  destruct (main_step_cases env outccx s)
    as [(Hphase & _ & r & _ & _ & Hfin & _ & _ & Hp & _)
       |[(_ & _ & r & _ & _ & Hfin & _ & _ & Hp & _)
        |[(_ & r & _ & _ & Hfin & _ & _ & Hp & _)
         | (_ & Hp & _ & _ & Hmove)]]];
    rewrite Hp; try (rewrite Hfin; exact IH).
  - (* a decode step: [finished] was not set before it *)
    rewrite Hfin.
    assert (Hnot : finished s = false).
    { destruct (finished s); [|reflexivity].
      exfalso. apply (Hfill eq_refl Hphase). }
    rewrite Hnot. intros Hset. exists (pump_calls s).
    split; [reflexivity|].
    apply (read_decode_convert_and_store_finished _ (world s) Hset).
  - destruct Hmove as [(_ & _ & ->) | [(_ & _ & _ & ->)
                      | [(_ & _ & _ & ->) | (_ & ->)]]];
      cbn [finished goto next_round]; try exact IH.
    discriminate.
Qed.

End EndOfInput.

Section Success.

Context {codes : av_error_codes}.

(** When no library call of a decode step fails, [decode_audio_frame]
    returns 0, and so does [read_decode_convert_and_store] as long as the
    level the buffer is to reach is in the range of [int]. *)
Lemma decode_audio_frame_succeeds (a : pump_answers) (dp fin : bool)
    (st : state) :
  pump_succeeds a ->
  fst (fst (fst (decode_audio_frame a dp fin st))) = 0.
Proof.
  intros (_ & Hpacket & Hread & Hsend & Hrecv & _).
  pose proof AVERROR_EOF_neg. pose proof EAGAIN_pos.
  pose proof AVERROR_EOF_not_EAGAIN.
  unfold decode_audio_frame, init_packet, AVERROR in *. rewrite Hpacket.
  case_tests; simpl; z_tests;
    repeat match goal with
           | H : (_, _) = (_, _) |- _ => inversion H; subst; clear H
           end; simpl;
    repeat match goal with
           | H : _ && _ = true |- _ =>
               apply andb_true_iff in H; destruct H
           | H : negb _ = true |- _ => apply negb_true_iff in H
           end; z_tests; try reflexivity; try lia.
Qed.

Lemma read_decode_convert_and_store_succeeds (a : pump_answers)
    (fin : bool) (st : state) :
  pump_succeeds a ->
  fifo_ok (fifo st) ->
  0 <= input_frame_nb_samples a ->
  av_audio_fifo_size (fifo st) + input_frame_nb_samples a <= INT_MAX ->
  fst (fst (read_decode_convert_and_store a fin st)) = 0.
Proof.
  intros Hgood Hok Hn Hmax.
  pose proof (decode_audio_frame_succeeds a false fin st Hgood) as Hdec.
  destruct Hgood as (Hframe & _ & _ & _ & _ & Halloc & Hconv & Hgrow).
  unfold read_decode_convert_and_store, init_input_frame,
    init_converted_samples, convert_samples.
  rewrite Hframe. cbn [negb].
  change (nonzero 0) with false. cbv iota.
  pose proof (decode_audio_frame_effect a false fin st) as Heff.
  destruct (decode_audio_frame a false fin st) as [[[r0 dp] fin0] st0].
  cbn [fst snd] in Hdec, Heff. subst r0. destruct Heff as (Hf & _).
  change (nonzero 0) with false. cbv iota.
  destruct fin0; [reflexivity|].
  destruct dp; [|reflexivity].
  destruct (Z.ltb_spec (av_samples_alloc_ret a) 0); [lia|].
  change (nonzero 0) with false. cbv iota.
  destruct (Z.ltb_spec (swr_convert_ret a) 0); [lia|].
  change (nonzero 0) with false. cbv iota.
  assert (Hok0 : fifo_ok (fifo st0)) by (rewrite Hf; exact Hok).
  pose proof (add_samples_to_fifo_level (av_audio_fifo_realloc_ret a)
                (input_frame_nb_samples a) st0 Hok0 Hn)
    as (_ & _ & _ & _ & Hzero).
  rewrite Hf in Hzero. specialize (Hzero Hgrow Hmax).
  destruct (add_samples_to_fifo _ _ st0) as [r1 st1].
  cbn [fst] in Hzero. subst r1. reflexivity.
Qed.

End Success.

Section Runs.

Context {codes : av_error_codes}.

(** How [main] ends after its loop: after [DONE] it prints the count of
    rounds and writes the trailer, and returns 0 unless the trailer could
    not be written; after [FAILED] it returns [AVERROR_EXIT] and writes
    nothing more. *)
Lemma main_end_cases (env : environment) (s : main_state) :
  (at_phase s = DONE
   /\ ((0 <= av_write_trailer_ret env
        /\ main_end env s
           = Return 0
               (history (world s)
                  ++ [Stdout "outer loop, how many times? %u"
                        (outlooptimes s);
                      WriteTrailer]))
       \/ (av_write_trailer_ret env < 0
           /\ main_end env s
              = Return AVERROR_EXIT
                  (history (world s)
                     ++ [Stdout "outer loop, how many times? %u"
                           (outlooptimes s);
                         WriteTrailer;
                         Stderr
                           "Could not write output file trailer (error '%s')"
                        ]))))
  \/ (at_phase s = FAILED
      /\ main_end env s = Return AVERROR_EXIT (history (world s)))
  \/ ((at_phase s = FILLING \/ at_phase s = DRAINING
       \/ at_phase s = FLUSHING)
      /\ main_end env s = Unfinished s).
Proof.
  unfold main_end, write_output_file_trailer, fprintf_stderr.
  destruct (at_phase s); auto 8.
  left. split; [reflexivity|].
  destruct (Z.ltb_spec (av_write_trailer_ret env) 0) as [Hneg|Hpos].
  - right. split; [assumption|].
    rewrite nonzero_negative by assumption. cbn.
    rewrite <- !app_assoc. reflexivity.
  - left. split; [assumption|]. cbn. rewrite <- !app_assoc. reflexivity.
Qed.

(** The ways of [main]: the usage line and [exit(1)]; a failure before the
    loop, which gives [AVERROR_EXIT] and at most one line; the [abort] of
    the resampler's assertion; or the loop, run with the encoder context
    [open_output_file] has stored, and what follows it.  Which of these it
    is does not depend on the number of steps the loop is given. *)
Lemma main_cases (env : environment) (argc : Z) :
  (argc <> 3
   /\ forall fuel,
       main env fuel argc
       = Exit 1 [Stderr "Usage: %s <input file> <output file>"])
  \/ (argc = 3
      /\ ((forall fuel, main env fuel argc = Abort)
          \/ (exists lines,
                 forall fuel,
                   main env fuel argc = Return AVERROR_EXIT (map Stderr lines))
          \/ (exists outccx,
                 frame_size outccx = encoder_frame_size (output_env env)
                 /\ forall fuel,
                     main env fuel argc
                     = main_end env
                         (main_loop env outccx fuel
                            (main_start (av_audio_fifo_alloc 1)))))).
Proof.
  unfold main.
  destruct (Z.eqb_spec argc 3) as [Hargc|Hargc]; cbn [negb];
    [right; split; [assumption|] | left; auto].
  destruct (open_input_file (input_env env)) as [[r1 [inpccx|]] h1];
    [|right; left; eauto].
  destruct (nonzero r1); [right; left; eauto|].
  pose proof (open_output_file_result (output_env env) inpccx) as Hres.
  destruct (open_output_file (output_env env) inpccx)
    as [[r2 [outccx|]] h2]; [|right; left; eauto].
  destruct Hres as (_ & _ & _ & Hframe).
  destruct (nonzero r2); [right; left; eauto|].
  destruct (init_resampler _ _ inpccx outccx) as [[r3 h3]|]; [|left; auto].
  destruct (nonzero r3); [right; left; eauto|].
  destruct (init_fifo (av_audio_fifo_alloc_ok env)) as [[r4 [af|]] h4] eqn:Hf;
    [|right; left; eauto].
  destruct (nonzero r4); [right; left; eauto|].
  destruct (write_output_file_header _) as [r5 h5].
  destruct (nonzero r5); [right; left; eauto|].
  assert (Haf : af = av_audio_fifo_alloc 1).
  { unfold init_fifo in Hf. destruct (av_audio_fifo_alloc_ok env);
      inversion Hf. reflexivity. }
  subst af. right; right. exists outccx. auto.
Qed.

(** The loop reaches [DONE] only after the encoder was given the null
    frame. *)
Lemma done_after_the_null_frame (env : environment)
    (outccx : AVCodecContext) (s : main_state) :
  reachable env outccx s ->
  at_phase s = DONE -> null_sends (history (world s)) <> O.
Proof.
  revert s.
  apply (reachable_ind env outccx
           (fun s => at_phase s = DONE ->
                     null_sends (history (world s)) <> O)); [discriminate|].
  intros s _ IH.
  destruct (main_step_cases env outccx s)
    as [(_ & _ & r & _ & _ & _ & Hnext & _)
       |[(_ & _ & r & _ & _ & _ & Hnext & _)
        |[(_ & r & Hr & Hw & _ & Hnext & _)
         | (_ & _ & _ & _ & Hmove)]]].
  - rewrite Hnext. destruct (nonzero r); [|destruct (snd (fst _))];
      discriminate.
  - rewrite Hnext. destruct (nonzero r); discriminate.
  - rewrite Hnext, Hw.
    pose proof (encode_audio_frame_return
                  (encode_env env (encode_calls s)) None false (world s))
      as (Hnull & _ & Halloc).
    cbv zeta in Hr, Hnull, Halloc. rewrite <- Hr in Halloc.
    destruct (nonzero r) eqn:Hzero; [discriminate|]. z_tests.
    rewrite Hnull, (Halloc Hzero). lia.
  - destruct Hmove as [(_ & _ & ->) | [(_ & _ & _ & ->)
                      | [(_ & _ & _ & ->) | (_ & ->)]]];
      cbn [at_phase goto next_round]; try discriminate. exact IH.
Qed.

(** X1.  [main] comes to an end, and its outcome is settled: for every
    finite input, every encoder that runs dry and asks for frames of a
    positive size, there is a number of steps of the loop within which
    [main] ends -- in [exit], in [abort] or with a return value -- and
    giving the loop more steps changes nothing of the outcome. *)
Theorem main_outcome_is_settled (env : environment) (P N : nat) :
  (forall i, (P <= i)%nat ->
             av_read_frame_ret (pump_env env i) = AVERROR_EOF) ->
  (forall k, (N <= k)%nat -> yields_no_packet (encode_env env k)) ->
  0 < encoder_frame_size (output_env env) ->
  exists fuel,
    forall argc fuel',
      (fuel <= fuel')%nat ->
      main env fuel' argc = main env fuel argc
      /\ forall s, main env fuel argc <> Unfinished s.
Proof.
  intros Hinput Hencoder Hsize.
  assert (Husage : forall fuel argc fuel', argc <> 3 ->
            main env fuel' argc = main env fuel argc
            /\ forall s, main env fuel argc <> Unfinished s).
  { intros fuel argc fuel' Hargc.
    destruct (main_cases env argc) as [(_ & Hexit) | (Habs & _)];
      [|contradiction].
    rewrite !Hexit. split; [reflexivity | discriminate]. }
  destruct (main_cases env 3)
    as [(Habs & _)
       | (_ & [Habort | [(lines & Hfail) | (outccx & Hframe & Hloop)]])];
    [contradiction| | |].
  - exists O. intros argc fuel' _.
    destruct (Z.eq_dec argc 3) as [->|Hargc]; [|apply Husage; assumption].
    rewrite !Habort. split; [reflexivity | discriminate].
  - exists O. intros argc fuel' _.
    destruct (Z.eq_dec argc 3) as [->|Hargc]; [|apply Husage; assumption].
    rewrite !Hfail. split; [reflexivity | discriminate].
  - destruct (main_loop_terminates env outccx P Hinput N Hencoder
                ltac:(lia)) as [m Hover].
    exists m. intros argc fuel' Hfuel.
    destruct (Z.eq_dec argc 3) as [->|Hargc]; [|apply Husage; assumption].
    rewrite !Hloop.
    replace fuel' with (m + (fuel' - m))%nat by lia.
    rewrite main_loop_add, (main_loop_over env outccx) by assumption.
    split; [reflexivity|].
    destruct (main_end_cases env
                (main_loop env outccx m (main_start (av_audio_fifo_alloc 1))))
      as [(_ & [(_ & ->) | (_ & ->)]) | [(_ & ->) | (Hnot & _)]];
      try discriminate.
    destruct Hover as [Hover | Hover]; rewrite Hover in Hnot;
      destruct Hnot as [? | [? | ?]]; discriminate.
Qed.

(** X8.  What [main] returns, and the trailer: [main] returns 0 or
    [AVERROR_EXIT]; it writes the trailer at most once; and when it returns
    0, the trailer was written, once, as the last thing after the count of
    rounds was printed, and after the encoder had been given the null
    frame. *)
Theorem main_writes_the_trailer_once_and_last (env : environment)
    (fuel : nat) (argc ret : Z) (h : list event) :
  main env fuel argc = Return ret h ->
  (ret = 0 \/ ret = AVERROR_EXIT)
  /\ (trailers_written h <= 1)%nat
  /\ (ret = 0 ->
      0 <= av_write_trailer_ret env
      /\ exists h0 rounds,
          h = h0 ++ [Stdout "outer loop, how many times? %u" rounds;
                     WriteTrailer]
          /\ trailers_written h0 = O
          /\ null_sends h0 <> O).
Proof.
  pose proof AVERROR_EXIT_neg as Hexit.
  assert (Hlines : forall lines, trailers_written (map Stderr lines) = O)
    by (induction lines; auto).
  destruct (main_cases env argc)
    as [(_ & Husage)
       | (_ & [Habort | [(lines & Hfail) | (outccx & _ & Hloop)]])].
  - rewrite Husage. discriminate.
  - rewrite Habort. discriminate.
  - rewrite Hfail. intros E; inversion E; subst; clear E.
    rewrite Hlines. conj_split; auto; lia.
  - rewrite Hloop.
    set (s := main_loop env outccx fuel (main_start (av_audio_fifo_alloc 1))).
    assert (Hreach : reachable env outccx s) by (exists fuel; reflexivity).
    pose proof (loop_writes_no_trailer env outccx s Hreach) as Hnone.
    destruct (main_end_cases env s)
      as [(Hdone & [(Hok & ->) | (Hbad & ->)]) | [(_ & ->) | (_ & ->)]];
      intros E; inversion E; subst; clear E;
      rewrite ?trailers_written_app, ?Hnone; cbn [trailers_written Nat.add].
    + conj_split; auto. intros _. split; [assumption|].
      eexists _, _. conj_split; [reflexivity | exact Hnone|].
      apply (done_after_the_null_frame env outccx s Hreach Hdone).
    + conj_split; auto; lia.
    + conj_split; auto; lia.
Qed.

End Runs.

Section SetUp.

Context {codes : av_error_codes}.

(** [open_input_file] stores a decoder context when none of its library
    calls fails and the input holds one stream. *)
Lemma open_input_file_opens (a : input_answers) :
  input_opens a ->
  exists inpccx, open_input_file a = (0, Some inpccx, []).
Proof.
  intros (Hopen & Hinfo & Hone & Hfound & Halloc & Hpar & Hdec).
  unfold open_input_file.
  destruct (Z.ltb_spec (avformat_open_input_ret a) 0); [lia|].
  destruct (Z.ltb_spec (avformat_find_stream_info_ret a) 0); [lia|].
  rewrite Hone, Hfound, Halloc. cbn [Nat.eqb negb].
  destruct (streams a) as [|stream rest]; [discriminate|].
  destruct (Z.ltb_spec (avcodec_parameters_to_context_ret a) 0); [lia|].
  destruct (Z.ltb_spec (decoder_open2_ret a) 0); [lia|].
  eauto.
Qed.

(** [open_output_file] stores an encoder context when none of its library
    calls fails: one of the decoder's sample rate, for two channels, with
    the frame size the encoder has chosen. *)
Lemma open_output_file_opens (a : output_answers) (inpccx : AVCodecContext) :
  output_opens a ->
  open_output_file a inpccx
  = (0,
     Some {| sample_rate := sample_rate inpccx;
             sample_fmt := output_codec_sample_fmt a;
             nb_channels := OUTPUT_CHANNELS;
             frame_size := encoder_frame_size a |},
     []).
Proof.
  intros (Hio & Hctx & Hfmt & Hurl & Henc & Hstream & Halloc & Hopen & Hpar).
  unfold open_output_file.
  destruct (Z.ltb_spec (avio_open_ret a) 0); [lia|].
  rewrite Hctx, Hfmt, Hurl, Henc, Hstream, Halloc. cbn [negb].
  destruct (Z.ltb_spec (encoder_open2_ret a) 0); [lia|].
  destruct (Z.ltb_spec (avcodec_parameters_from_context_ret a) 0); [lia|].
  reflexivity.
Qed.

(** When nothing fails before the loop, [main] called with two arguments
    enters its loop. *)
Lemma main_with_set_up (env : environment) (M : Z) :
  nothing_fails env M ->
  exists outccx,
    frame_size outccx = encoder_frame_size (output_env env)
    /\ forall fuel,
        main env fuel 3
        = main_end env
            (main_loop env outccx fuel (main_start (av_audio_fifo_alloc 1))).
Proof.
  intros (Hin & Hout & Hswr & Hinit & Hfifo & Hheader & _).
  destruct (open_input_file_opens _ Hin) as [inpccx Hopen].
  eexists. split; [|intros fuel; unfold main].
  2:{ rewrite Hopen, (open_output_file_opens _ inpccx Hout).
      cbn [Z.eqb Pos.eqb negb]. change (nonzero 0) with false. cbv iota.
      unfold init_resampler, init_fifo, write_output_file_header.
      destruct (Z.ltb_spec (swr_alloc_set_opts2_ret env) 0); [lia|].
      cbn [sample_rate]. rewrite Z.eqb_refl. cbn [negb].
      destruct (Z.ltb_spec (swr_init_ret env) 0); [lia|].
      change (nonzero 0) with false. cbv iota.
      rewrite Hfifo. cbn [negb]. change (nonzero 0) with false. cbv iota.
      destruct (Z.ltb_spec (avformat_write_header_ret env) 0); [lia|].
      change (nonzero 0) with false. cbv iota. reflexivity. }
  reflexivity.
Qed.

(** X13.  [open_input_file] stores a decoder context exactly when none of
    its library calls fails and the input holds one stream -- the context
    has that stream's parameters, the return value is 0 and nothing is
    printed; in every other case it returns a negative code, stores
    nothing, and prints at most one line. *)
Theorem open_input_file_opens_or_fails (a : input_answers) :
  match open_input_file a with
  | (r, Some inpccx, lines) =>
      input_opens a /\ r = 0 /\ lines = []
      /\ exists stream,
          streams a = [stream]
          /\ sample_rate inpccx = codecpar_sample_rate stream
          /\ sample_fmt inpccx = codecpar_sample_fmt stream
          /\ nb_channels inpccx = codecpar_nb_channels stream
  | (r, None, lines) =>
      ~ input_opens a /\ r < 0 /\ (List.length lines <= 1)%nat
  end.
Proof.
  unfold open_input_file, input_opens.
  pose proof AVERROR_EXIT_neg. pose proof ENOMEM_pos. unfold AVERROR.
  destruct (Z.ltb_spec (avformat_open_input_ret a) 0);
    [cbn; conj_split; auto; lia|].
  destruct (Z.ltb_spec (avformat_find_stream_info_ret a) 0);
    [cbn; conj_split; auto; lia|].
  destruct (Nat.eqb_spec (List.length (streams a)) 1) as [Hone|Hnot];
    cbn [negb]; [|cbn; conj_split; auto; tauto].
  destruct (streams a) as [|stream [|other rest]]; try discriminate.
  destruct (decoder_found a); cbn [negb];
    [|cbn; conj_split; auto; intuition discriminate].
  destruct (decoder_context_alloc_ok a); cbn [negb];
    [|cbn; conj_split; auto; try lia; intuition discriminate].
  destruct (Z.ltb_spec (avcodec_parameters_to_context_ret a) 0);
    [cbn; conj_split; auto; lia|].
  destruct (Z.ltb_spec (decoder_open2_ret a) 0);
    [cbn; conj_split; auto; lia|].
  conj_split; auto. exists stream. auto.
Qed.

(** X14.  [open_output_file] stores an encoder context exactly when none
    of its library calls fails -- a context of the decoder's sample rate,
    for two channels, with the frame size the encoder has chosen; the
    return value is 0 and nothing is printed; in every other case it
    returns a negative code, whatever the failed call has left in [error],
    stores nothing, and prints one line. *)
Theorem open_output_file_opens_or_fails (a : output_answers)
    (inpccx : AVCodecContext) :
  match open_output_file a inpccx with
  | (r, Some outccx, lines) =>
      output_opens a /\ r = 0 /\ lines = []
      /\ sample_rate outccx = sample_rate inpccx
      /\ nb_channels outccx = 2
      /\ frame_size outccx = encoder_frame_size a
  | (r, None, lines) =>
      ~ output_opens a /\ r < 0 /\ List.length lines = 1%nat
  end.
Proof.
  unfold open_output_file, open_output_cleanup, output_opens.
  pose proof AVERROR_EXIT_neg. pose proof ENOMEM_pos. unfold AVERROR.
  destruct (Z.ltb_spec (avio_open_ret a) 0);
    [cbn; conj_split; auto; lia|].
  destruct (avformat_alloc_context_ok a); cbn [negb];
    [|cbn; conj_split; auto; try lia; intuition discriminate].
  destruct (av_guess_format_ok a); cbn [negb];
    [|case_ifs; z_tests; cbn; conj_split; auto; try lia;
      intuition discriminate].
  destruct (av_strdup_ok a); cbn [negb];
    [|case_ifs; z_tests; cbn; conj_split; auto; try lia;
      intuition discriminate].
  destruct (encoder_found a); cbn [negb];
    [|case_ifs; z_tests; cbn; conj_split; auto; try lia;
      intuition discriminate].
  destruct (avformat_new_stream_ok a); cbn [negb];
    [|case_ifs; z_tests; cbn; conj_split; auto; try lia;
      intuition discriminate].
  destruct (encoder_context_alloc_ok a); cbn [negb];
    [|case_ifs; z_tests; cbn; conj_split; auto; try lia;
      intuition discriminate].
  destruct (Z.ltb_spec (encoder_open2_ret a) 0);
    [case_ifs; z_tests; cbn; conj_split; auto; lia|].
  destruct (Z.ltb_spec (avcodec_parameters_from_context_ret a) 0);
    [case_ifs; z_tests; cbn; conj_split; auto; lia|].
  cbn. conj_split; auto.
Qed.

End SetUp.

Section GoodRuns.

Context {codes : av_error_codes}.
Variable env : environment.
Variable outccx : AVCodecContext.
Variable M : Z.

Hypothesis no_failure : nothing_fails env M.
Hypothesis frame_size_not_negative : 0 <= frame_size outccx.
Hypothesis level_in_range : frame_size outccx - 1 + M <= INT_MAX.

(** When no library call fails, the loop does not fail. *)
Lemma loop_never_fails (s : main_state) :
  reachable env outccx s -> at_phase s <> FAILED.
Proof.
  destruct no_failure
    as (_ & _ & _ & _ & _ & _ & Hpump & Hframe & Hencode & _).
  revert s. apply (reachable_ind env outccx); [discriminate|].
  intros s Hs IH.
  destruct (reachable_invariant env outccx s Hs) as (Hok & _).
  destruct (main_step_cases env outccx s)
    as [(_ & Hcond & r & Hr & _ & _ & Hnext & _)
       |[(_ & _ & r & Hr & _ & _ & Hnext & _)
        |[(_ & r & Hr & _ & _ & Hnext & _)
         | (_ & _ & _ & _ & Hmove)]]].
  - unfold fill_condition in Hcond. apply Z.ltb_lt in Hcond.
    destruct (Hpump (pump_calls s)) as [Hgood Hcount].
    cbv zeta in Hr.
    rewrite read_decode_convert_and_store_succeeds in Hr;
      try assumption; try lia.
    subst r. rewrite Hnext. change (nonzero 0) with false. cbv iota.
    destruct (snd (fst _)); discriminate.
  - cbv zeta in Hr.
    destruct (load_encode_and_write_succeeds
                (frame_env env (drain_calls s))
                (encode_env env (encode_calls s)) outccx (world s)
                (Hframe _) (Hencode _)) as [Hzero _].
    { unfold fifo_ok, av_audio_fifo_size in *. lia. }
    rewrite Hzero in Hr. subst r. rewrite Hnext. discriminate.
  - cbv zeta in Hr.
    rewrite encode_audio_frame_succeeds in Hr by apply Hencode.
    subst r. rewrite Hnext. change (nonzero 0) with false. cbv iota.
    destruct (snd (fst _)); discriminate.
  - destruct Hmove as [(_ & _ & ->) | [(_ & _ & _ & ->)
                      | [(_ & _ & _ & ->) | (_ & ->)]]];
      cbn [at_phase goto next_round]; try discriminate. exact IH.
Qed.

End GoodRuns.

Section GoodRun.

Context {codes : av_error_codes}.

(** X12.  When nothing fails, [main] succeeds: if no library call fails,
    the input is finite, the encoder runs dry and asks for frames of a
    positive size, and the decoder's frames are small enough for the level
    of the buffer to stay in the range of [int], then within some number
    of steps of its loop [main], called with two arguments, returns 0 --
    and giving the loop more steps changes nothing of what was written. *)
Theorem main_succeeds_when_nothing_fails (env : environment) (P N : nat)
    (M : Z) :
  nothing_fails env M ->
  (forall i, (P <= i)%nat ->
             av_read_frame_ret (pump_env env i) = AVERROR_EOF) ->
  (forall k, (N <= k)%nat -> yields_no_packet (encode_env env k)) ->
  0 < encoder_frame_size (output_env env) ->
  encoder_frame_size (output_env env) - 1 + M <= INT_MAX ->
  exists fuel h,
    forall fuel', (fuel <= fuel')%nat -> main env fuel' 3 = Return 0 h.
Proof.
  intros Hgood Hinput Hencoder Hsize Hrange.
  destruct (main_with_set_up env M Hgood) as (outccx & Hframe & Hloop).
  destruct (main_loop_terminates env outccx P Hinput N Hencoder
              ltac:(lia)) as [m Hover].
  set (s := main_loop env outccx m (main_start (av_audio_fifo_alloc 1))) in *.
  assert (Hreach : reachable env outccx s) by (exists m; reflexivity).
  pose proof (loop_never_fails env outccx M Hgood ltac:(lia) ltac:(lia)
                s Hreach) as Hnot.
  destruct Hover as [Hdone | Hfail]; [|contradiction].
  destruct Hgood as (_ & _ & _ & _ & _ & _ & _ & _ & _ & Htrailer).
  destruct (main_end_cases env s)
    as [(_ & [(_ & Hend) | (Hbad & _)]) | [(Habs & _) | (Habs & _)]].
  - exists m. eexists. intros fuel' Hfuel. rewrite Hloop.
    replace fuel' with (m + (fuel' - m))%nat by lia.
    rewrite main_loop_add. fold s.
    rewrite (main_loop_over env outccx) by auto. exact Hend.
  - lia.
  - contradiction.
  - rewrite Hdone in Habs. destruct Habs as [? | [? | ?]]; discriminate.
Qed.

End GoodRun.

Section FrameSize.

Context {codes : av_error_codes}.

(** With an encoder frame size that is not positive the loop never reads
    the input and never gets to the flush: it drains an empty buffer until
    a drain fails. *)
Lemma loop_without_a_frame_size (env : environment)
    (outccx : AVCodecContext) (s : main_state) :
  frame_size outccx <= 0 ->
  reachable env outccx s ->
  pump_calls s = O /\ level s = 0 /\ finished s = false
  /\ decoded_frames (history (world s)) = []
  /\ (at_phase s = FILLING \/ at_phase s = DRAINING \/ at_phase s = FAILED).
Proof.
  intros Hsize. revert s. apply (reachable_ind env outccx).
  { cbn. conj_split; auto. }
  intros s Hs (Hp & Hlevel & Hfin & Hdec & Hphase).
  destruct (reachable_invariant env outccx s Hs) as (Hok & _).
  unfold level in *.
  destruct (main_step_cases env outccx s)
    as [(_ & Hcond & _)
       |[(_ & _ & r & _ & Hw & Hf & Hnext & _ & Hp' & _)
        |[(Habs & _) | (Hw & Hp' & _ & _ & Hmove)]]].
  - unfold fill_condition in Hcond. apply Z.ltb_lt in Hcond. lia.
  - pose proof (load_encode_and_write_keeps
                  (frame_env env (drain_calls s))
                  (encode_env env (encode_calls s)) outccx (world s))
      as (Hkeep & _ & Hshrink & _).
    destruct (Hshrink Hok) as [Hok' Hle].
    rewrite Hw, Hf, Hnext, Hp', Hkeep.
    conj_split; auto.
    + unfold fifo_ok, av_audio_fifo_size in *. lia.
    + destruct (nonzero r); auto.
  - rewrite Habs in Hphase. destruct Hphase as [? | [? | ?]]; discriminate.
  - rewrite Hw, Hp'. conj_split; auto.
    + destruct Hmove as [(_ & _ & ->) | [(_ & _ & Habs & _)
                        | [(_ & _ & _ & ->) | (_ & ->)]]];
        cbn [finished goto next_round]; congruence.
    + destruct Hmove as [(_ & _ & ->) | [(_ & _ & Habs & _)
                        | [(_ & Hcond & _) | (_ & ->)]]];
        cbn [at_phase goto]; auto; [congruence|].
      exfalso. unfold drain_condition in Hcond.
      apply orb_false_iff in Hcond. destruct Hcond as [Hcond _].
      rewrite Z.geb_leb in Hcond. apply Z.leb_gt in Hcond. lia.
Qed.

(** X10.  An encoder frame size that is not positive is fatal: [main]
    then never returns 0 and never reads the input -- a run that returns
    returns [AVERROR_EXIT] with no frame decoded, and a run that is still
    in its loop has made no decode step. *)
Theorem main_needs_a_positive_frame_size (env : environment) (fuel : nat)
    (argc : Z) :
  encoder_frame_size (output_env env) <= 0 ->
  match main env fuel argc with
  | Return ret h => ret = AVERROR_EXIT /\ decoded_frames h = []
  | Unfinished s => pump_calls s = O
  | _ => True
  end.
Proof.
  intros Hsize.
  assert (Hlines : forall lines, decoded_frames (map Stderr lines) = [])
    by (induction lines; auto).
  destruct (main_cases env argc)
    as [(_ & Husage)
       | (_ & [Habort | [(lines & Hfail) | (outccx & Hframe & Hloop)]])].
  - rewrite Husage. exact I.
  - rewrite Habort. exact I.
  - rewrite Hfail. auto.
  - rewrite Hloop.
    set (s := main_loop env outccx fuel (main_start (av_audio_fifo_alloc 1))).
    assert (Hreach : reachable env outccx s) by (exists fuel; reflexivity).
    destruct (loop_without_a_frame_size env outccx s ltac:(lia) Hreach)
      as (Hp & _ & _ & Hdec & Hphase).
    destruct (main_end_cases env s)
      as [(Habs & _) | [(_ & ->) | (_ & ->)]]; auto.
    rewrite Habs in Hphase. destruct Hphase as [? | [? | ?]]; discriminate.
Qed.

(** X15.  With an encoder frame size of 0 and no library call failing,
    [main] never returns: however many steps its loop is given, it is
    still in it, having read nothing of the input and handed the encoder
    one frame of no samples in every step but the first. *)
Theorem main_loops_forever_on_a_frame_size_of_zero (env : environment)
    (M : Z) (fuel : nat) :
  nothing_fails env M ->
  encoder_frame_size (output_env env) = 0 ->
  exists s,
    main env (S fuel) 3 = Unfinished s
    /\ pump_calls s = O
    /\ drain_calls s = fuel
    /\ sent_frames (history (world s))
       = repeat {| nb_samples := 0; frame_pts := 0 |} fuel.
Proof.
  intros Hgood Hzero.
  destruct (main_with_set_up env M Hgood) as (outccx & Hframe & Hloop).
  rewrite Hzero in Hframe.
  assert (Hstate :
    let s := main_loop env outccx (S fuel)
               (main_start (av_audio_fifo_alloc 1)) in
    at_phase s = DRAINING /\ pts (world s) = 0 /\ drain_calls s = fuel
    /\ sent_frames (history (world s))
       = repeat {| nb_samples := 0; frame_pts := 0 |} fuel).
  { cbv zeta. induction fuel as [|n IH].
    - cbn [main_loop]. unfold main_step, fill_condition. cbn.
      rewrite Hframe. cbn. auto.
    - rewrite main_loop_succ.
      set (s := main_loop env outccx (S n)
                  (main_start (av_audio_fifo_alloc 1))) in *.
      assert (Hreach : reachable env outccx s) by (exists (S n); reflexivity).
      destruct IH as (Hphase & Hpts & Hd & Hsent).
      destruct (reachable_invariant env outccx s Hreach) as (Hok & _).
      destruct (loop_without_a_frame_size env outccx s ltac:(lia) Hreach)
        as (_ & Hlevel & _).
      unfold level in Hlevel.
      destruct Hgood as (_ & _ & _ & _ & _ & _ & _ & Hfa & Hea & _).
      destruct (main_step_cases env outccx s)
        as [(Habs & _)
           |[(_ & _ & r & Hr & Hw & _ & Hnext & _ & _ & Hd' & _)
            |[(Habs & _) | (_ & _ & _ & _ & Hmove)]]];
        try congruence.
      + cbv zeta in Hr.
        destruct (load_encode_and_write_succeeds
                    (frame_env env (drain_calls s))
                    (encode_env env (encode_calls s)) outccx (world s)
                    (Hfa _) (Hea _)) as [Hret Hmore].
        { rewrite Hlevel, Hframe. cbn. lia. }
        rewrite Hret in Hr. subst r.
        rewrite Hlevel, Hframe, Hpts in Hmore. cbn [Z.min Z.compare] in Hmore.
        pose proof (load_encode_and_write_effect
                      (frame_env env (drain_calls s))
                      (encode_env env (encode_calls s)) outccx (world s)
                      _ _ (surjective_pairing _))
          as (_ & _ & _ & Hcounter & _).
        cbv zeta in Hcounter.
        rewrite Hlevel, Hframe, Hpts in Hcounter.
        cbn [Z.min Z.compare] in Hcounter.
        rewrite Hnext, Hw, Hd', Hmore, Hsent.
        conj_split; auto.
        * destruct Hcounter as [(_ & _ & Habs) | (_ & ->)];
            [rewrite Hret in Habs; congruence | reflexivity].
        * cbn [repeat]. rewrite repeat_cons. reflexivity.
      + exfalso.
        destruct Hmove as [(Habs & _) | [(_ & Hcond & _)
                          | [(_ & Hcond & _) | ([Habs | Habs] & _)]]];
          try congruence;
          unfold drain_condition in Hcond;
          apply orb_false_iff in Hcond; destruct Hcond as [Hcond _];
          rewrite Z.geb_leb in Hcond; apply Z.leb_gt in Hcond; lia. }
  cbv zeta in Hstate. destruct Hstate as (Hphase & _ & Hd & Hsent).
  eexists. rewrite Hloop. split.
  - unfold main_end. rewrite Hphase. reflexivity.
  - destruct (loop_without_a_frame_size env outccx _ ltac:(lia)
                (ex_intro _ (S fuel) eq_refl)) as (Hp & _).
    auto.
Qed.

End FrameSize.

Section Silence.

Context {codes : av_error_codes}.

(** The functions of the loop print a line only when they fail. *)
Lemma decode_audio_frame_quiet (a : pump_answers) (dp fin : bool)
    (st : state) :
  fst (fst (fst (decode_audio_frame a dp fin st))) = 0 ->
  stderr_lines (history (snd (decode_audio_frame a dp fin st)))
  = stderr_lines (history st).
Proof.
  pose proof ENOMEM_pos.
  unfold decode_audio_frame, init_packet, fprintf_stderr, AVERROR.
  case_tests; simpl; z_tests;
    repeat match goal with
           | H : (_, _) = (_, _) |- _ => inversion H; subst; clear H
           end; simpl;
    repeat match goal with
           | H : _ && _ = true |- _ =>
               apply andb_true_iff in H; destruct H
           end; z_tests;
    rewrite ?stderr_lines_app; simpl; rewrite ?app_nil_r;
    intros; try reflexivity; lia.
Qed.

Lemma add_samples_to_fifo_quiet (r count : Z) (st : state) :
  fst (add_samples_to_fifo r count st) = 0 ->
  history (snd (add_samples_to_fifo r count st)) = history st.
Proof.
  pose proof AVERROR_EXIT_neg.
  unfold add_samples_to_fifo, av_audio_fifo_realloc, av_audio_fifo_write,
    fprintf_stderr.
  case_tests; simpl; z_tests;
    repeat match goal with
           | H : (_, _) = (_, _) |- _ => inversion H; subst; clear H
           end; simpl; intros; try reflexivity; lia.
Qed.

Lemma read_decode_convert_and_store_quiet (a : pump_answers) (fin : bool)
    (st : state) :
  fst (fst (read_decode_convert_and_store a fin st)) = 0 ->
  stderr_lines (history (snd (read_decode_convert_and_store a fin st)))
  = stderr_lines (history st).
Proof.
  pose proof AVERROR_EXIT_neg as Hexit.
  pose proof (decode_audio_frame_quiet a false fin st) as Hdec.
  unfold read_decode_convert_and_store, init_input_frame,
    init_converted_samples, convert_samples.
  destruct (input_frame_alloc_ok a); cbn [negb].
  2:{ rewrite nonzero_negative by (pose proof ENOMEM_pos; unfold AVERROR; lia).
      cbn. lia. }
  change (nonzero 0) with false. cbv iota.
  destruct (decode_audio_frame a false fin st) as [[[r0 dp] fin0] st0].
  cbn [fst snd] in Hdec.
  destruct (nonzero r0) eqn:Hr0; [cbn; lia|]. z_tests.
  specialize (Hdec Hr0).
  destruct fin0; [intros _; exact Hdec|].
  destruct dp; [|intros _; exact Hdec].
  destruct (Z.ltb_spec (av_samples_alloc_ret a) 0).
  { rewrite nonzero_negative by assumption. cbn. lia. }
  change (nonzero 0) with false. cbv iota.
  destruct (Z.ltb_spec (swr_convert_ret a) 0).
  { rewrite nonzero_negative by assumption. cbn. lia. }
  change (nonzero 0) with false. cbv iota.
  pose proof (add_samples_to_fifo_quiet (av_audio_fifo_realloc_ret a)
                (input_frame_nb_samples a) st0) as Hadd.
  destruct (add_samples_to_fifo _ _ st0) as [r1 st1].
  cbn [fst snd] in Hadd.
  destruct (nonzero r1) eqn:Hr1; [cbn; lia|]. z_tests.
  intros _. cbn [snd]. rewrite (Hadd Hr1). exact Hdec.
Qed.

Lemma encode_audio_frame_quiet (a : encode_answers)
    (frame : option AVFrame) (dp : bool) (st : state) :
  fst (fst (encode_audio_frame a frame dp st)) = 0 ->
  stderr_lines (history (snd (encode_audio_frame a frame dp st)))
  = stderr_lines (history st).
Proof.
  pose proof ENOMEM_pos.
  unfold encode_audio_frame, init_packet, fprintf_stderr, AVERROR.
  destruct (output_packet_alloc_ok a); cbn [negb].
  - destruct (Z.ltb_spec 0 0); [lia|].
    destruct frame as [f|]; case_tests; simpl; z_tests;
      repeat match goal with
             | H : _ && _ = true |- _ =>
                 apply andb_true_iff in H; destruct H
             end; z_tests;
      rewrite ?stderr_lines_app; simpl; rewrite ?app_nil_r;
      intros; try reflexivity; lia.
  - destruct (Z.ltb_spec (- ENOMEM) 0); [|lia]. simpl. lia.
Qed.

Lemma load_encode_and_write_quiet (fa : frame_answers) (ea : encode_answers)
    (outccx : AVCodecContext) (st : state) :
  fst (load_encode_and_write fa ea outccx st) = 0 ->
  stderr_lines (history (snd (load_encode_and_write fa ea outccx st)))
  = stderr_lines (history st).
Proof.
  pose proof AVERROR_EXIT_neg as Hexit.
  unfold load_encode_and_write, init_output_frame.
  set (size := FFMIN (av_audio_fifo_size (fifo st)) (frame_size outccx)).
  destruct (output_frame_alloc_ok fa); cbn [negb].
  2:{ rewrite nonzero_negative by assumption. cbn. lia. }
  destruct (Z.ltb_spec (av_frame_get_buffer_ret fa) 0) as [Hbuf|Hbuf].
  { rewrite nonzero_negative by assumption. cbn. lia. }
  change (nonzero 0) with false. cbv iota.
  destruct (av_audio_fifo_read (fifo st) size) as [read af].
  destruct (read <? size); [cbn; lia|].
  pose proof (encode_audio_frame_quiet ea
                (Some {| nb_samples := size; frame_pts := 0 |}) false
                (with_fifo af st)) as Henc.
  destruct (encode_audio_frame ea _ false (with_fifo af st))
    as [[r0 dw] st0].
  cbn [fst snd] in Henc.
  destruct (nonzero r0) eqn:Hr0; [cbn; lia|]. z_tests.
  intros _. exact (Henc Hr0).
Qed.

(** As long as the loop has not failed, nothing was printed on
    [stderr]. *)
Lemma loop_is_quiet (env : environment) (outccx : AVCodecContext)
    (s : main_state) :
  reachable env outccx s ->
  at_phase s <> FAILED -> stderr_lines (history (world s)) = [].
Proof.
  revert s.
  apply (reachable_ind env outccx
           (fun s => at_phase s <> FAILED ->
                     stderr_lines (history (world s)) = []));
    [reflexivity|].
  intros s _ IH.
  destruct (main_step_cases env outccx s)
    as [(Hphase & _ & r & Hr & Hw & _ & Hnext & _)
       |[(Hphase & _ & r & Hr & Hw & _ & Hnext & _)
        |[(Hphase & r & Hr & Hw & _ & Hnext & _)
         | (Hw & _ & _ & _ & Hmove)]]];
    try (rewrite Hnext, Hw; cbv zeta in Hr;
         destruct (nonzero r) eqn:Hzero; [congruence|]; z_tests;
         intros _; subst r).
  - rewrite read_decode_convert_and_store_quiet by assumption.
    apply IH. congruence.
  - rewrite load_encode_and_write_quiet by assumption.
    apply IH. congruence.
  - rewrite encode_audio_frame_quiet by assumption.
    apply IH. congruence.
  - rewrite Hw. intros Hnot. apply IH.
    destruct Hmove as [(Hphase & _) | [(Hphase & _)
                      | [(Hphase & _) | (_ & Hsame)]]];
      congruence.
Qed.

(** X16.  A good run is a silent run: when [main] returns 0, nothing was
    printed on [stderr]; the functions of the loop print a line only on a
    path on which they fail, and a failure takes [main] to
    [AVERROR_EXIT]. *)
Theorem main_succeeds_silently (env : environment) (fuel : nat)
    (argc : Z) (h : list event) :
  main env fuel argc = Return 0 h -> stderr_lines h = [].
Proof.
  pose proof AVERROR_EXIT_neg as Hexit.
  destruct (main_cases env argc)
    as [(_ & Husage)
       | (_ & [Habort | [(lines & Hfail) | (outccx & _ & Hloop)]])].
  - rewrite Husage. discriminate.
  - rewrite Habort. discriminate.
  - rewrite Hfail. intros E; inversion E; lia.
  - rewrite Hloop.
    set (s := main_loop env outccx fuel (main_start (av_audio_fifo_alloc 1))).
    assert (Hreach : reachable env outccx s) by (exists fuel; reflexivity).
    destruct (main_end_cases env s)
      as [(Hdone & [(_ & ->) | (_ & ->)]) | [(_ & ->) | (_ & ->)]];
      intros E; inversion E; subst; clear E; try lia.
    rewrite stderr_lines_app,
      (loop_is_quiet env outccx s Hreach) by congruence.
    reflexivity.
Qed.

End Silence.

Section Rounds.

Context {codes : av_error_codes}.
Variable env : environment.
Variable outccx : AVCodecContext.

Lemma uint32_le (z : Z) : 0 <= z -> 0 <= uint32 z <= z.
Proof.
  intros Hz. unfold uint32.
  pose proof (Z.mod_pos_bound z (2 ^ 32) ltac:(lia)).
  pose proof (Z.mod_le z (2 ^ 32) Hz ltac:(lia)). lia.
Qed.

(** X17.  The count of rounds that [main] prints is at most the number of
    decode steps: every round of the outer loop that is completed has made
    at least one decode step. *)
Theorem rounds_are_bounded_by_decode_steps (s : main_state) :
  reachable env outccx s ->
  0 <= outlooptimes s <= Z.of_nat (pump_calls s).
Proof.
  intros Hreach.
  enough (Hinv :
    0 <= outlooptimes s <= Z.of_nat (pump_calls s)
    /\ (at_phase s = DRAINING
        \/ at_phase s = FILLING /\ frame_size outccx <= level s ->
        0 < frame_size outccx ->
        outlooptimes s < Z.of_nat (pump_calls s))
    /\ (frame_size outccx <= 0 -> outlooptimes s = 0))
    by apply Hinv.
  revert s Hreach. apply (reachable_ind env outccx).
  { cbn. conj_split; try lia. intros [H | [_ H]]; [discriminate | lia]. }
  intros s Hs (Hle & Hstrict & Hzero).
  destruct (reachable_invariant env outccx s Hs) as (Hok & _).
  unfold level in *.
  destruct (main_step_cases env outccx s)
    as [(Hphase & _ & r & _ & _ & _ & _ & Ho & Hp & _)
       |[(Hphase & _ & r & _ & _ & _ & _ & Ho & Hp & _)
        |[(Hphase & r & _ & _ & _ & Hnext & Ho & Hp & _)
         | (Hw & Hp & _ & _ & Hmove)]]].
  - rewrite Ho, Hp. conj_split; auto; lia.
  - rewrite Ho, Hp. conj_split; auto; lia.
  - rewrite Ho, Hp, Hnext. conj_split; auto; try lia.
    destruct (nonzero r); [|destruct (snd (fst _))];
      intros [Habs | [Habs _]]; discriminate.
  - rewrite Hw, Hp.
    destruct Hmove as [(Hphase & Hcond & ->) | [(Hphase & _ & _ & ->)
                      | [(Hphase & Hcond & _ & ->) | (Hover & ->)]]];
      cbn [outlooptimes at_phase goto next_round].
    + unfold fill_condition in Hcond. apply Z.ltb_ge in Hcond.
      conj_split; auto; lia.
    + conj_split; auto; lia.
    + unfold drain_condition in Hcond.
      apply orb_false_iff in Hcond. destruct Hcond as [Hcond _].
      rewrite Z.geb_leb in Hcond. apply Z.leb_gt in Hcond.
      assert (Hsize : 0 < frame_size outccx)
        by (unfold fifo_ok, av_audio_fifo_size in *; lia).
      specialize (Hstrict (or_introl Hphase) Hsize).
      pose proof (uint32_le (outlooptimes s + 1) ltac:(lia)).
      conj_split; try lia.
      intros [Habs | [_ Habs]]; [discriminate | lia].
    + conj_split; auto; lia.
Qed.

End Rounds.

Section MemoryFacts.

Context {codes : av_error_codes}.

Lemma live_after_app (t1 t2 : list mem_event) (live : list resource) :
  live_after (t1 ++ t2) live
  = match live_after t1 live with
    | Some live' => live_after t2 live'
    | None => None
    end.
Proof.
  revert live. induction t1 as [|e t1 IH]; intros live; [reflexivity|].
  destruct e as [r | r [| |]]; cbn [app live_after]; auto.
  destruct (in_dec resource_eq_dec r live); auto.
Qed.

Lemma frees_unset_app (t1 t2 : list mem_event) :
  frees_unset (t1 ++ t2) = frees_unset t1 || frees_unset t2.
Proof. apply existsb_app. Qed.

Lemma without_unset_frees_app (t1 t2 : list mem_event) :
  without_unset_frees (t1 ++ t2)
  = without_unset_frees t1 ++ without_unset_frees t2.
Proof. apply filter_app. Qed.

(** A sequence of calls that frees no unset variable. *)
Lemma without_unset_frees_none (tr : list mem_event) :
  frees_unset tr = false -> without_unset_frees tr = tr.
Proof.
  unfold without_unset_frees.
  induction tr as [|e tr IH]; [reflexivity|].
  destruct e as [r | r [| |]]; cbn; intros H; try discriminate;
    rewrite IH by assumption; reflexivity.
Qed.

Lemma frees_unset_none (tr : list mem_event) (r : resource) :
  frees_unset tr = false -> ~ In (Free r Unset) tr.
Proof.
  induction tr as [|e tr IH]; [intros _ []|].
  destruct e as [r' | r' [| |]]; cbn; intros H; try discriminate;
    intros [Habs | Hin]; try discriminate; apply (IH H Hin).
Qed.

(** What the frees of unset variables do to a sequence of calls that is
    in order without them: they are what is wrong with it. *)
Lemma live_after_with_unset_frees (tr : list mem_event) :
  forall live rest,
    live_after (without_unset_frees tr) live = Some rest ->
    live_after tr live = if frees_unset tr then None else Some rest.
Proof.
  induction tr as [|e tr IH]; intros live rest; [auto|].
  destruct e as [r | r [| |]]; cbn.
  - apply IH.
  - apply IH.
  - destruct (in_dec resource_eq_dec r live); [apply IH | discriminate].
  - reflexivity.
Qed.

(** The three functions that work with a packet or a frame of their own
    free it on every path. *)
Lemma decode_audio_frame_memory_neutral (a : pump_answers)
    (live : list resource) :
  live_after (decode_audio_frame_memory a) live = Some live
  /\ frees_unset (decode_audio_frame_memory a) = false.
Proof.
  unfold decode_audio_frame_memory.
  destruct (input_packet_alloc_ok a); cbn; auto.
Qed.

Lemma encode_audio_frame_memory_neutral (a : encode_answers)
    (live : list resource) :
  live_after (encode_audio_frame_memory a) live = Some live
  /\ frees_unset (encode_audio_frame_memory a) = false.
Proof.
  unfold encode_audio_frame_memory.
  destruct (output_packet_alloc_ok a); cbn; auto.
Qed.

Lemma load_encode_and_write_memory_neutral (fa : frame_answers)
    (ea : encode_answers) (outccx : AVCodecContext) (st : state)
    (live : list resource) :
  live_after (load_encode_and_write_memory fa ea outccx st) live = Some live
  /\ frees_unset (load_encode_and_write_memory fa ea outccx st) = false.
Proof.
  unfold load_encode_and_write_memory.
  destruct (output_frame_alloc_ok fa); cbn [negb]; [|cbn; auto].
  destruct (av_frame_get_buffer_ret fa <? 0); [cbn; auto|].
  destruct (av_audio_fifo_read _ _) as [read af].
  destruct (read <? _); [cbn; auto|].
  destruct (encode_audio_frame_memory_neutral ea (OutputFrame :: live))
    as [Hlive Hunset].
  cbn [live_after]. rewrite live_after_app, Hlive.
  change (frees_unset (Alloc OutputFrame :: ?t)) with (frees_unset t).
  rewrite frees_unset_app, Hunset. cbn. auto.
Qed.

(** [read_decode_convert_and_store] frees the frame and the converted
    samples on every path; but it frees [conv_isamps] unset unless the
    decode step got as far as the declaration of that variable: unless
    the frame was allocated and [decode_audio_frame] returned 0 without
    setting [finished].  It frees no other variable unset. *)
Lemma read_decode_convert_and_store_memory_neutral (a : pump_answers)
    (fin : bool) (st : state) (live : list resource) :
  live_after
    (without_unset_frees (read_decode_convert_and_store_memory a fin st))
    live
  = Some live.
Proof.
  unfold read_decode_convert_and_store_memory, init_input_frame,
    init_converted_samples.
  destruct (input_frame_alloc_ok a); cbn [negb].
  2:{ rewrite nonzero_negative by (pose proof ENOMEM_pos; unfold AVERROR; lia).
      reflexivity. }
  change (nonzero 0) with false. cbv iota.
  destruct (decode_audio_frame_memory_neutral a (InputFrame :: live))
    as [Hlive Hnone].
  change (without_unset_frees (Alloc InputFrame :: ?t))
    with (Alloc InputFrame :: without_unset_frees t).
  rewrite without_unset_frees_app, (without_unset_frees_none _ Hnone).
  cbn [live_after]. rewrite live_after_app, Hlive.
  destruct (decode_audio_frame a false fin st) as [[[r0 dp] fin0] st0].
  destruct (nonzero r0); [reflexivity|].
  destruct fin0; [reflexivity|].
  destruct dp; [|reflexivity].
  destruct (av_samples_alloc_ret a <? 0).
  - destruct (nonzero (av_samples_alloc_ret a)); reflexivity.
  - reflexivity.
Qed.

Lemma read_decode_convert_and_store_memory_only (a : pump_answers)
    (fin : bool) (st : state) (r : resource) :
  In (Free r Unset) (read_decode_convert_and_store_memory a fin st) ->
  r = ConvertedSamples.
Proof.
  unfold read_decode_convert_and_store_memory, init_input_frame,
    init_converted_samples.
  assert (Hcleanup : forall p q,
             In (Free r Unset) [Free ConvertedSamples p; Free InputFrame q] ->
             q <> Unset -> r = ConvertedSamples).
  { intros p q [H | [H | []]] Hq; inversion H; subst; congruence. }
  destruct (input_frame_alloc_ok a); cbn [negb].
  2:{ rewrite nonzero_negative by (pose proof ENOMEM_pos; unfold AVERROR; lia).
      intros H. apply (Hcleanup _ _ H). discriminate. }
  change (nonzero 0) with false. cbv iota.
  destruct (decode_audio_frame_memory_neutral a []) as [_ Hnone].
  intros [Habs | Hin]; [discriminate|].
  apply in_app_or in Hin. destruct Hin as [Hin | Hin].
  { exfalso. apply (frees_unset_none _ r Hnone Hin). }
  revert Hin.
  destruct (decode_audio_frame a false fin st) as [[[r0 dp] fin0] st0].
  assert (Hlive : In (Free r Unset)
                    [Free ConvertedSamples Unset; Free InputFrame Live] ->
                  r = ConvertedSamples)
    by (intros H; apply (Hcleanup _ _ H); discriminate).
  assert (Hnull : In (Free r Unset)
                    [Free ConvertedSamples Null; Free InputFrame Live] ->
                  r = ConvertedSamples)
    by (intros H; apply (Hcleanup _ _ H); discriminate).
  destruct (nonzero r0); [exact Hlive|].
  destruct fin0; [exact Hlive|].
  destruct dp; [|exact Hnull].
  destruct (av_samples_alloc_ret a <? 0).
  - destruct (nonzero (av_samples_alloc_ret a)).
    + exact Hnull.
    + intros [Habs | H]; [discriminate|].
      apply (Hcleanup _ _ H). discriminate.
  - change (nonzero 0) with false. cbv iota.
    intros [Habs | H]; [discriminate|].
    apply (Hcleanup _ _ H). discriminate.
Qed.

Lemma read_decode_convert_and_store_memory_unset (a : pump_answers)
    (fin : bool) (st : state) :
  frees_unset (read_decode_convert_and_store_memory a fin st)
  = negb (input_frame_alloc_ok a
          && negb (nonzero (fst (fst (fst
                     (decode_audio_frame a false fin st)))))
          && negb (snd (fst (decode_audio_frame a false fin st)))).
Proof.
  unfold read_decode_convert_and_store_memory, init_input_frame,
    init_converted_samples.
  destruct (input_frame_alloc_ok a); cbn [negb andb].
  2:{ rewrite nonzero_negative by (pose proof ENOMEM_pos; unfold AVERROR; lia).
      reflexivity. }
  change (nonzero 0) with false. cbv iota.
  destruct (decode_audio_frame_memory_neutral a []) as [_ Hunset].
  change (frees_unset (Alloc InputFrame :: ?t)) with (frees_unset t).
  rewrite frees_unset_app, Hunset. cbn [orb].
  destruct (decode_audio_frame a false fin st) as [[[r0 dp] fin0] st0].
  cbn [fst snd].
  destruct (nonzero r0); [reflexivity|].
  destruct fin0; [reflexivity|].
  destruct dp; [|reflexivity].
  destruct (av_samples_alloc_ret a <? 0).
  - destruct (nonzero (av_samples_alloc_ret a)); reflexivity.
  - reflexivity.
Qed.

End MemoryFacts.

Section MemoryOfTheLoop.

Context {codes : av_error_codes}.
Variable env : environment.
Variable outccx : AVCodecContext.

Lemma main_step_memory_neutral (s : main_state) (live : list resource) :
  live_after (without_unset_frees (main_step_memory env outccx s)) live
  = Some live.
Proof.
  unfold main_step_memory.
  destruct (at_phase s); try reflexivity.
  - destruct (fill_condition outccx s); [|reflexivity].
    apply read_decode_convert_and_store_memory_neutral.
  - destruct (drain_condition outccx s); [|reflexivity].
    destruct (load_encode_and_write_memory_neutral
                (frame_env env (drain_calls s))
                (encode_env env (encode_calls s)) outccx (world s) live)
      as [Hlive Hnone].
    rewrite (without_unset_frees_none _ Hnone). exact Hlive.
  - destruct (encode_audio_frame_memory_neutral
                (encode_env env (encode_calls s)) live) as [Hlive Hnone].
    rewrite (without_unset_frees_none _ Hnone). exact Hlive.
Qed.

Lemma main_step_memory_only (s : main_state) (r : resource) :
  In (Free r Unset) (main_step_memory env outccx s) -> r = ConvertedSamples.
Proof.
  unfold main_step_memory.
  destruct (at_phase s); try (intros []).
  - destruct (fill_condition outccx s); [|intros []].
    apply read_decode_convert_and_store_memory_only.
  - destruct (drain_condition outccx s); [|intros []].
    intros Hin. exfalso. revert Hin. apply frees_unset_none.
    apply load_encode_and_write_memory_neutral. exact [].
  - intros Hin. exfalso. revert Hin. apply frees_unset_none.
    apply encode_audio_frame_memory_neutral. exact [].
Qed.

Lemma main_loop_memory_succ (n : nat) (s : main_state) :
  main_loop_memory env outccx (S n) s
  = main_loop_memory env outccx n s
      ++ main_step_memory env outccx (main_loop env outccx n s).
Proof.
  revert s. induction n as [|n IH]; intros s.
  - cbn. now rewrite app_nil_r.
  - change (main_loop_memory env outccx (S (S n)) s)
      with (main_step_memory env outccx s
              ++ main_loop_memory env outccx (S n)
                   (main_step env outccx s)).
    rewrite IH, app_assoc. reflexivity.
Qed.

(** The loop gives back all it takes: after any number of steps, from any
    state, the allocations that are live are those that were live before;
    and the only variable it frees unset is [conv_isamps]. *)
Lemma main_loop_memory_neutral (n : nat) (s : main_state)
    (live : list resource) :
  live_after (without_unset_frees (main_loop_memory env outccx n s)) live
  = Some live.
Proof.
  revert s. induction n as [|n IH]; intros s; [reflexivity|].
  cbn [main_loop_memory].
  rewrite without_unset_frees_app, live_after_app,
    main_step_memory_neutral.
  apply IH.
Qed.

Lemma main_loop_memory_only (n : nat) (s : main_state) (r : resource) :
  In (Free r Unset) (main_loop_memory env outccx n s) ->
  r = ConvertedSamples.
Proof.
  revert s. induction n as [|n IH]; intros s; [intros []|].
  cbn [main_loop_memory]. intros Hin.
  apply in_app_or in Hin. destruct Hin as [Hin | Hin].
  - apply (main_step_memory_only s r Hin).
  - apply (IH _ Hin).
Qed.

(** A decode step that reports the end of the input has come to its
    [cleanup] past the declaration of [conv_isamps]. *)
Lemma read_decode_convert_and_store_finished_unset (a : pump_answers)
    (st : state) :
  snd (fst (read_decode_convert_and_store a false st)) = true ->
  frees_unset (read_decode_convert_and_store_memory a false st) = true.
Proof.
  rewrite read_decode_convert_and_store_memory_unset.
  unfold read_decode_convert_and_store, init_input_frame,
    init_converted_samples, convert_samples.
  destruct (input_frame_alloc_ok a); cbn [negb andb]; [|reflexivity].
  change (nonzero 0) with false. cbv iota.
  destruct (decode_audio_frame a false false st) as [[[r0 dp] fin0] st0].
  cbn [fst snd].
  destruct (nonzero r0); [reflexivity|].
  destruct fin0; [reflexivity|].
  destruct dp; [|cbn; discriminate].
  case_tests; cbn [fst snd]; discriminate.
Qed.

(** Once the loop has seen the end of the input, it has freed a variable
    that was never set. *)
Lemma finished_loop_has_freed_unset (n : nat) :
  finished (main_loop env outccx n (main_start (av_audio_fifo_alloc 1)))
  = true ->
  frees_unset
    (main_loop_memory env outccx n (main_start (av_audio_fifo_alloc 1)))
  = true.
Proof.
  induction n as [|n IH]; [discriminate|].
  rewrite main_loop_succ, main_loop_memory_succ, frees_unset_app.
  set (s := main_loop env outccx n (main_start (av_audio_fifo_alloc 1))) in *.
  assert (Hreach : reachable env outccx s) by (exists n; reflexivity).
  destruct (reachable_invariant env outccx s Hreach) as (_ & _ & Hfill & _).
  destruct (main_step_cases env outccx s)
    as [(Hphase & Hcond & r & _ & _ & Hfin & _)
       |[(_ & _ & r & _ & _ & Hfin & _)
        |[(_ & r & _ & _ & Hfin & _)
         | (_ & _ & _ & _ & Hmove)]]];
    try (rewrite Hfin; intros H; rewrite (IH H); reflexivity).
  - rewrite Hfin. intros Hset.
    assert (Hnot : finished s = false).
    { destruct (finished s); [|reflexivity].
      exfalso. apply (Hfill eq_refl Hphase). }
    unfold main_step_memory. rewrite Hphase, Hcond.
    rewrite Hnot in *.
    rewrite (read_decode_convert_and_store_finished_unset _ _ Hset).
    apply orb_true_r.
  - destruct Hmove as [(_ & _ & ->) | [(_ & _ & _ & ->)
                      | [(_ & _ & _ & ->) | (_ & ->)]]];
      cbn [finished goto next_round]; try discriminate;
      intros H; rewrite (IH H); reflexivity.
Qed.

End MemoryOfTheLoop.

Section MemoryOfTheSetUp.

Context {codes : av_error_codes}.

(** [open_input_file] leaves live the two contexts it hands out, and
    nothing when it fails. *)
Lemma open_input_file_memory_live (a : input_answers)
    (live : list resource) :
  live_after (open_input_file_memory a) live
  = Some match open_input_file a with
         | (_, Some _, _) => DecoderContext :: InputFormatContext :: live
         | (_, None, _) => live
         end
  /\ frees_unset (open_input_file_memory a) = false.
Proof.
  unfold open_input_file_memory, open_input_file.
  destruct (avformat_open_input_ret a <? 0); [cbn; auto|].
  destruct (avformat_find_stream_info_ret a <? 0); [cbn; auto|].
  destruct (Nat.eqb_spec (List.length (streams a)) 1) as [Hone|Hnot];
    cbn [negb]; [|cbn; auto].
  destruct (streams a) as [|stream rest]; [discriminate|].
  destruct (decoder_found a); cbn [negb]; [|cbn; auto].
  destruct (decoder_context_alloc_ok a); cbn [negb]; [|cbn; auto].
  destruct (avcodec_parameters_to_context_ret a <? 0); [cbn; auto|].
  destruct (decoder_open2_ret a <? 0); cbn; auto.
Qed.

(** [open_output_file] leaves live what it hands out; when it fails it
    leaves nothing live -- but for the output file when the format context
    cannot be allocated. *)
Lemma open_output_file_memory_live (a : output_answers)
    (inpccx : AVCodecContext) (live : list resource) :
  live_after (open_output_file_memory a) live
  = Some match open_output_file a inpccx with
         | (_, Some _, _) =>
             EncoderContext :: OutputFormatContext :: OutputIOContext
               :: live
         | (_, None, _) =>
             if (0 <=? avio_open_ret a)
                && negb (avformat_alloc_context_ok a)
             then OutputIOContext :: live
             else live
         end
  /\ frees_unset (open_output_file_memory a) = false.
Proof.
  unfold open_output_file_memory, open_output_file.
  destruct (Z.ltb_spec (avio_open_ret a) 0) as [Hio|Hio].
  { destruct (Z.leb_spec 0 (avio_open_ret a)); [lia|]. cbn. auto. }
  destruct (Z.leb_spec 0 (avio_open_ret a)); [|lia]. cbn [andb].
  destruct (avformat_alloc_context_ok a); cbn [negb]; [|cbn; auto].
  destruct (av_guess_format_ok a); cbn [negb]; [|cbn; auto].
  destruct (av_strdup_ok a); cbn [negb]; [|cbn; auto].
  destruct (encoder_found a); cbn [negb]; [|cbn; auto].
  destruct (avformat_new_stream_ok a); cbn [negb]; [|cbn; auto].
  destruct (encoder_context_alloc_ok a); cbn [negb]; [|cbn; auto].
  destruct (encoder_open2_ret a <? 0); [cbn; auto|].
  destruct (avcodec_parameters_from_context_ret a <? 0); cbn; auto.
Qed.

(** X19.  [open_output_file] can lose the output file: when [avio_open]
    has opened the file and [avformat_alloc_context] then fails, the
    function returns -- a negative code and no encoder context -- with the
    file still open, having neither closed it nor stored it anywhere.  On
    every other path that fails it leaves nothing live, and when it
    succeeds it leaves live the file, the format context and the encoder
    context it hands out.  No path frees what is not live. *)
Theorem open_output_file_can_lose_the_output_file (a : output_answers)
    (inpccx : AVCodecContext) :
  match open_output_file a inpccx with
  | (r, Some _, _) =>
      r = 0
      /\ live_after (open_output_file_memory a) []
         = Some [EncoderContext; OutputFormatContext; OutputIOContext]
  | (r, None, _) =>
      r < 0
      /\ ((0 <= avio_open_ret a /\ avformat_alloc_context_ok a = false ->
           r = AVERROR ENOMEM
           /\ live_after (open_output_file_memory a) []
              = Some [OutputIOContext])
          /\ (avio_open_ret a < 0 \/ avformat_alloc_context_ok a = true ->
              live_after (open_output_file_memory a) [] = Some []))
  end.
Proof.
  pose proof (open_output_file_memory_live a inpccx []) as [Hlive _].
  pose proof (open_output_file_result a inpccx) as Hres.
  assert (Hcode : 0 <= avio_open_ret a ->
                  avformat_alloc_context_ok a = false ->
                  fst (fst (open_output_file a inpccx)) = AVERROR ENOMEM).
  { intros Hio Hctx. unfold open_output_file.
    destruct (Z.ltb_spec (avio_open_ret a) 0); [lia|].
    rewrite Hctx. reflexivity. }
  destruct (open_output_file a inpccx) as [[r [outccx|]] lines].
  - destruct Hres as (Hr & _). auto.
  - split; [exact Hres|]. rewrite Hlive. split.
    + intros [Hio Hctx]. split; [apply Hcode; assumption|].
      destruct (Z.leb_spec 0 (avio_open_ret a)); [|lia].
      rewrite Hctx. reflexivity.
    + intros [Hio | Hctx].
      * destruct (Z.leb_spec 0 (avio_open_ret a)); [lia|]. reflexivity.
      * rewrite Hctx, andb_false_r. reflexivity.
Qed.

(** X20.  [open_input_file] gives back what it took when it fails: on
    every path on which it returns a negative code the input is closed
    again and the decoder context, if it was allocated, freed; when it
    succeeds both are live, for the caller.  No path frees what is not
    live. *)
Theorem open_input_file_gives_back_what_it_took (a : input_answers) :
  match open_input_file a with
  | (r, Some _, _) =>
      r = 0
      /\ live_after (open_input_file_memory a) []
         = Some [DecoderContext; InputFormatContext]
  | (r, None, _) =>
      r < 0 /\ live_after (open_input_file_memory a) [] = Some []
  end.
Proof.
  pose proof (open_input_file_memory_live a []) as [Hlive _].
  pose proof (open_input_file_result a) as Hres.
  destruct (open_input_file a) as [[r [inpccx|]] lines].
  - destruct Hres as (Hr & _). auto.
  - auto.
Qed.

End MemoryOfTheSetUp.

Section MemoryOfMain.

Context {codes : av_error_codes}.

Lemma open_input_file_some (a : input_answers) (r : Z)
    (inpccx : AVCodecContext) (lines : list string) :
  open_input_file a = (r, Some inpccx, lines) -> input_opens a.
Proof.
  unfold open_input_file, input_opens.
  destruct (Z.ltb_spec (avformat_open_input_ret a) 0); [discriminate|].
  destruct (Z.ltb_spec (avformat_find_stream_info_ret a) 0); [discriminate|].
  destruct (Nat.eqb_spec (List.length (streams a)) 1) as [Hone|Hnot];
    cbn [negb]; [|discriminate].
  destruct (streams a) as [|stream rest]; [discriminate|].
  destruct (decoder_found a); cbn [negb]; [|discriminate].
  destruct (decoder_context_alloc_ok a); cbn [negb]; [|discriminate].
  destruct (Z.ltb_spec (avcodec_parameters_to_context_ret a) 0);
    [discriminate|].
  destruct (Z.ltb_spec (decoder_open2_ret a) 0); [discriminate|].
  intros _. conj_split; auto.
Qed.

Lemma open_output_file_some (a : output_answers) (inpccx : AVCodecContext)
    (r : Z) (outccx : AVCodecContext) (lines : list string) :
  open_output_file a inpccx = (r, Some outccx, lines) ->
  avformat_alloc_context_ok a = true.
Proof.
  unfold open_output_file.
  destruct (avio_open_ret a <? 0); [discriminate|].
  destruct (avformat_alloc_context_ok a); [reflexivity | discriminate].
Qed.

(** The ways of [main], with the memory it takes and gives back: before
    the loop, a failure leaves nothing live but possibly the output file;
    the loop is entered with the seven allocations of the set-up live, and
    the label [cleanup] frees them. *)
Lemma main_memory_cases (env : environment) (argc : Z) :
  let lost :=
    input_opens (input_env env)
    /\ 0 <= avio_open_ret (output_env env)
    /\ avformat_alloc_context_ok (output_env env) = false in
  (argc <> 3
   /\ forall fuel,
       main env fuel argc
       = Exit 1 [Stderr "Usage: %s <input file> <output file>"])
  \/ (argc = 3
      /\ ((forall fuel, main env fuel argc = Abort)
          \/ (exists lines,
                 forall fuel,
                   main env fuel argc = Return AVERROR_EXIT (map Stderr lines)
                   /\ frees_unset (main_memory env fuel argc) = false
                   /\ ((lost
                        /\ live_after (main_memory env fuel argc) []
                           = Some [OutputIOContext])
                       \/ (~ lost
                           /\ live_after (main_memory env fuel argc) []
                              = Some [])))
          \/ (exists outccx before,
                 live_after before [] = Some set_up_resources
                 /\ frees_unset before = false
                 /\ ~ lost
                 /\ forall fuel,
                     let s := main_loop env outccx fuel
                                (main_start (av_audio_fifo_alloc 1)) in
                     main env fuel argc = main_end env s
                     /\ main_memory env fuel argc
                        = (before
                             ++ main_loop_memory env outccx fuel
                                  (main_start (av_audio_fifo_alloc 1)))
                            ++ match at_phase s with
                               | DONE | FAILED =>
                                   main_cleanup Live Live Live Live Live Live
                               | _ => []
                               end))).
Proof.
  cbv zeta. unfold main, main_memory.
  destruct (Z.eqb_spec argc 3) as [Hargc|Hargc]; cbn [negb];
    [right; split; [assumption|] | left; auto].
  (* the input *)
  pose proof (open_input_file_memory_live (input_env env) [])
    as [Hin Hin'].
  pose proof (open_input_file_result (input_env env)) as Hres1.
  pose proof (open_input_file_some (input_env env)) as Hopens.
  pose proof (open_input_file_opens (input_env env)) as Hopened.
  destruct (open_input_file (input_env env)) as [[r1 [inpccx|]] h1].
  2:{ right; left. exists h1. intros _. split; [reflexivity|].
      rewrite frees_unset_app, Hin', live_after_app, Hin.
      split; [reflexivity|]. right. split; [|reflexivity].
      intros (Habs & _). destruct (Hopened Habs) as [c Hc]. discriminate. }
  destruct Hres1 as [-> ->]. change (nonzero 0) with false. cbv iota.
  specialize (Hopens 0 inpccx [] eq_refl). clear Hopened.
  (* the output *)
  pose proof (open_output_file_memory_live (output_env env) inpccx
                [DecoderContext; InputFormatContext]) as [Hout Hout'].
  pose proof (open_output_file_result (output_env env) inpccx) as Hres2.
  pose proof (open_output_file_some (output_env env) inpccx) as Hctx.
  destruct (open_output_file (output_env env) inpccx)
    as [[r2 [outccx|]] h2].
  2:{ right; left. exists h2. intros _. split; [reflexivity|].
      rewrite !frees_unset_app, Hin', Hout'.
      rewrite !live_after_app, Hin, Hout.
      split; [reflexivity|].
      destruct (Z.leb_spec 0 (avio_open_ret (output_env env))) as [Hio|Hio];
        cbn [andb].
      - destruct (avformat_alloc_context_ok (output_env env));
          cbn [negb].
        + right. split; [|reflexivity]. intros (_ & _ & Habs). discriminate.
        + left. split; [|reflexivity]. auto.
      - right. split; [|reflexivity]. intros (_ & Habs & _). lia. }
  destruct Hres2 as (-> & -> & Hrate & Hframe).
  change (nonzero 0) with false. cbv iota.
  specialize (Hctx 0 outccx [] eq_refl).
  assert (Hnot : ~ (input_opens (input_env env)
                    /\ 0 <= avio_open_ret (output_env env)
                    /\ avformat_alloc_context_ok (output_env env) = false))
    by (intros (_ & _ & Habs); congruence).
  (* the resampler *)
  unfold init_resampler, init_resampler_memory.
  destruct (Z.ltb_spec (swr_alloc_set_opts2_ret env) 0) as [Hswr|Hswr].
  { rewrite nonzero_negative by assumption.
    right; left. eexists. intros _. split; [reflexivity|].
    rewrite !frees_unset_app, Hin', Hout'.
    rewrite !live_after_app, Hin, Hout. cbn. auto. }
  rewrite Hrate, Z.eqb_refl. cbn [negb].
  destruct (Z.ltb_spec (swr_init_ret env) 0) as [Hinit|Hinit].
  { rewrite nonzero_negative by assumption.
    right; left. eexists. intros _. split; [reflexivity|].
    rewrite !frees_unset_app, Hin', Hout'.
    rewrite !live_after_app, Hin, Hout. cbn. auto. }
  change (nonzero 0) with false. cbv iota.
  (* the FIFO *)
  unfold init_fifo, init_fifo_memory.
  destruct (av_audio_fifo_alloc_ok env); cbn [negb].
  2:{ right; left. eexists. intros _. split; [reflexivity|].
      rewrite !frees_unset_app, Hin', Hout'.
      rewrite !live_after_app, Hin, Hout. cbn. auto. }
  change (nonzero 0) with false. cbv iota.
  (* the header *)
  unfold write_output_file_header.
  destruct (Z.ltb_spec (avformat_write_header_ret env) 0) as [Hhdr|Hhdr].
  { rewrite nonzero_negative by assumption.
    right; left. eexists. intros _. split; [reflexivity|].
    rewrite !frees_unset_app, Hin', Hout'.
    rewrite !live_after_app, Hin, Hout. cbn. auto. }
  change (nonzero 0) with false. cbv iota.
  right; right. eexists outccx, _.
  split; [|split; [|split; [exact Hnot|]]].
  3:{ intros fuel. split; [reflexivity|].
      destruct (at_phase _); rewrite ?app_nil_r; reflexivity. }
  - rewrite !live_after_app, Hin, Hout. reflexivity.
  - rewrite !frees_unset_app, Hin', Hout'. reflexivity.
Qed.

End MemoryOfMain.

Section MemoryOfARun.

Context {codes : av_error_codes}.

(** X21.  [main] gives back what it took: when it returns, on whatever
    path, every allocation it or the functions it calls have made has
    been freed, once -- but for the output file when [open_output_file]
    has lost it.  While the loop runs, what is live is what the set-up has
    allocated and nothing else: the loop does not pile up memory.  What
    is freed without being live is a variable that was never set, and
    only the [conv_isamps] of [read_decode_convert_and_store]: with the
    frees of it left out the calls of a run are in order, and a run that
    has such a free is not. *)
Theorem main_gives_back_what_it_took (env : environment) (fuel : nat)
    (argc : Z) :
  let lost :=
    input_opens (input_env env)
    /\ 0 <= avio_open_ret (output_env env)
    /\ avformat_alloc_context_ok (output_env env) = false in
  let calls := main_memory env fuel argc in
  let left_live (rest : list resource) :=
    live_after (without_unset_frees calls) [] = Some rest
    /\ live_after calls [] = (if frees_unset calls then None else Some rest)
    /\ forall r, In (Free r Unset) calls -> r = ConvertedSamples in
  match main env fuel argc with
  | Return _ _ =>
      (lost /\ left_live [OutputIOContext]) \/ (~ lost /\ left_live [])
  | Unfinished _ => left_live set_up_resources
  | Exit _ _ => calls = []
  | Abort => True
  end.
Proof.
  cbv zeta.
  assert (Hwhole : forall calls rest,
             live_after (without_unset_frees calls) [] = Some rest ->
             (forall r, In (Free r Unset) calls -> r = ConvertedSamples) ->
             live_after (without_unset_frees calls) [] = Some rest
             /\ live_after calls []
                = (if frees_unset calls then None else Some rest)
             /\ forall r, In (Free r Unset) calls -> r = ConvertedSamples).
  { intros calls rest Hrest Honly. conj_split; auto.
    apply live_after_with_unset_frees. exact Hrest. }
  destruct (main_memory_cases env argc)
    as [(Hargc & Husage)
       | (_ & [Habort | [(lines & Hfail)
                        | (outccx & before & Hbefore & Hclean & Hnot
                           & Hloop)]])].
  - rewrite Husage. unfold main_memory.
    destruct (Z.eqb_spec argc 3); [contradiction | reflexivity].
  - rewrite Habort. exact I.
  - destruct (Hfail fuel) as (-> & Hnone & Hlive).
    assert (Honly : forall r,
               In (Free r Unset) (main_memory env fuel argc) ->
               r = ConvertedSamples).
    { intros r Hin. exfalso. apply (frees_unset_none _ r Hnone Hin). }
    destruct Hlive as [(Hlost & Hlive) | (Hnot & Hlive)]; [left | right];
      (split; [assumption|]);
      (apply Hwhole;
       [rewrite (without_unset_frees_none _ Hnone); exact Hlive
       | exact Honly]).
  - destruct (Hloop fuel) as [-> ->].
    set (s := main_loop env outccx fuel (main_start (av_audio_fifo_alloc 1))).
    assert (Honly : forall tail r,
               frees_unset tail = false ->
               In (Free r Unset)
                 ((before
                     ++ main_loop_memory env outccx fuel
                          (main_start (av_audio_fifo_alloc 1))) ++ tail) ->
               r = ConvertedSamples).
    { intros tail r Htail Hin.
      apply in_app_or in Hin. destruct Hin as [Hin | Hin].
      - apply in_app_or in Hin. destruct Hin as [Hin | Hin].
        + exfalso. apply (frees_unset_none _ r Hclean Hin).
        + apply (main_loop_memory_only env outccx _ _ r Hin).
      - exfalso. apply (frees_unset_none _ r Htail Hin). }
    assert (Hrest : forall tail,
               frees_unset tail = false ->
               live_after
                 (without_unset_frees
                    ((before
                        ++ main_loop_memory env outccx fuel
                             (main_start (av_audio_fifo_alloc 1))) ++ tail))
                 []
               = live_after tail set_up_resources).
    { intros tail Htail.
      rewrite !without_unset_frees_app, (without_unset_frees_none _ Hclean),
        (without_unset_frees_none _ Htail).
      rewrite !live_after_app, Hbefore, main_loop_memory_neutral.
      reflexivity. }
    destruct (main_end_cases env s)
      as [(Hphase & [(_ & ->) | (_ & ->)])
         | [(Hphase & ->) | (Hphase & ->)]];
      try (rewrite Hphase; right; split; [exact Hnot|];
           apply Hwhole;
           [rewrite Hrest by reflexivity; reflexivity
           | intros r; apply Honly; reflexivity]).
    assert (Hgoes : match at_phase s with
                    | DONE | FAILED =>
                        main_cleanup Live Live Live Live Live Live
                    | _ => []
                    end = [])
      by (destruct Hphase as [-> | [-> | ->]]; reflexivity).
    rewrite Hgoes. apply Hwhole.
    + rewrite Hrest by reflexivity. reflexivity.
    + intros r. apply Honly. reflexivity.
Qed.

(** X22.  Every good run frees a variable that was never set: a run of
    [main] that returns 0 has seen the end of its input in a decode step,
    and that call of [read_decode_convert_and_store] has jumped to its
    label [cleanup] over the declaration of [conv_isamps] and has there
    tested and freed the variable. *)
Theorem every_good_run_frees_an_unset_variable (env : environment)
    (fuel : nat) (argc : Z) (h : list event) :
  main env fuel argc = Return 0 h ->
  frees_unset (main_memory env fuel argc) = true.
Proof.
  pose proof AVERROR_EXIT_neg as Hexit.
  destruct (main_memory_cases env argc)
    as [(_ & Husage)
       | (_ & [Habort | [(lines & Hfail)
                        | (outccx & before & _ & _ & _ & Hloop)]])].
  - rewrite Husage. discriminate.
  - rewrite Habort. discriminate.
  - destruct (Hfail fuel) as (-> & _). intros E; inversion E; lia.
  - destruct (Hloop fuel) as [-> ->].
    set (s := main_loop env outccx fuel (main_start (av_audio_fifo_alloc 1))).
    assert (Hreach : reachable env outccx s) by (exists fuel; reflexivity).
    destruct (reachable_invariant env outccx s Hreach)
      as (_ & _ & _ & _ & Hdone).
    destruct (main_end_cases env s)
      as [(Hphase & [(_ & ->) | (_ & ->)])
         | [(Hphase & ->) | (Hphase & ->)]];
      intros E; inversion E; try lia.
    destruct (Hdone (or_intror Hphase)) as [Hfin _].
    rewrite !frees_unset_app.
    rewrite (finished_loop_has_freed_unset env outccx fuel Hfin).
    rewrite orb_true_r. reflexivity.
Qed.

End MemoryOfARun.

Section Loss.

Context {codes : av_error_codes}.

(** What a decode step that returns 0 does with the frame the decoder
    hands out: it stores it in the buffer, unless the step has set
    [finished] -- then the frame, if there is one, came with the end of
    the file and is left out. *)
Lemma read_decode_convert_and_store_frames (a : pump_answers) (fin : bool)
    (st : state) (fin' : bool) (st' : state) :
  read_decode_convert_and_store a fin st = (0, fin', st') ->
  fifo_ok (fifo st) ->
  0 <= input_frame_nb_samples a ->
  (decoded_frames (history st') = decoded_frames (history st)
   /\ fifo st' = fifo st)
  \/ (decoded_frames (history st')
      = decoded_frames (history st) ++ [input_frame_nb_samples a]
      /\ if fin'
         then fifo st' = fifo st
              /\ av_read_frame_ret a = AVERROR_EOF
              /\ avcodec_receive_frame_ret a = 0
         else av_audio_fifo_size (fifo st')
              = av_audio_fifo_size (fifo st) + input_frame_nb_samples a).
Proof.
  unfold read_decode_convert_and_store, init_input_frame,
    init_converted_samples, convert_samples.
  pose proof AVERROR_EXIT_neg as Hexit.
  destruct (input_frame_alloc_ok a); cbn [negb].
  2:{ rewrite nonzero_negative by (pose proof ENOMEM_pos; unfold AVERROR; lia).
      intros E; inversion E; lia. }
  cbn [nonzero Z.eqb negb].
  pose proof (decode_audio_frame_effect a false fin st) as Hdec.
  destruct (decode_audio_frame a false fin st) as [[[r0 dp] fin0] st0].
  cbn [fst snd] in Hdec. destruct Hdec as (Hf & _ & _ & _ & Hdata & Hnone).
  destruct (nonzero r0) eqn:Hr0; z_tests; [intros E; inversion E; lia|].
  subst r0. specialize (Hdata eq_refl). specialize (Hnone eq_refl).
  destruct fin0.
  { intros E Hok Hn; inversion E; subst; clear E.
    destruct dp.
    - destruct (Hdata eq_refl) as (Hrecv & Hframes & Heof). right. auto.
    - left. auto. }
  destruct dp.
  2:{ intros E _ _; inversion E; subst; clear E. left. auto. }
  destruct (Hdata eq_refl) as (_ & Hframes & _).
  destruct (Z.ltb_spec (av_samples_alloc_ret a) 0);
    [rewrite nonzero_negative by assumption; intros E; inversion E; lia|].
  cbn [nonzero Z.eqb negb].
  destruct (Z.ltb_spec (swr_convert_ret a) 0);
    [rewrite nonzero_negative by assumption; intros E; inversion E; lia|].
  cbn [nonzero Z.eqb negb].
  intros E Hok Hn.
  rewrite <- Hf in Hok.
  pose proof (add_samples_to_fifo_level (av_audio_fifo_realloc_ret a)
                (input_frame_nb_samples a) st0 Hok Hn) as Hadd.
  cbv zeta in Hadd.
  destruct (add_samples_to_fifo _ _ st0) as [r1 st1].
  cbn [fst snd] in Hadd. destruct Hadd as (_ & _ & Hzero & _).
  destruct (nonzero r1) eqn:Hr1; z_tests; inversion E; subst; clear E;
    [lia|].
  destruct (Hzero eq_refl) as [Hlevel Hhist].
  right. rewrite Hhist, Hlevel, Hf. auto.
Qed.

Variable env : environment.
Variable outccx : AVCodecContext.

Hypothesis frame_size_not_negative : 0 <= frame_size outccx.
Hypothesis sample_counts_not_negative :
  forall i, 0 <= input_frame_nb_samples (pump_env env i).

(** As long as the loop has not failed, the frames the decoder handed out
    are those whose samples are in the buffer or were handed to the
    encoder, and after them at most one more: a frame that came with the
    end of the file. *)
Lemma loop_loses_at_most_one_frame (s : main_state) :
  reachable env outccx s ->
  at_phase s <> FAILED ->
  exists kept lost,
    decoded_frames (history (world s)) = kept ++ lost
    /\ sum kept = level s + sent_samples (history (world s))
    /\ (lost = []
        \/ (finished s = true
            /\ exists i,
                lost = [input_frame_nb_samples (pump_env env i)]
                /\ av_read_frame_ret (pump_env env i) = AVERROR_EOF
                /\ avcodec_receive_frame_ret (pump_env env i) = 0)).
Proof.
  revert s.
  apply (reachable_ind env outccx
           (fun s =>
              at_phase s <> FAILED ->
              exists kept lost,
                decoded_frames (history (world s)) = kept ++ lost
                /\ sum kept = level s + sent_samples (history (world s))
                /\ (lost = []
                    \/ (finished s = true
                        /\ exists i,
                            lost = [input_frame_nb_samples (pump_env env i)]
                            /\ av_read_frame_ret (pump_env env i)
                               = AVERROR_EOF
                            /\ avcodec_receive_frame_ret (pump_env env i)
                               = 0)))).
  { intros _. exists [], []. cbn. auto. }
  intros s Hs IH.
  destruct (reachable_invariant env outccx s Hs) as (Hok & _ & Hfill & _).
  unfold level in *.
  destruct (main_step_cases env outccx s)
    as [(Hphase & _ & r & Hr & Hw & Hfin & Hnext & _)
       |[(Hphase & _ & r & Hr & Hw & Hfin & Hnext & _)
        |[(Hphase & r & Hr & Hw & Hfin & Hnext & _)
         | (Hw & _ & _ & _ & Hmove)]]];
    try (rewrite Hnext; destruct (nonzero r) eqn:Hzero; [congruence|];
         z_tests; cbv zeta in Hr; rewrite Hzero in Hr; intros _;
         destruct (IH ltac:(congruence))
           as (kept & lost & Hdec & Hsum & Hlost);
         rewrite Hw, Hfin).
  - (* a decode step *)
    assert (Hnone : lost = []).
    { destruct Hlost as [Hl | (Hf & _)]; [exact Hl|].
      exfalso. apply (Hfill Hf Hphase). }
    subst lost. rewrite app_nil_r in Hdec.
    pose proof (read_decode_convert_and_store_keeps
                  (pump_env env (pump_calls s)) (finished s) (world s))
      as (_ & Hsent & _).
    cbv zeta in Hsent. unfold sent_samples in *. rewrite Hsent.
    destruct (read_decode_convert_and_store _ _ _) as [[r0 fin'] w] eqn:E.
    cbn [fst snd] in *. subst r0.
    destruct (read_decode_convert_and_store_frames _ _ _ _ _ E Hok
                (sample_counts_not_negative _))
      as [(Hsame & Hf) | (Hmore & Hwhere)].
    + exists kept, []. rewrite Hsame, Hf, app_nil_r. auto.
    + destruct fin'.
      * destruct Hwhere as (Hf & Heof & Hrecv).
        exists kept, [input_frame_nb_samples (pump_env env (pump_calls s))].
        rewrite Hmore, Hf, Hdec. conj_split; auto.
        right. split; [reflexivity|]. eauto.
      * exists (kept ++ [input_frame_nb_samples
                          (pump_env env (pump_calls s))]), [].
        rewrite Hmore, Hwhere, Hdec, app_nil_r, sum_app.
        conj_split; auto. cbn. lia.
  - (* a drain *)
    destruct (load_encode_and_write _ _ _ _) as [r0 w] eqn:E.
    cbn [fst snd] in *. subst r0.
    destruct (load_encode_and_write_accounting _ _ _ _ _ E Hok
                frame_size_not_negative) as [Hsame Hmoved].
    pose proof (load_encode_and_write_keeps
                  (frame_env env (drain_calls s))
                  (encode_env env (encode_calls s)) outccx (world s))
      as (Hframes & _).
    cbv zeta in Hframes. rewrite E in Hframes. cbn [snd] in Hframes.
    exists kept, lost. rewrite Hframes. conj_split; auto. lia.
  - (* a call with the null frame *)
    pose proof (encode_audio_frame_effect
                  (encode_env env (encode_calls s)) None false (world s))
      as (Hf & Hframes & [(Hsent & _) | (f & Habs & _)]); [|discriminate].
    exists kept, lost. unfold sent_samples in *.
    rewrite Hf, Hframes, Hsent. auto.
  - (* a move that calls nothing *)
    rewrite Hw. intros Hnot.
    assert (Hbefore : at_phase s <> FAILED).
    { destruct Hmove as [(Hphase & _) | [(Hphase & _)
                        | [(Hphase & _) | (_ & Hsame)]]];
        congruence. }
    destruct (IH Hbefore) as (kept & lost & Hdec & Hsum & Hlost).
    exists kept, lost. conj_split; auto.
    destruct Hlost as [Hl | (Hf & Hi)]; [auto|].
    right. split; [|exact Hi].
    destruct Hmove as [(_ & _ & ->) | [(_ & _ & _ & ->)
                      | [(_ & _ & Habs & _) | (_ & ->)]]];
      cbn [finished goto]; congruence.
Qed.

End Loss.

Section LossInARun.

Context {codes : av_error_codes}.

(** X23.  A good run loses at most one frame: when [main] returns 0, the
    frames the decoder handed out are, in their order, frames whose
    samples all went to the encoder, and after them at most one frame
    more, which did not -- a frame the decoder handed out in the decode
    step that read the end of the file. *)
Theorem main_loses_at_most_the_last_frame (env : environment) (fuel : nat)
    (argc : Z) (h : list event) :
  0 <= encoder_frame_size (output_env env) ->
  (forall i, 0 <= input_frame_nb_samples (pump_env env i)) ->
  main env fuel argc = Return 0 h ->
  exists kept lost,
    decoded_frames h = kept ++ lost
    /\ sum kept = sent_samples h
    /\ (lost = []
        \/ exists i,
            lost = [input_frame_nb_samples (pump_env env i)]
            /\ av_read_frame_ret (pump_env env i) = AVERROR_EOF
            /\ avcodec_receive_frame_ret (pump_env env i) = 0).
Proof.
  intros Hsize Hcounts.
  pose proof AVERROR_EXIT_neg as Hexit.
  destruct (main_cases env argc)
    as [(_ & Husage)
       | (_ & [Habort | [(lines & Hfail) | (outccx & Hframe & Hloop)]])].
  - rewrite Husage. discriminate.
  - rewrite Habort. discriminate.
  - rewrite Hfail. intros E; inversion E; lia.
  - rewrite Hloop.
    set (s := main_loop env outccx fuel (main_start (av_audio_fifo_alloc 1))).
    assert (Hreach : reachable env outccx s) by (exists fuel; reflexivity).
    destruct (reachable_invariant env outccx s Hreach)
      as (_ & _ & _ & _ & Hdone).
    destruct (main_end_cases env s)
      as [(Hphase & [(_ & ->) | (_ & ->)]) | [(_ & ->) | (_ & ->)]];
      intros E; inversion E; subst; clear E; try lia.
    destruct (loop_loses_at_most_one_frame env outccx ltac:(lia) Hcounts
                s Hreach ltac:(congruence))
      as (kept & lost & Hdec & Hsum & Hlost).
    destruct (Hdone (or_intror Hphase)) as [_ Hlevel].
    exists kept, lost.
    rewrite decoded_frames_app, sent_samples_app, Hdec, Hsum, Hlevel.
    cbn. rewrite app_nil_r. conj_split; auto; try lia.
    destruct Hlost as [Hl | (_ & Hi)]; auto.
Qed.

End LossInARun.

(* ===================================================================== *)
(** ** Concrete runs *)
(* ===================================================================== *)

Section Concrete.

#[local] Existing Instance linux_error_codes.

(** C1.  The total handed to the encoder is not the total the decoder
    produced when the decoder yields a frame only after the end of the
    stream is signalled.  In the run [delayed_decoder_run] the decoder
    first asks for more input and then, in the decode step that reads the
    end of the file, hands out the 1024 samples it had held back;
    [read_decode_convert_and_store] returns at line 524 without storing
    them, and [main] returns 0 having given the encoder no sample at
    all. *)
Theorem delayed_decoder_frame_is_dropped :
  main delayed_decoder_run 10 3
  = Return 0
      [Decoded 1024; SendFrame None;
       Stdout "outer loop, how many times? %u" 0; WriteTrailer]
  /\ decoded_samples
       [Decoded 1024; SendFrame None;
        Stdout "outer loop, how many times? %u" 0; WriteTrailer] = 1024
  /\ sent_samples
       [Decoded 1024; SendFrame None;
        Stdout "outer loop, how many times? %u" 0; WriteTrailer] = 0.
Proof. repeat split; vm_compute; reflexivity. Qed.

(** The scenario of the specification: two decoder frames of 1024 samples
    and an encoder frame size of 2048 give one drain of 2048 samples and
    one flush call. *)
Example two_frames_scenario :
  main two_frames_run 10 3
  = Return 0
      [Decoded 1024; Decoded 1024;
       SendFrame (Some {| nb_samples := 2048; frame_pts := 0 |});
       WritePacket; SendFrame None;
       Stdout "outer loop, how many times? %u" 1; WriteTrailer].
Proof. vm_compute. reflexivity. Qed.

(** An input total that is not a multiple of the encoder's frame size:
    the last drain hands over the remainder as a shorter frame. *)
Example three_frames_scenario :
  main three_frames_run 20 3
  = Return 0
      [Decoded 1024; Decoded 1024;
       SendFrame (Some {| nb_samples := 1152; frame_pts := 0 |});
       WritePacket; Decoded 1024;
       SendFrame (Some {| nb_samples := 1152; frame_pts := 1152 |});
       WritePacket;
       SendFrame (Some {| nb_samples := 768; frame_pts := 2304 |});
       WritePacket; SendFrame None;
       Stdout "outer loop, how many times? %u" 2; WriteTrailer].
Proof. vm_compute. reflexivity. Qed.

(** An input of no samples: the first decode step reads the end of the
    file, nothing is drained, the encoder is flushed once. *)
Example empty_input_scenario :
  main (run_of [] 1152 []) 10 3
  = Return 0
      [SendFrame None; Stdout "outer loop, how many times? %u" 0;
       WriteTrailer].
Proof. vm_compute. reflexivity. Qed.

(** C8, as stated, fails on an input file whose only stream is a video
    stream: the file holds no audio stream, and [open_input_file] accepts
    it, returning 0 and a decoder context. *)
Lemma one_video_stream_is_accepted :
  audio_streams video_only <> 1%nat
  /\ open_input_file video_only
     = (0,
        Some {| sample_rate := 0; sample_fmt := 8; nb_channels := 1;
                frame_size := 0 |},
        []).
Proof. split; [vm_compute; discriminate | vm_compute; reflexivity]. Qed.

(** Two appends of 1024 samples and two consumes, of 1152 and of 896
    samples, from the empty buffer. *)
Lemma fifo_level_follows_appends_and_consumes_witness :
  fifo_levels
    [Append 1024 0; Append 1024 0; Consume 1152; Consume 896]
    {| fifo := av_audio_fifo_alloc 1; pts := 0; history := [] |}
  = [1024; 2048; 896; 0].
Proof.
  refine (proj2 (proj2 (fifo_level_follows_appends_and_consumes
            [Append 1024 0; Append 1024 0; Consume 1152; Consume 896]
            {| fifo := av_audio_fifo_alloc 1; pts := 0; history := [] |}
            _ _)) _).
  - vm_compute. split; discriminate.
  - simpl. lia.
  - simpl. unfold INT_MAX. lia.
Defined.

(** Two frames, of 1152 and of 768 samples, a frame whose call finds no
    memory for its packet, and the null frame: the counter ends at
    1152 + 768, the two frames bear 0 and 1152. *)
Lemma pts_is_the_sum_of_the_samples_pushed_witness :
  let st' :=
    encode_all
      [(packet_written, Some {| nb_samples := 1152; frame_pts := 0 |});
       (packet_written, Some {| nb_samples := 768; frame_pts := 0 |});
       ({| output_packet_alloc_ok := false; avcodec_send_frame_ret := 0;
           avcodec_receive_packet_ret := 0; av_write_frame_ret := 0 |},
        Some {| nb_samples := 512; frame_pts := 0 |});
       (encoder_empty, None)]
      {| fifo := av_audio_fifo_alloc 1; pts := 0; history := [] |} in
  let frames := sent_frames (history st') in
  pts st' = 1920
  /\ map nb_samples frames = [1152; 768]
  /\ map frame_pts frames = [0; 1152]
  /\ non_decreasing (map frame_pts frames).
Proof.
  pose proof (pts_is_the_sum_of_the_samples_pushed
            [(packet_written, Some {| nb_samples := 1152; frame_pts := 0 |});
             (packet_written, Some {| nb_samples := 768; frame_pts := 0 |});
             ({| output_packet_alloc_ok := false;
                 avcodec_send_frame_ret := 0;
                 avcodec_receive_packet_ret := 0;
                 av_write_frame_ret := 0 |},
              Some {| nb_samples := 512; frame_pts := 0 |});
             (encoder_empty, None)]
            {| fifo := av_audio_fifo_alloc 1; pts := 0; history := [] |}
            eq_refl eq_refl) as H.
  cbv zeta in *.
  destruct H as (_ & _ & _ & Hmono & Hframes & Hpts & Hstamps & _).
  - repeat constructor; vm_compute; discriminate.
  - vm_compute. discriminate.
  - split; [exact Hpts|]. split; [exact Hframes|].
    split; [exact Hstamps | exact Hmono].
Defined.

(** The state of [three_frames_run] in which the end of the input has
    just been signalled: [DRAINING], 768 samples in the buffer.  One drain
    hands them to the encoder as the frame that bears 2304, the loop then
    is in [FLUSHING], and it is [DONE] within six steps. *)
Lemma end_of_stream_drains_once_then_flushes_witness :
  let s := main_loop three_frames_run (encoder_of 1152) 10 start in
  finished s = true /\ at_phase s = DRAINING /\ level s = 768
  /\ (forall n,
        finished (main_loop three_frames_run (encoder_of 1152) n s) = true
        /\ at_phase (main_loop three_frames_run (encoder_of 1152) n s)
           <> FILLING
        /\ pump_calls (main_loop three_frames_run (encoder_of 1152) n s)
           = pump_calls s)
  /\ at_phase (main_loop three_frames_run (encoder_of 1152) 1 s) = DRAINING
  /\ at_phase (main_loop three_frames_run (encoder_of 1152) 2 s) = FLUSHING
  /\ level (main_loop three_frames_run (encoder_of 1152) 2 s) = 0
  /\ drain_calls (main_loop three_frames_run (encoder_of 1152) 2 s)
     = S (drain_calls s)
  /\ sent_frames
       (history (world (main_loop three_frames_run (encoder_of 1152) 2 s)))
     = sent_frames (history (world s))
         ++ [{| nb_samples := 768; frame_pts := 2304 |}]
  /\ exists m,
      (2 < m <= 6)%nat
      /\ at_phase (main_loop three_frames_run (encoder_of 1152) m s) = DONE
      /\ level (main_loop three_frames_run (encoder_of 1152) m s) = 0
      /\ sent_frames
           (history
              (world (main_loop three_frames_run (encoder_of 1152) m s)))
         = sent_frames (history (world s))
             ++ [{| nb_samples := 768; frame_pts := 2304 |}].
Proof.
  cbv zeta.
  remember (main_loop three_frames_run (encoder_of 1152) 10 start) as s
    eqn:Hs.
  assert (Hfin : finished s = true) by (rewrite Hs; reflexivity).
  assert (Hphase : at_phase s = DRAINING) by (rewrite Hs; reflexivity).
  assert (Hlevel : level s = 768) by (rewrite Hs; reflexivity).
  assert (Hpts : pts (world s) = 2304) by (rewrite Hs; reflexivity).
  assert (Hreach : reachable three_frames_run (encoder_of 1152) s)
    by (exists 10%nat; exact Hs).
  destruct (end_of_stream_drains_once_then_flushes
              three_frames_run (encoder_of 1152) s Hreach Hfin)
    as (Hstays & _ & _ & _ & _ & _ & _ & Hgood).
  specialize (Hgood 3%nat Hphase).
  rewrite Hlevel, Hpts in Hgood. cbv zeta in Hgood.
  change (0 <? 768) with true in Hgood. cbv iota in Hgood.
  destruct Hgood as (Hbefore & Hflush & Hempty & Hdrains & Hsent & Hdone).
  - vm_compute. intuition discriminate.
  - clear. intros k.
    do 3 (destruct k as [|k]; [left; vm_compute; intuition discriminate|]).
    right. destruct k; vm_compute; intuition (try discriminate; auto).
  - clear. intros k Hk. do 3 (destruct k as [|k]; [lia|]). clear Hk.
    destruct k; vm_compute; intuition (try discriminate; auto).
  - split; [exact Hfin|]. split; [exact Hphase|]. split; [exact Hlevel|].
    split; [exact Hstays|].
    split; [apply Hbefore; lia|].
    split; [exact Hflush|]. split; [exact Hempty|].
    split; [rewrite Hdrains; lia|].
    split; [exact Hsent | exact Hdone].
Defined.

(** The state of [three_frames_run] in which the first drain is due:
    [DRAINING], 2048 samples in the buffer, an encoder of 1152. *)
Lemma drain_takes_the_minimum_and_never_reads_short_witness :
  let s := main_loop three_frames_run (encoder_of 1152) 3 start in
  at_phase s = DRAINING /\ level s = 2048
  /\ FFMIN (level s) 1152 = Z.min (level s) 1152
  /\ 0 < FFMIN (level s) 1152 <= level s.
Proof.
  cbv zeta. split; [reflexivity|]. split; [reflexivity|].
  pose proof (drain_takes_the_minimum_and_never_reads_short
                three_frames_run (encoder_of 1152)
                (main_loop three_frames_run (encoder_of 1152) 3 start))
    as H.
  cbv zeta in H.
  refine ((fun H' => conj (proj1 H') (proj1 (proj2 H'))) (H _ _ _ _)).
  - exists 3%nat. reflexivity.
  - reflexivity.
  - reflexivity.
  - vm_compute. reflexivity.
Defined.

(** A decode step at the end of the file. *)
Lemma pump_maps_decoder_outcomes_three_ways_witness :
  read_decode_convert_and_store end_of_file false (world start)
  = (0, true, world start).
Proof.
  pose proof (proj1 (pump_maps_decoder_outcomes_three_ways
                       end_of_file false (world start))
                eq_refl eq_refl (or_intror eq_refl) (Z.le_refl 0)) as H.
  destruct H as (H & _ & _). specialize (H eq_refl).
  destruct (read_decode_convert_and_store end_of_file false (world start))
    as [[r f] w].
  cbn [fst snd] in H. destruct H as (-> & -> & ->). reflexivity.
Defined.

(** The state of [three_frames_run] in which the flush loop is entered:
    three calls of the encoder were answered, and from the fourth on it
    has nothing to hand out. *)
Lemma flushing_terminates_and_the_trailer_is_written_witness :
  let s := main_loop three_frames_run (encoder_of 1152) 12 start in
  at_phase s = FLUSHING
  /\ exists m,
      (1 <= m <= 3 - encode_calls s + 1)%nat
      /\ at_phase (main_loop three_frames_run (encoder_of 1152) m s) = DONE.
Proof.
  cbv zeta. split; [reflexivity|].
  destruct (flushing_terminates_and_the_trailer_is_written
              three_frames_run (encoder_of 1152)
              (main_loop three_frames_run (encoder_of 1152) 12 start) 3)
    as (m & Hm & _ & _ & Hdone & _).
  - reflexivity.
  - intros k Hk. unfold three_frames_run, run_of. cbn [encode_env].
    do 3 (destruct k as [|k]; [lia|]).
    destruct k; cbn [nth]; vm_compute; intuition congruence.
  - exists m. split; [exact Hm|]. apply Hdone.
    intros k Hk. vm_compute in Hk. lia.
Defined.

(** An input file with an audio and a video stream. *)
Lemma input_without_exactly_one_stream_is_rejected_witness :
  open_input_file (input_env two_streams_run)
  = (AVERROR_EXIT, None,
     ["Expected one audio input stream, but found %d"%string])
  /\ exists lines,
      main two_streams_run 0 3 = Return AVERROR_EXIT (map Stderr lines).
Proof.
  pose proof (input_without_exactly_one_stream_is_rejected
                two_streams_run 0) as H.
  refine ((fun H' => conj (proj1 (proj2 (proj2 H')) _ _)
                          (proj1 (proj2 (proj2 (proj2 H'))))) (H _)).
  - vm_compute. discriminate.
  - vm_compute. discriminate.
  - vm_compute. discriminate.
Defined.

(** Five rounds of the flush loop of [three_frames_run]. *)
Lemma null_frame_leaves_pts_unchanged_witness :
  let s := main_loop three_frames_run (encoder_of 1152) 12 start in
  pts (world (main_loop three_frames_run (encoder_of 1152) 5 s))
  = pts (world s).
Proof.
  exact (proj2 (proj2 null_frame_leaves_pts_unchanged)
           three_frames_run (encoder_of 1152) 5%nat
           (main_loop three_frames_run (encoder_of 1152) 12 start)
           eq_refl).
Defined.

(** The encoder context [open_output_file] hands out for a 48 kHz
    decoder. *)
Lemma resampler_assertion_never_fails_witness :
  init_resampler 0 0
    {| sample_rate := 48000; sample_fmt := 8; nb_channels := 1;
       frame_size := 0 |}
    (encoder_of 1152)
  <> AssertionFailed.
Proof.
  exact (proj2 (proj1 resampler_assertion_never_fails
                  (output_with 1152)
                  {| sample_rate := 48000; sample_fmt := 8;
                     nb_channels := 1; frame_size := 0 |}
                  0 (encoder_of 1152) [] eq_refl) 0 0).
Defined.

(** The answers of [three_frames_run]: sample counts that are not
    negative, no frame held back until the end of the file, an input that
    ends and an encoder that runs dry. *)
Lemma three_frames_run_is_tame :
  (forall i, 0 <= input_frame_nb_samples (pump_env three_frames_run i))
  /\ (forall i, no_delayed_frame (pump_env three_frames_run i))
  /\ (forall i, (3 <= i)%nat ->
                av_read_frame_ret (pump_env three_frames_run i) = AVERROR_EOF)
  /\ (forall k, (3 <= k)%nat ->
                yields_no_packet (encode_env three_frames_run k)).
Proof.
  unfold three_frames_run, run_of. cbn [pump_env encode_env].
  split; [|split; [|split]].
  - intros i. do 3 (destruct i as [|i]; [vm_compute; discriminate|]).
    destruct i; vm_compute; discriminate.
  - intros i. unfold no_delayed_frame.
    do 3 (destruct i as [|i]; [vm_compute; discriminate|]).
    destruct i; vm_compute; discriminate.
  - intros i Hi. do 3 (destruct i as [|i]; [lia|]).
    destruct i; reflexivity.
  - intros k Hk. do 3 (destruct k as [|k]; [lia|]).
    destruct k; cbn [nth]; vm_compute; intuition congruence.
Qed.

(** [main] returns on [three_frames_run]. *)
Example three_frames_run_returns :
  exists fuel,
    forall argc,
      match main three_frames_run fuel argc with
      | Unfinished _ => False
      | _ => True
      end.
Proof.
  destruct three_frames_run_is_tame as (_ & _ & Hinput & Hencoder).
  apply (main_returns three_frames_run 3 3 Hinput Hencoder).
  vm_compute. reflexivity.
Qed.

(** [two_frames_run]: the encoder is given the 2048 samples the decoder
    handed out. *)
Lemma main_conserves_samples_witness :
  sent_samples
    [Decoded 1024; Decoded 1024;
     SendFrame (Some {| nb_samples := 2048; frame_pts := 0 |});
     WritePacket; SendFrame None;
     Stdout "outer loop, how many times? %u" 1; WriteTrailer]
  = decoded_samples
      [Decoded 1024; Decoded 1024;
       SendFrame (Some {| nb_samples := 2048; frame_pts := 0 |});
       WritePacket; SendFrame None;
       Stdout "outer loop, how many times? %u" 1; WriteTrailer].
Proof.
  refine (main_conserves_samples two_frames_run 10 3 _ _ _ _ _).
  - vm_compute. discriminate.
  - intros i. unfold two_frames_run, run_of. cbn [pump_env].
    do 2 (destruct i as [|i]; [vm_compute; discriminate|]).
    destruct i; vm_compute; discriminate.
  - intros i. unfold two_frames_run, run_of, no_delayed_frame.
    cbn [pump_env].
    do 2 (destruct i as [|i]; [vm_compute; discriminate|]).
    destruct i; vm_compute; discriminate.
  - vm_compute. reflexivity.
Defined.

(** The state of [three_frames_run] after its last drain. *)
Lemma main_pts_is_the_sum_of_the_samples_sent_witness :
  let s := main_loop three_frames_run (encoder_of 1152) 12 start in
  pts (world s) = 3072
  /\ map frame_pts (sent_frames (history (world s))) = [0; 1152; 2304].
Proof.
  cbv zeta.
  pose proof (main_pts_is_the_sum_of_the_samples_sent three_frames_run
                (encoder_of 1152)) as H.
  refine ((fun H' => conj (proj1 H') (proj1 (proj2 (proj2 H'))))
            (H _ (main_loop three_frames_run (encoder_of 1152) 12 start)
               _ _)).
  - vm_compute. discriminate.
  - exists 12%nat. reflexivity.
  - vm_compute. discriminate.
Defined.

(** The decode step of [delayed_decoder_run] that reads the end of the
    file. *)
Lemma delayed_frame_is_discarded_witness :
  exists st',
    read_decode_convert_and_store (delayed_frame_of 1024) false
      (world start)
    = (0, true, st')
    /\ fifo st' = fifo (world start)
    /\ decoded_frames (history st') = [1024].
Proof.
  refine (delayed_frame_is_discarded (delayed_frame_of 1024) false
            (world start) eq_refl eq_refl eq_refl _ eq_refl).
  vm_compute. discriminate.
Defined.

(** The answers of [delayed_decoder_run]: sample counts that are not
    negative. *)
Lemma delayed_decoder_run_counts :
  forall i, 0 <= input_frame_nb_samples (pump_env delayed_decoder_run i).
Proof.
  intros i. unfold delayed_decoder_run, run_of. cbn [pump_env].
  do 2 (destruct i as [|i]; [vm_compute; discriminate|]).
  destruct i; vm_compute; discriminate.
Qed.

(** [delayed_decoder_run] at its end: 1024 samples decoded, none in the
    buffer and none handed to the encoder. *)
Lemma samples_are_never_invented_witness :
  let s := main_loop delayed_decoder_run (encoder_of 1152) 6 start in
  decoded_samples (history (world s)) = 1024
  /\ level s + sent_samples (history (world s))
     <= decoded_samples (history (world s)).
Proof.
  cbv zeta. split; [reflexivity|].
  refine (samples_are_never_invented delayed_decoder_run (encoder_of 1152)
            (main_loop delayed_decoder_run (encoder_of 1152) 6 start)
            _ delayed_decoder_run_counts _).
  - vm_compute. discriminate.
  - exists 6%nat. reflexivity.
Defined.

(** [three_frames_run] at its end: two frames of the encoder's 1152
    samples and a last one of 768. *)
Lemma frames_are_full_except_the_last_witness :
  let s := main_loop three_frames_run (encoder_of 1152) 14 start in
  map nb_samples (sent_frames (history (world s))) = [1152; 1152; 768]
  /\ exists full last,
      sent_frames (history (world s)) = full ++ last
      /\ Forall (fun f => nb_samples f = 1152) full
      /\ (last = []
          \/ exists f,
              last = [f] /\ 0 < nb_samples f < 1152
              /\ finished s = true /\ level s = 0).
Proof.
  cbv zeta. split; [reflexivity|].
  refine (frames_are_full_except_the_last three_frames_run (encoder_of 1152)
            (main_loop three_frames_run (encoder_of 1152) 14 start) _).
  exists 14%nat. reflexivity.
Defined.

(** The answers of [three_frames_run]: frames of at most 1024 samples. *)
Lemma three_frames_run_counts :
  forall i, 0 <= input_frame_nb_samples (pump_env three_frames_run i) <= 1024.
Proof.
  intros i. unfold three_frames_run, run_of. cbn [pump_env].
  do 3 (destruct i as [|i]; [vm_compute; split; discriminate|]).
  destruct i; vm_compute; split; discriminate.
Qed.

(** [three_frames_run] after its second decode step: 2048 samples in the
    buffer, which may hold up to 1152 - 1 + 1024. *)
Lemma buffer_is_bounded_witness :
  let s := main_loop three_frames_run (encoder_of 1152) 2 start in
  level s = 2048
  /\ 0 <= level s <= Z.max 0 (1152 - 1 + 1024)
  /\ fifo_allocated_samples (fifo (world s)) <= Z.max 1 (1152 - 1 + 1024).
Proof.
  cbv zeta. split; [reflexivity|].
  refine (buffer_is_bounded three_frames_run (encoder_of 1152) 1024
            (main_loop three_frames_run (encoder_of 1152) 2 start)
            three_frames_run_counts _).
  exists 2%nat. reflexivity.
Defined.

(** [three_frames_run] at its end. *)
Lemma calls_bound_what_is_written_witness :
  let s := main_loop three_frames_run (encoder_of 1152) 14 start in
  (packets_written (history (world s))
   <= frames_pushed (history (world s)) <= encode_calls s)%nat
  /\ (List.length (sent_frames (history (world s))) <= drain_calls s)%nat
  /\ (List.length (decoded_frames (history (world s))) <= pump_calls s)%nat.
Proof.
  refine (calls_bound_what_is_written three_frames_run (encoder_of 1152)
            (main_loop three_frames_run (encoder_of 1152) 14 start) _).
  exists 14%nat. reflexivity.
Defined.

Lemma null_frames_come_last_witness :
  let s := main_loop three_frames_run (encoder_of 1152) 14 start in
  sends (history (world s))
  = map Some (sent_frames (history (world s)))
      ++ repeat None (null_sends (history (world s)))
  /\ (null_sends (history (world s)) <> O ->
      at_phase s = FLUSHING \/ at_phase s = DONE \/ at_phase s = FAILED).
Proof.
  refine (null_frames_come_last three_frames_run (encoder_of 1152)
            (main_loop three_frames_run (encoder_of 1152) 14 start) _).
  exists 14%nat. reflexivity.
Defined.

(** The state of [three_frames_run] in which the end of the input has
    just been seen: by its fourth decode step. *)
Lemma finished_means_the_input_ended_witness :
  let s := main_loop three_frames_run (encoder_of 1152) 10 start in
  exists i,
    pump_calls s = S i
    /\ (av_read_frame_ret (pump_env three_frames_run i) = AVERROR_EOF
        \/ avcodec_receive_frame_ret (pump_env three_frames_run i)
           = AVERROR_EOF).
Proof.
  refine (finished_means_the_input_ended three_frames_run (encoder_of 1152)
            (main_loop three_frames_run (encoder_of 1152) 10 start) _ _).
  - exists 10%nat. reflexivity.
  - reflexivity.
Defined.

Lemma rounds_are_bounded_by_decode_steps_witness :
  let s := main_loop three_frames_run (encoder_of 1152) 14 start in
  outlooptimes s = 2
  /\ 0 <= outlooptimes s <= Z.of_nat (pump_calls s).
Proof.
  cbv zeta. split; [reflexivity|].
  refine (rounds_are_bounded_by_decode_steps three_frames_run
            (encoder_of 1152)
            (main_loop three_frames_run (encoder_of 1152) 14 start) _).
  exists 14%nat. reflexivity.
Defined.

(** [main] on [three_frames_run]. *)
Lemma main_outcome_is_settled_witness :
  exists fuel,
    forall argc fuel',
      (fuel <= fuel')%nat ->
      main three_frames_run fuel' argc = main three_frames_run fuel argc
      /\ forall s, main three_frames_run fuel argc <> Unfinished s.
Proof.
  refine (main_outcome_is_settled three_frames_run 3 3
            (proj1 (proj2 (proj2 three_frames_run_is_tame)))
            (proj2 (proj2 (proj2 three_frames_run_is_tame))) _).
  vm_compute. reflexivity.
Defined.

Lemma main_writes_the_trailer_once_and_last_witness :
  exists h0 rounds,
    [Decoded 1024; Decoded 1024;
     SendFrame (Some {| nb_samples := 2048; frame_pts := 0 |});
     WritePacket; SendFrame None;
     Stdout "outer loop, how many times? %u" 1; WriteTrailer]
    = h0 ++ [Stdout "outer loop, how many times? %u" rounds; WriteTrailer]
    /\ trailers_written h0 = O
    /\ null_sends h0 <> O.
Proof.
  refine (proj2 (proj2 (proj2 (main_writes_the_trailer_once_and_last
                                 two_frames_run 10 3 0 _ _)) eq_refl)).
  vm_compute. reflexivity.
Defined.

Lemma main_succeeds_silently_witness :
  stderr_lines
    [Decoded 1024; Decoded 1024;
     SendFrame (Some {| nb_samples := 2048; frame_pts := 0 |});
     WritePacket; SendFrame None;
     Stdout "outer loop, how many times? %u" 1; WriteTrailer]
  = [].
Proof.
  refine (main_succeeds_silently two_frames_run 10 3 _ _).
  vm_compute. reflexivity.
Defined.

(** No library call of [three_frames_run] fails. *)
Lemma three_frames_run_is_good : nothing_fails three_frames_run 1024.
Proof.
  unfold nothing_fails, three_frames_run, run_of.
  cbn [input_env output_env swr_alloc_set_opts2_ret swr_init_ret
       av_audio_fifo_alloc_ok avformat_write_header_ret pump_env frame_env
       encode_env av_write_trailer_ret].
  conj_split; try (vm_compute; discriminate); try reflexivity.
  - vm_compute. intuition discriminate.
  - vm_compute. intuition discriminate.
  - intros i. split; [|apply three_frames_run_counts].
    do 3 (destruct i as [|i]; [vm_compute; intuition discriminate|]).
    destruct i; vm_compute; intuition (try discriminate; auto).
  - intros k. vm_compute. intuition discriminate.
  - intros k.
    do 3 (destruct k as [|k]; [left; vm_compute; intuition discriminate|]).
    right. destruct k; vm_compute; intuition (try discriminate; auto).
Qed.

Lemma main_succeeds_when_nothing_fails_witness :
  exists fuel h,
    forall fuel', (fuel <= fuel')%nat ->
                  main three_frames_run fuel' 3 = Return 0 h.
Proof.
  refine (main_succeeds_when_nothing_fails three_frames_run 3 3 1024
            three_frames_run_is_good
            (proj1 (proj2 (proj2 three_frames_run_is_tame)))
            (proj2 (proj2 (proj2 three_frames_run_is_tame))) _ _).
  - vm_compute. reflexivity.
  - vm_compute. discriminate.
Defined.

(** An encoder that asks for frames of no samples, as an encoder of
    variable frame size does. *)
Lemma main_needs_a_positive_frame_size_witness :
  exists s,
    main (run_of [frame_of 1024] 0 []) 5 3 = Unfinished s
    /\ pump_calls s = O.
Proof.
  assert (Hsize : encoder_frame_size (output_env (run_of [frame_of 1024] 0 []))
                  <= 0) by (vm_compute; discriminate).
  pose proof (main_needs_a_positive_frame_size
                (run_of [frame_of 1024] 0 []) 5 3 Hsize) as H.
  destruct (main (run_of [frame_of 1024] 0 []) 5 3)
    as [status h | | ret h | s] eqn:E;
    vm_compute in E; try discriminate.
  exists s. split; [reflexivity | exact H].
Defined.

Lemma zero_frame_size_run_is_good :
  nothing_fails (run_of [frame_of 1024] 0 []) 1024.
Proof.
  unfold nothing_fails, run_of.
  cbn [input_env output_env swr_alloc_set_opts2_ret swr_init_ret
       av_audio_fifo_alloc_ok avformat_write_header_ret pump_env frame_env
       encode_env av_write_trailer_ret].
  conj_split; try (vm_compute; discriminate); try reflexivity.
  - vm_compute. intuition discriminate.
  - vm_compute. intuition discriminate.
  - intros i.
    destruct i as [|i]; [vm_compute; intuition discriminate|].
    destruct i; vm_compute; intuition (try discriminate; auto).
  - intros k. vm_compute. intuition discriminate.
  - intros k. right. destruct k; vm_compute; intuition (try discriminate; auto).
Qed.

Lemma main_loops_forever_on_a_frame_size_of_zero_witness :
  exists s,
    main (run_of [frame_of 1024] 0 []) 4 3 = Unfinished s
    /\ pump_calls s = O
    /\ drain_calls s = 3%nat
    /\ sent_frames (history (world s))
       = repeat {| nb_samples := 0; frame_pts := 0 |} 3.
Proof.
  exact (main_loops_forever_on_a_frame_size_of_zero
           (run_of [frame_of 1024] 0 []) 1024 3
           zero_frame_size_run_is_good eq_refl).
Defined.

(** The memory of [two_frames_run]: both decode steps that hand out a
    frame get as far as the declaration of [conv_isamps]; the third, which
    reads the end of the file, does not, and frees the variable unset.
    That free is the one call that is out of order; everything that was
    allocated is given back. *)
Example two_frames_memory :
  main_memory two_frames_run 10 3
  = [Alloc InputFormatContext; Alloc DecoderContext;
     Alloc OutputIOContext; Alloc OutputFormatContext;
     Alloc EncoderContext; Alloc ResampleContext; Alloc SampleFifo;
     Alloc InputFrame; Alloc InputPacket; Free InputPacket Live;
     Alloc ConvertedSamples; Free ConvertedSamples Live;
     Free InputFrame Live;
     Alloc InputFrame; Alloc InputPacket; Free InputPacket Live;
     Alloc ConvertedSamples; Free ConvertedSamples Live;
     Free InputFrame Live;
     Alloc OutputFrame; Alloc OutputPacket; Free OutputPacket Live;
     Free OutputFrame Live;
     Alloc InputFrame; Alloc InputPacket; Free InputPacket Live;
     Free ConvertedSamples Unset; Free InputFrame Live;
     Alloc OutputPacket; Free OutputPacket Live;
     Free SampleFifo Live; Free ResampleContext Live;
     Free EncoderContext Live; Free OutputIOContext Live;
     Free OutputFormatContext Live; Free DecoderContext Live;
     Free InputFormatContext Live]
  /\ live_after (main_memory two_frames_run 10 3) [] = None
  /\ live_after (without_unset_frees (main_memory two_frames_run 10 3)) []
     = Some [].
Proof. repeat split; vm_compute; reflexivity. Qed.

(** [no_output_frame_run]: the drain fails before it comes to
    [encode_audio_frame]; it is counted as a drain and not as a call of
    the encoder. *)
Example failed_drain_calls_no_encoder :
  let s := main_loop no_output_frame_run (encoder_of 2048) 10 start in
  at_phase s = FAILED
  /\ pump_calls s = 2%nat /\ drain_calls s = 1%nat /\ encode_calls s = O
  /\ frames_pushed (history (world s)) = O
  /\ history (world s)
     = [Decoded 1024; Decoded 1024;
        Stderr "Could not allocate output frame"].
Proof. vm_compute. repeat split. Qed.

(** The memory of [lost_output_run]: the output file is opened and never
    closed. *)
Example lost_output_memory :
  main lost_output_run 10 3
  = Return AVERROR_EXIT [Stderr "Could not allocate output format context"]
  /\ main_memory lost_output_run 10 3
     = [Alloc InputFormatContext; Alloc DecoderContext;
        Alloc OutputIOContext;
        Free ResampleContext Null; Free DecoderContext Live;
        Free InputFormatContext Live]
  /\ live_after (main_memory lost_output_run 10 3) []
     = Some [OutputIOContext].
Proof. repeat split; vm_compute; reflexivity. Qed.

Lemma every_good_run_frees_an_unset_variable_witness :
  frees_unset (main_memory two_frames_run 10 3) = true.
Proof.
  refine (every_good_run_frees_an_unset_variable two_frames_run 10 3
            [Decoded 1024; Decoded 1024;
             SendFrame (Some {| nb_samples := 2048; frame_pts := 0 |});
             WritePacket; SendFrame None;
             Stdout "outer loop, how many times? %u" 1; WriteTrailer] _).
  vm_compute. reflexivity.
Defined.

(** [delayed_decoder_run]: the frame of 1024 samples that came with the
    end of the file is the one frame that is lost. *)
Lemma main_loses_at_most_the_last_frame_witness :
  exists kept lost,
    decoded_frames
      [Decoded 1024; SendFrame None;
       Stdout "outer loop, how many times? %u" 0; WriteTrailer]
    = kept ++ lost
    /\ sum kept
       = sent_samples
           [Decoded 1024; SendFrame None;
            Stdout "outer loop, how many times? %u" 0; WriteTrailer]
    /\ (lost = []
        \/ exists i,
            lost = [input_frame_nb_samples (pump_env delayed_decoder_run i)]
            /\ av_read_frame_ret (pump_env delayed_decoder_run i)
               = AVERROR_EOF
            /\ avcodec_receive_frame_ret (pump_env delayed_decoder_run i)
               = 0).
Proof.
  refine (main_loses_at_most_the_last_frame delayed_decoder_run 10 3 _ _
            delayed_decoder_run_counts _).
  - vm_compute. discriminate.
  - vm_compute. reflexivity.
Defined.

End Concrete.
